(** * pixijs-v8: geometry utilities, state manager, viewport controller
      and shape renderers, embedded in Rocq

    The JavaScript sources are embedded shallowly:
    - [utils/geometry.js]                 -> [Module Geometry]
    - [core/StateManager.js]              -> [Module StateManager]
    - [controls/ViewportController.js]    -> [Module ViewportController]
    - [graphics/FactoryRenderer.js],
      [graphics/PolygonRenderer.js],
      [graphics/PBSRenderer.js]           -> [Module Renderers]
    - [graphics/GraphicsFactory.js]       -> [Module GraphicsFactory]
    - [controls/AnimationController.js]   -> [Module AnimationController]
    - [events/KeyboardHandler.js]         -> [Module KeyboardHandler]
    Subscriber callbacks only observe in [Module StateManager]; in
    [Module Reentrant] they call back into the manager while they are
    being notified.

    JavaScript numbers are abstracted by the class [JsNumber]; the code is
    written once against that interface and run at two instances:
    - [Q]: exact rational arithmetic (the "real-valued coordinates" of
      the data model; no rounding, no NaN, no infinities), and
    - [float]: IEEE 754 binary64, the numbers a JavaScript engine
      really computes with.
    Statements that need the laws of arithmetic are made over [Q]; they
    carry the hypotheses that keep every divisor non-zero, where the two
    instances agree up to rounding ([x / 0] is [0] in [Q] and an
    infinity or NaN in binary64). Statements that need no such law hold
    for every instance. *)

From Stdlib Require Import QArith Qminmax Qabs Lqa Floats.
From stdpp Require Import base option list strings gmap.

Set Default Proof Using "Type".
Set Warnings "-inexact-float".
Local Open Scope Q_scope.

(* ================================================================== *)
(** * JavaScript numbers *)
(* ================================================================== *)

(** The arithmetic the sources use: literals, [+ - * /], [Math.abs],
    [Math.min], [Math.max], [<] and [===]. *)
Class JsNumber (num : Type) := {
  lit : Q -> num;
  add : num -> num -> num;
  sub : num -> num -> num;
  mul : num -> num -> num;
  div : num -> num -> num;
  Math_abs : num -> num;
  Math_min : num -> num -> num;
  Math_max : num -> num -> num;
  lt : num -> num -> bool;
  strict_eq : num -> num -> bool
}.

Declare Scope js_scope.
Delimit Scope js_scope with js.
Notation "a + b" := (add a b) : js_scope.
Notation "a - b" := (sub a b) : js_scope.
Notation "a * b" := (mul a b) : js_scope.
Notation "a / b" := (div a b) : js_scope.
Notation "a <? b" := (lt a b) : js_scope.
Notation "a >? b" := (lt b a) : js_scope.
Notation "a === b" := (strict_eq a b) (at level 70, no associativity) : js_scope.

(** [points.length] and other integers used as numbers. *)
Definition of_nat {num : Type} `{!JsNumber num} (n : nat) : num :=
  lit (inject_Z (Z.of_nat n)).

(** ** Exact rationals *)

Definition Qltb (a b : Q) : bool := negb (Qle_bool b a).

#[export] Instance Q_JsNumber : JsNumber Q := {
  lit q := q;
  add := Qplus;
  sub := Qminus;
  mul := Qmult;
  div := Qdiv;
  Math_abs := Qabs;
  Math_min := Qmin;
  Math_max := Qmax;
  lt := Qltb;
  strict_eq := Qeq_bool
}.

(** ** IEEE 754 binary64 *)

Definition float_of_Z (z : Z) : float :=
  match z with
  | Z0 => PrimFloat.zero
  | Zpos _ => PrimFloat.of_uint63 (Uint63.of_Z z)
  | Zneg p => PrimFloat.opp (PrimFloat.of_uint63 (Uint63.of_Z (Zpos p)))
  end.

(** A decimal literal denotes the double nearest to it; for numerators
    and denominators below 2^53 that is the correctly rounded quotient. *)
Definition float_lit (q : Q) : float :=
  PrimFloat.div (float_of_Z (Qnum q)) (float_of_Z (Zpos (Qden q))).

(** [Math.min] and [Math.max]: NaN if either argument is NaN, and
    [-0] counts as smaller than [+0]. *)
Definition float_min (a b : float) : float :=
  if PrimFloat.is_nan a || PrimFloat.is_nan b then PrimFloat.nan
  else if PrimFloat.ltb a b then a
  else if PrimFloat.ltb b a then b
  else if PrimFloat.get_sign a then a else b.

Definition float_max (a b : float) : float :=
  if PrimFloat.is_nan a || PrimFloat.is_nan b then PrimFloat.nan
  else if PrimFloat.ltb a b then b
  else if PrimFloat.ltb b a then a
  else if PrimFloat.get_sign a then b else a.

#[export] Instance float_JsNumber : JsNumber float := {
  lit := float_lit;
  add := PrimFloat.add;
  sub := PrimFloat.sub;
  mul := PrimFloat.mul;
  div := PrimFloat.div;
  Math_abs := PrimFloat.abs;
  Math_min := float_min;
  Math_max := float_max;
  lt := PrimFloat.ltb;
  strict_eq := PrimFloat.eqb
}.

(* ================================================================== *)
(** * Exceptions *)
(* ================================================================== *)

Inductive exn : Type :=
| Error (msg : string)
| TypeError (msg : string).

(** The outcome of a call: a value, or a thrown exception. *)
Inductive completion (A : Type) : Type :=
| Return (a : A)
| Throw (e : exn).
Arguments Return {A} a.
Arguments Throw {A} e.

(* ================================================================== *)
(** * utils/geometry.js *)
(* ================================================================== *)

Module Point.
Record t (num : Type) : Type := mk { x : num; y : num }.
Arguments mk {num} x y.
Arguments x {num} _.
Arguments y {num} _.
End Point.
Abbreviation Point := Point.t.

Module Geometry.
Section Geometry.
Context {num : Type} `{!JsNumber num}.
Local Open Scope js_scope.

(** [points[i]]; every index the loops below compute is in range, so
    the fallback is never read. *)
Definition at_index (points : list (Point num)) (i : nat) : Point num :=
  nth i points (Point.mk (lit 0) (lit 0)).

(** One iteration of the shoelace loop of [calculatePolygonCenter],
    on the triple [(area, centerX, centerY)]. *)
Definition shoelace_step (points : list (Point num))
    (acc : num * num * num) (i : nat) : num * num * num :=
  let '(area, centerX, centerY) := acc in
  let j := ((i + 1) mod length points)%nat in
  let cross := Point.x (at_index points i) * Point.y (at_index points j)
             - Point.x (at_index points j) * Point.y (at_index points i) in
  (area + cross,
   centerX + (Point.x (at_index points i) + Point.x (at_index points j)) * cross,
   centerY + (Point.y (at_index points i) + Point.y (at_index points j)) * cross).

(** [for (let i = 0; i < points.length; i++) { ... }] *)
Definition shoelace_loop (points : list (Point num)) : num * num * num :=
  fold_left (shoelace_step points) (seq 0 (length points))
            (lit 0, lit 0, lit 0).

(** [points.reduce((sum, p) => sum + f(p), 0)] *)
Definition reduce_sum (f : Point num -> num) (points : list (Point num)) : num :=
  fold_left (fun sum p => sum + f p) points (lit 0).

Definition calculatePolygonCenter (points : list (Point num))
    : completion (Point num) :=
  if (length points <? 3)%nat then
    Throw (Error "多边形至少需要3个顶点")
  else
    let '(area, centerX, centerY) := shoelace_loop points in
    let area := area / lit 2 in
    if Math_abs area <? lit (1 # 10000000000) then
      Return (Point.mk
                (reduce_sum Point.x points / of_nat (length points))
                (reduce_sum Point.y points / of_nat (length points)))
    else
      Return (Point.mk (centerX / (lit 6 * area)) (centerY / (lit 6 * area))).

(** One iteration of the summing loop of [calculateGeometricCenter],
    on the pair [(sumX, sumY)]. *)
Definition sum_step (points : list (Point num))
    (acc : num * num) (i : nat) : num * num :=
  let '(sumX, sumY) := acc in
  (sumX + Point.x (at_index points i), sumY + Point.y (at_index points i)).

Definition sum_loop (points : list (Point num)) : num * num :=
  fold_left (sum_step points) (seq 0 (length points)) (lit 0, lit 0).

Definition calculateGeometricCenter (points : list (Point num))
    : completion (Point num) :=
  if (length points =? 0)%nat then
    Throw (Error "顶点数组不能为空")
  else
    let '(sumX, sumY) := sum_loop points in
    Return (Point.mk (sumX / of_nat (length points))
                     (sumY / of_nat (length points))).

End Geometry.
End Geometry.

(* ================================================================== *)
(** * utils/constants.js *)
(* ================================================================== *)

Module Config.
Section Config.
Context {num : Type} `{!JsNumber num}.

(** [COLORS] *)
Definition COLORS : list num :=
  [ lit 16711680; lit 65280; lit 255; lit 16776960; lit 16711935; lit 65535 ].

(** [VIEWPORT_CONFIG] *)
Definition MIN_SCALE : num := lit (1 # 10).
Definition MAX_SCALE : num := lit 5.
Definition DEFAULT_SCALE : num := lit 1.
Definition ZOOM_IN_FACTOR : num := lit (12 # 10).
Definition ZOOM_OUT_FACTOR : num := lit (8 # 10).
Definition WHEEL_ZOOM_IN_FACTOR : num := lit (11 # 10).
Definition WHEEL_ZOOM_OUT_FACTOR : num := lit (9 # 10).

Definition pt (a b : Q) : Point num := Point.mk (lit a) (lit b).

(** [GRAPHICS_CONFIG.DEFAULT_POLYGON_POINTS] *)
Definition DEFAULT_POLYGON_POINTS : list (Point num) :=
  [ pt 50 10; pt 90 30; pt 80 70; pt 40 90; pt 10 60; pt 20 20 ].

(** [GRAPHICS_CONFIG.FACTORY_POINTS] *)
Definition FACTORY_POINTS : list (Point num) :=
  [ pt 50 50; pt 150 50; pt 150 100; pt 120 100;
    pt 120 150; pt 180 150; pt 180 170; pt 50 170;
    pt 50 150; pt 20 150; pt 20 100; pt 10 100;
    pt 10 30; pt 60 30; pt 60 50; pt 165 20;
    pt 185 20; pt 185 70; pt 165 70 ].

Definition STROKE_WIDTH : num := lit 2.
Definition SCALE_FACTOR : num := lit (15 # 10).
Definition CONTAINER_SCALE_RATIO : num := lit (9 # 10).

(** [APP_CONFIG] cursors *)
Definition CURSOR_GRAB : string := "grab".
Definition CURSOR_GRABBING : string := "grabbing".
Definition CURSOR_POINTER : string := "pointer".
End Config.
End Config.

(* ================================================================== *)
(** * The state object and the world the code runs in *)
(* ================================================================== *)

Module Viewport.
(** [{ x, y, scale }] *)
Record t (num : Type) : Type := mk { x : num; y : num; scale : num }.
Arguments mk {num} x y scale.
Arguments x {num} _.
Arguments y {num} _.
Arguments scale {num} _.

(** An object literal carrying some of the three properties, as the
    callers of [updateViewport] pass it. *)
Record patch (num : Type) : Type :=
  mkpatch { px : option num; py : option num; pscale : option num }.
Arguments mkpatch {num} px py pscale.
Arguments px {num} _.
Arguments py {num} _.
Arguments pscale {num} _.

(** [{ ...v, ...p }] *)
Definition spread {num} (v : t num) (p : patch num) : t num :=
  mk (default (x v) (px p)) (default (y v) (py p))
     (default (scale v) (pscale p)).
End Viewport.
Abbreviation Viewport := Viewport.t.

(** The values the fields of the state object hold. PIXI objects are
    held by reference. *)
Inductive value (num : Type) : Type :=
| VNull
| VBool (b : bool)
| VNum (n : num)
| VStr (s : string)
| VPoint (p : Point num)
| VPoints (ps : list (Point num))
| VViewport (v : Viewport num)
| VRef (id : nat)
| VRefs (ids : list nat).
Arguments VNull {num}.
Arguments VBool {num} b.
Arguments VNum {num} n.
Arguments VStr {num} s.
Arguments VPoint {num} p.
Arguments VPoints {num} ps.
Arguments VViewport {num} v.
Arguments VRef {num} id.
Arguments VRefs {num} ids.

(** The state object: a JavaScript object used as a map from property
    names to values. *)
Abbreviation State num := (gmap string (value num)).

(** A subscriber callback that only observes. It is identified by
    [sub_id] (JavaScript compares functions by identity) and observes
    the two state objects it is called with; it returns normally or
    throws. Callbacks that write to the console, as the one the UI
    controller registers does, or that call back into the manager while
    they are being notified are those of [Reentrant] below;
    [setState_of_observers] relates the two. *)
Record Subscriber (num : Type) : Type := {
  sub_id : nat;
  sub_call : State num -> State num -> completion unit
}.
Arguments sub_id {num} _.
Arguments sub_call {num} _ _ _.

(** A part of a template literal: its text, [${n}] for a number [n]
    and [${n.toFixed(digits)}]. *)
Inductive template_part (num : Type) : Type :=
| Text (s : string)
| Number (n : num)
| ToFixed (n : num) (digits : nat).
Arguments Text {num} s.
Arguments Number {num} n.
Arguments ToFixed {num} n digits.

(** A line on the console. A template literal with numbers in it is
    kept as its parts, in order; the line the engine prints is their
    concatenation, each number as the engine writes it. *)
Inductive log_entry (num : Type) : Type :=
| ConsoleError (msg : string) (error : option exn)
| ConsoleLog (msg : string)
| ConsoleLogTemplate (line : list (template_part num)).
Arguments ConsoleError {num} msg error.
Arguments ConsoleLog {num} msg.
Arguments ConsoleLogTemplate {num} line.

(** The canvas element, with the rectangle [getBoundingClientRect]
    reports for it. *)
Record Canvas (num : Type) : Type := {
  canvas_width : num;
  canvas_height : num;
  rect_left : num;
  rect_top : num;
  rect_right : num;
  rect_bottom : num;
  rect_width : num;
  rect_height : num;
  cursor : string
}.
Arguments canvas_width {num} _.
Arguments canvas_height {num} _.
Arguments rect_left {num} _.
Arguments rect_top {num} _.
Arguments rect_right {num} _.
Arguments rect_bottom {num} _.
Arguments rect_width {num} _.
Arguments rect_height {num} _.
Arguments cursor {num} _.

(** The PIXI application as the controller and the renderers use it:
    the canvas, the size of [app.screen], the stage transform, the
    [autoStart] flag, the ticker ([start]/[stop]) and the number of
    explicit [render] calls. *)
Record App (num : Type) : Type := {
  canvas : Canvas num;
  screen_width : num;
  screen_height : num;
  stage_position : Point num;
  stage_scale : Point num;
  autoStart : bool;
  ticking : bool;
  renders : nat
}.
Arguments canvas {num} _.
Arguments screen_width {num} _.
Arguments screen_height {num} _.
Arguments stage_position {num} _.
Arguments stage_scale {num} _.
Arguments autoStart {num} _.
Arguments ticking {num} _.
Arguments renders {num} _.

(** Everything the methods read and write. [calls] records each
    subscriber invocation: who was called, with which new and old
    state. *)
Record World (num : Type) : Type := {
  state : State num;
  subscribers : list (Subscriber num);
  calls : list (nat * State num * State num);
  console : list (log_entry num);
  app : App num
}.
Arguments state {num} _.
Arguments subscribers {num} _.
Arguments calls {num} _.
Arguments console {num} _.
Arguments app {num} _.

(** ** Methods as state transformers that may throw *)

Section Monad.
Context {num : Type}.

(** A thrown exception keeps the writes made before it. *)
Definition M (A : Type) : Type := World num -> completion A * World num.

Definition ret {A} (a : A) : M A := fun w => (Return a, w).

Definition bind {A B} (m : M A) (k : A -> M B) : M B :=
  fun w => match m w with
           | (Return a, w') => k a w'
           | (Throw e, w') => (Throw e, w')
           end.

Definition throw {A} (e : exn) : M A := fun w => (Throw e, w).

(** [try { body } catch (error) { handler }] *)
Definition try_catch {A} (body : M A) (handler : exn -> M A) : M A :=
  fun w => match body w with
           | (Return a, w') => (Return a, w')
           | (Throw e, w') => handler e w'
           end.

Definition gets {A} (f : World num -> A) : M A := fun w => (Return (f w), w).
Definition modify (f : World num -> World num) : M unit :=
  fun w => (Return tt, f w).

(** [list.forEach(f)] *)
Fixpoint forEach {A} (l : list A) (f : A -> M unit) : M unit :=
  match l with
  | [] => ret tt
  | a :: l' => bind (f a) (fun _ => forEach l' f)
  end.

Definition set_state (s : State num) (w : World num) : World num :=
  {| state := s; subscribers := subscribers w; calls := calls w;
     console := console w; app := app w |}.
Definition set_subscribers (l : list (Subscriber num)) (w : World num) : World num :=
  {| state := state w; subscribers := l; calls := calls w;
     console := console w; app := app w |}.
Definition add_call (c : nat * State num * State num) (w : World num) : World num :=
  {| state := state w; subscribers := subscribers w; calls := calls w ++ [c];
     console := console w; app := app w |}.
Definition add_log (e : log_entry num) (w : World num) : World num :=
  {| state := state w; subscribers := subscribers w; calls := calls w;
     console := console w ++ [e]; app := app w |}.
Definition set_app (a : App num) (w : World num) : World num :=
  {| state := state w; subscribers := subscribers w; calls := calls w;
     console := console w; app := a |}.

Definition console_error (msg : string) (error : option exn) : M unit :=
  modify (add_log (ConsoleError msg error)).
Definition console_log (msg : string) : M unit :=
  modify (add_log (ConsoleLog msg)).
Definition console_log_template (line : list (template_part num)) : M unit :=
  modify (add_log (ConsoleLogTemplate line)).
End Monad.
Arguments M : clear implicits.

Declare Scope monad_scope.
Delimit Scope monad_scope with M.
Notation "x <- m ;; k" := (bind m (fun x => k))
  (at level 100, m at next level, right associativity) : monad_scope.
Notation "m ;; k" := (bind m (fun _ => k))
  (at level 100, right associativity) : monad_scope.

(** JavaScript truthiness of a state entry; [None] is [undefined]. *)
Definition truthy {num : Type} `{!JsNumber num} (v : option (value num)) : bool :=
  match v with
  | None | Some VNull => false
  | Some (VBool b) => b
  | Some (VNum n) => (n === n)%js && negb (n === lit 0)%js
  | Some (VStr s) => negb (String.eqb s "")
  | Some _ => true
  end.

(* ================================================================== *)
(** * core/StateManager.js *)
(* ================================================================== *)

Module StateManager.
Section StateManager.
Context {num : Type} `{!JsNumber num}.
Local Open Scope monad_scope.

(** The state object the constructor builds. *)
Definition initial_state : State num :=
  <["currentShape" := VNull]>
  (<["currentGraphic" := VNull]>
  (<["isRotating" := VBool false]>
  (<["currentColor" := VNum (nth 0 Config.COLORS (lit 0))]>
  (<["colorIndex" := VNum (lit 0)]>
  (<["showingCenter" := VBool false]>
  (<["showingGeometricCenter" := VBool false]>
  (<["centerDot" := VNull]>
  (<["geometricCenterDot" := VNull]>
  (<["polygonPoints" := VPoints Config.DEFAULT_POLYGON_POINTS]>
  (<["factoryPoints" := VPoints Config.FACTORY_POINTS]>
  (<["pbsGraphics" := VRefs []]>
  (<["viewport" := VViewport (Viewport.mk (lit 0) (lit 0) (lit 1))]>
  (<["isDragging" := VBool false]>
  (<["lastPointerPosition" := VPoint (Point.mk (lit 0) (lit 0))]>
  (<["pbsMoveable" := VBool false]>
  (<["draggingPBS" := VNull]> ∅)))))))))))))))).

(** [new StateManager()], in a page whose application is [a]. *)
Definition constructor (a : App num) : World num :=
  {| state := initial_state; subscribers := []; calls := [];
     console := []; app := a |}.

(** [callback(newState, oldState)] *)
Definition invoke (callback : Subscriber num) (newState oldState : State num)
    : M num unit :=
  fun w => (sub_call callback newState oldState,
            add_call (sub_id callback, newState, oldState) w).

Definition notifySubscribers (newState oldState : State num) : M num unit :=
  subs <- gets subscribers ;;
  forEach subs (fun callback =>
    try_catch (invoke callback newState oldState)
              (fun error => console_error "状态订阅者回调错误:" (Some error))).

Definition setState (newState : State num) : M num unit :=
  oldState <- gets state ;;
  modify (fun w => set_state (newState ∪ state w) w) ;;
  this_state <- gets state ;;
  notifySubscribers this_state oldState.

Definition getState : M num (State num) := gets state.

(** [this.state[key]]; [None] is [undefined]. *)
Definition get (key : string) : M num (option (value num)) :=
  gets (fun w => state w !! key).

Definition set (key : string) (v : value num) : M num unit :=
  setState {[ key := v ]}.

Definition subscribe (callback : Subscriber num) : M num unit :=
  modify (fun w => set_subscribers (subscribers w ++ [callback]) w).

(** The closure [subscribe] returns: remove the first occurrence of
    the callback, if there is one. *)
Fixpoint remove_first (id : nat) (l : list (Subscriber num))
    : list (Subscriber num) :=
  match l with
  | [] => []
  | cb :: l' => if (sub_id cb =? id)%nat then l' else cb :: remove_first id l'
  end.

Definition unsubscribe (callback : Subscriber num) : M num unit :=
  modify (fun w => set_subscribers (remove_first (sub_id callback) (subscribers w)) w).

Definition toggleRotation : M num unit :=
  r <- get "isRotating" ;;
  setState {[ "isRotating" := VBool (negb (truthy r)) ]}.

(** [{ ...this.state.viewport, ...viewport }]. Spreading [undefined],
    [null] or a primitive contributes no property, so over a state
    without a viewport object the result has only the properties of
    the patch; [None] when that is not a whole viewport. *)
Definition spread_viewport (current : option (value num))
    (viewport : Viewport.patch num) : option (Viewport num) :=
  match current with
  | Some (VViewport v) => Some (Viewport.spread v viewport)
  | _ =>
      match viewport with
      | Viewport.mkpatch (Some x) (Some y) (Some s) => Some (Viewport.mk x y s)
      | _ => None
      end
  end.

(** [updateViewport(viewport)]. A viewport object with missing
    properties cannot be stored in this embedding; it is reported as
    a [TypeError]. The constructor stores a whole viewport and no
    method of the manager or of the controller removes it. *)
Definition updateViewport (viewport : Viewport.patch num) : M num unit :=
  current <- get "viewport" ;;
  match spread_viewport current viewport with
  | Some v => setState {[ "viewport" := VViewport v ]}
  | None => throw (TypeError "viewport object with missing properties")
  end.

Definition setDragging (isDragging : bool) (position : option (Point num))
    : M num unit :=
  let newState : State num := {[ "isDragging" := VBool isDragging ]} in
  let newState :=
    match position with
    | Some p => <["lastPointerPosition" := VPoint p]> newState
    | None => newState
    end in
  setState newState.

Definition reset : M num unit :=
  setState
    (<["currentShape" := VNull]>
    (<["currentGraphic" := VNull]>
    (<["isRotating" := VBool false]>
    (<["currentColor" := VNum (nth 0 Config.COLORS (lit 0))]>
    (<["colorIndex" := VNum (lit 0)]>
    (<["showingCenter" := VBool false]>
    (<["showingGeometricCenter" := VBool false]>
    (<["centerDot" := VNull]>
    (<["geometricCenterDot" := VNull]>
    (<["pbsGraphics" := VRefs []]>
    (<["viewport" := VViewport (Viewport.mk (lit 0) (lit 0) (lit 1))]>
    (<["isDragging" := VBool false]>
    (<["lastPointerPosition" := VPoint (Point.mk (lit 0) (lit 0))]>
    (<["pbsMoveable" := VBool false]>
    (<["draggingPBS" := VNull]> ∅))))))))))))))).

(** [resetColor()] *)
Definition resetColor : M num unit :=
  setState (<["colorIndex" := VNum (lit 0)]>
            {[ "currentColor" := VNum (nth 0 Config.COLORS (lit 0)) ]}).

(** [setCurrentShape(shapeType, graphic)] *)
Definition setCurrentShape (shapeType graphic : value num) : M num unit :=
  setState (<["currentShape" := shapeType]> {[ "currentGraphic" := graphic ]}).

(** [setCenterDot(showing, dot = null)] *)
Definition setCenterDot (showing : bool) (dot : option (value num)) : M num unit :=
  setState (<["showingCenter" := VBool showing]>
            {[ "centerDot" := default VNull dot ]}).

(** [setGeometricCenterDot(showing, dot = null)] *)
Definition setGeometricCenterDot (showing : bool) (dot : option (value num))
    : M num unit :=
  setState (<["showingGeometricCenter" := VBool showing]>
            {[ "geometricCenterDot" := default VNull dot ]}).

(** [togglePBSMoveable()]; the result is the new flag. *)
Definition togglePBSMoveable : M num bool :=
  m <- get "pbsMoveable" ;;
  let newState := negb (truthy m) in
  setState {[ "pbsMoveable" := VBool newState ]} ;;
  console_log (if newState then "PBS移动模式: 已启用" else "PBS移动模式: 已禁用") ;;
  ret newState.

(** [setDraggingPBS(pbsUnit)] *)
Definition setDraggingPBS (pbsUnit : value num) : M num unit :=
  setState {[ "draggingPBS" := pbsUnit ]}.

End StateManager.
End StateManager.

(* ================================================================== *)
(** * core/StateManager.js, with callbacks that call back into it *)
(* ================================================================== *)

(** The subscribers of the sections above only observe. Here a
    callback is the sequence of its calls of the manager's methods and
    of the console, and [notifySubscribers] walks the array of
    subscribers as [forEach] does while callbacks change it. What a
    callback does to the manager otherwise (writing its fields) is not
    modelled. *)
Module Reentrant.
Section Reentrant.
Context {num : Type} `{!JsNumber num}.

(** What a callback does when it is called: its calls of the methods
    of the manager and of the console, in order, and how it ends.
    [GetState] is [getState()] or [get(key)]; [SetState] is
    [setState(newState)] and every method that is one [setState] of a
    patch ([set], [toggleRotation], [updateViewport], [reset], ...);
    [Subscribe] is [subscribe(callback)] for the function known as
    [id]; [Unsubscribe] is the closure a [subscribe] of that function
    returned; [Notify] is [notifySubscribers(newState, oldState)]. *)
Inductive script : Type :=
| Returns
| Throws (error : exn)
| GetState (rest : State num -> script)
| SetState (newState : State num) (rest : script)
| Subscribe (id : nat) (callback : State num -> State num -> script) (rest : script)
| Unsubscribe (id : nat) (rest : script)
| Notify (newState oldState : State num) (rest : script)
| Log (entry : log_entry num) (rest : script).

(** A callback: the function, known by [id] (JavaScript compares
    functions by identity), and what it does when it is called with
    [(newState, oldState)]. *)
Record Callback : Type := {
  id : nat;
  body : State num -> State num -> script
}.

(** The manager object, with the console. [calls] records each call of
    a subscriber: who was called, with which new and old state. *)
Record Manager : Type := {
  state : State num;
  subscribers : list Callback;
  calls : list (nat * State num * State num);
  console : list (log_entry num)
}.

Definition set_state (s : State num) (m : Manager) : Manager :=
  {| state := s; subscribers := subscribers m; calls := calls m;
     console := console m |}.
Definition set_subscribers (l : list Callback) (m : Manager) : Manager :=
  {| state := state m; subscribers := l; calls := calls m; console := console m |}.
Definition add_call (c : nat * State num * State num) (m : Manager) : Manager :=
  {| state := state m; subscribers := subscribers m; calls := calls m ++ [c];
     console := console m |}.
Definition add_log (e : log_entry num) (m : Manager) : Manager :=
  {| state := state m; subscribers := subscribers m; calls := calls m;
     console := console m ++ [e] |}.

(** [this.subscribers.push(callback)] *)
Definition subscribe (callback : Callback) (m : Manager) : Manager :=
  set_subscribers (subscribers m ++ [callback]) m.

(** The closure [subscribe] returns: [indexOf] and [splice(index, 1)],
    in place. *)
Fixpoint remove_first (i : nat) (l : list Callback) : list Callback :=
  match l with
  | [] => []
  | cb :: l' => if (id cb =? i)%nat then l' else cb :: remove_first i l'
  end.

Definition unsubscribe (i : nat) (m : Manager) : Manager :=
  set_subscribers (remove_first i (subscribers m)) m.

(** How a call ends and what it leaves; [None] when the notifications
    nest deeper than the embedding follows them. *)
Definition outcome : Type := option (completion unit * Manager).

Section Notify.
(** [notifySubscribers], as the calls of a callback reach it. *)
Variable nested : State num -> State num -> Manager -> outcome.

(** [setState(newState)]:
    [const oldState = { ...this.state };
     this.state = { ...this.state, ...newState };
     this.notifySubscribers(this.state, oldState);] *)
Definition setState_then (newState : State num) (m : Manager) : outcome :=
  let oldState := state m in
  let m := set_state (newState ∪ state m) m in
  nested (state m) oldState m.

(** Running the body of a callback. *)
Fixpoint run (s : script) (m : Manager) : outcome :=
  match s with
  | Returns => Some (Return tt, m)
  | Throws error => Some (Throw error, m)
  | GetState rest => run (rest (state m)) m
  | SetState newState rest =>
      match setState_then newState m with
      | Some (Return _, m') => run rest m'
      | result => result
      end
  | Notify newState oldState rest =>
      match nested newState oldState m with
      | Some (Return _, m') => run rest m'
      | result => result
      end
  | Subscribe i callback rest => run rest (subscribe {| id := i; body := callback |} m)
  | Unsubscribe i rest => run rest (unsubscribe i m)
  | Log entry rest => run rest (add_log entry m)
  end.

(** [try { callback(newState, oldState); } catch (error) {
    console.error('状态订阅者回调错误:', error); }] *)
Definition invoke (newState oldState : State num) (callback : Callback)
    (m : Manager) : outcome :=
  match run (body callback newState oldState)
            (add_call (id callback, newState, oldState) m) with
  | Some (Throw error, m') =>
      Some (Return tt, add_log (ConsoleError "状态订阅者回调错误:" (Some error)) m')
  | result => result
  end.

(** [this.subscribers.forEach(f)]. [forEach] takes the length of the
    array when it starts and visits the indices below it in order; at
    each index it calls [f] on the element the array has there then,
    and skips the index when the array no longer has it. *)
Fixpoint forEach (visits index : nat) (f : Callback -> Manager -> outcome)
    (m : Manager) : outcome :=
  match visits with
  | O => Some (Return tt, m)
  | S visits =>
      match subscribers m !! index with
      | None => forEach visits (S index) f m
      | Some callback =>
          match f callback m with
          | Some (Return _, m') => forEach visits (S index) f m'
          | result => result
          end
      end
  end.

Definition notify_all (newState oldState : State num) (m : Manager) : outcome :=
  forEach (length (subscribers m)) 0 (invoke newState oldState) m.

End Notify.

(** [notifySubscribers(newState, oldState)], following the
    notifications that callbacks start themselves down to [depth]
    levels. *)
Fixpoint notifySubscribers (depth : nat) (newState oldState : State num)
    (m : Manager) : outcome :=
  match depth with
  | O => None
  | S depth => notify_all (notifySubscribers depth) newState oldState m
  end.

Definition setState (depth : nat) (newState : State num) (m : Manager) : outcome :=
  setState_then (notifySubscribers depth) newState m.

(** ** Callbacks that leave the manager alone *)

(** The body reads the state, writes to the console and returns or
    throws; it calls neither [setState] nor [notifySubscribers] nor
    [subscribe] nor an unsubscribe closure. *)
Fixpoint observes (s : script) : Prop :=
  match s with
  | Returns | Throws _ => True
  | GetState rest => forall st, observes (rest st)
  | Log _ rest => observes rest
  | SetState _ _ | Subscribe _ _ _ | Unsubscribe _ _ | Notify _ _ _ => False
  end.

Definition observer (callback : Callback) : Prop :=
  forall newState oldState, observes (body callback newState oldState).

(** What such a body writes to the console, and how it ends, when the
    manager holds the state [st]. *)
Fixpoint written (s : script) (st : State num) : list (log_entry num) :=
  match s with
  | GetState rest => written (rest st) st
  | Log entry rest => entry :: written rest st
  | _ => []
  end.

Fixpoint ending (s : script) (st : State num) : completion unit :=
  match s with
  | Throws error => Throw error
  | GetState rest => ending (rest st) st
  | Log _ rest => ending rest st
  | _ => Return tt
  end.

(** The console lines of one call of an observer: what it writes,
    then the error line if it throws. *)
Definition lines (newState oldState : State num) (callback : Callback)
    : list (log_entry num) :=
  written (body callback newState oldState) newState
  ++ match ending (body callback newState oldState) newState with
     | Return _ => []
     | Throw error => [ConsoleError "状态订阅者回调错误:" (Some error)]
     end.

(** The callback that unsubscribes itself when it is first called. *)
Definition one_shot (i : nat) : Callback :=
  {| id := i; body := fun _ _ => Unsubscribe i Returns |}.

End Reentrant.
Arguments script : clear implicits.
Arguments Callback : clear implicits.
Arguments Manager : clear implicits.
Arguments outcome : clear implicits.
End Reentrant.

(** A subscriber that only observes, as a callback. *)
Definition as_callback {num : Type} (s : Subscriber num) : Reentrant.Callback num :=
  {| Reentrant.id := sub_id s;
     Reentrant.body := fun newState oldState =>
       match sub_call s newState oldState with
       | Return _ => Reentrant.Returns
       | Throw error => Reentrant.Throws error
       end |}.

(** The manager of a world. *)
Definition manager_of {num : Type} (w : World num) : Reentrant.Manager num :=
  {| Reentrant.state := state w;
     Reentrant.subscribers := map as_callback (subscribers w);
     Reentrant.calls := calls w;
     Reentrant.console := console w |}.

(* ================================================================== *)
(** * controls/ViewportController.js *)
(* ================================================================== *)

Module WheelEvent.
Record t (num : Type) : Type := mk { clientX : num; clientY : num; deltaY : num }.
Arguments mk {num} clientX clientY deltaY.
Arguments clientX {num} _.
Arguments clientY {num} _.
Arguments deltaY {num} _.
End WheelEvent.
Abbreviation WheelEvent := WheelEvent.t.

Module PointerEvent.
Record t (num : Type) : Type := mk { clientX : num; clientY : num }.
Arguments mk {num} clientX clientY.
Arguments clientX {num} _.
Arguments clientY {num} _.
End PointerEvent.
Abbreviation PointerEvent := PointerEvent.t.

Module Bounds.
(** [{ x, y, width, height }] *)
Record t (num : Type) : Type := mk { x : num; y : num; width : num; height : num }.
Arguments mk {num} x y width height.
Arguments x {num} _.
Arguments y {num} _.
Arguments width {num} _.
Arguments height {num} _.
End Bounds.
Abbreviation Bounds := Bounds.t.

Module ViewportController.
Section ViewportController.
Context {num : Type} `{!JsNumber num}.
Local Open Scope js_scope.
Local Open Scope monad_scope.

(** [a >= b] and [a <= b] *)
Definition ge (a b : num) : bool := (a >? b) || (a === b).
Definition le (a b : num) : bool := (a <? b) || (a === b).

(** Reading [.x], [.y] or [.scale] of the viewport entry. On
    [undefined] or [null] JavaScript throws this [TypeError]; the
    embedding reports it for every entry that is not a viewport
    object. *)
Definition the_viewport (v : option (value num)) : M num (Viewport num) :=
  match v with
  | Some (VViewport vp) => ret vp
  | _ => throw (TypeError "Cannot read properties of undefined")
  end.

Definition the_point (v : option (value num)) : M num (Point num) :=
  match v with
  | Some (VPoint p) => ret p
  | _ => throw (TypeError "Cannot read properties of undefined")
  end.

(** [this.app.render()] *)
Definition render : M num unit :=
  modify (fun w =>
    set_app {| canvas := canvas (app w);
               screen_width := screen_width (app w);
               screen_height := screen_height (app w);
               stage_position := stage_position (app w);
               stage_scale := stage_scale (app w);
               autoStart := autoStart (app w);
               ticking := ticking (app w);
               renders := S (renders (app w)) |} w).

(** [if (!this.app.autoStart) { this.app.render(); }] *)
Definition render_unless_autoStart : M num unit :=
  auto <- gets (fun w => autoStart (app w)) ;;
  if auto then ret tt else render.

(** [this.app.start()] and [this.app.stop()] *)
Definition set_ticking (b : bool) : M num unit :=
  modify (fun w =>
    set_app {| canvas := canvas (app w);
               screen_width := screen_width (app w);
               screen_height := screen_height (app w);
               stage_position := stage_position (app w);
               stage_scale := stage_scale (app w);
               autoStart := autoStart (app w);
               ticking := b;
               renders := renders (app w) |} w).

(** [this.app.canvas.style.cursor = c] *)
Definition set_cursor (c : string) : M num unit :=
  modify (fun w =>
    let cv := canvas (app w) in
    set_app {| canvas := {| canvas_width := canvas_width cv;
                            canvas_height := canvas_height cv;
                            rect_left := rect_left cv; rect_top := rect_top cv;
                            rect_right := rect_right cv;
                            rect_bottom := rect_bottom cv;
                            rect_width := rect_width cv;
                            rect_height := rect_height cv;
                            cursor := c |};
               screen_width := screen_width (app w);
               screen_height := screen_height (app w);
               stage_position := stage_position (app w);
               stage_scale := stage_scale (app w);
               autoStart := autoStart (app w);
               ticking := ticking (app w);
               renders := renders (app w) |} w).

(** [stage.position.set(x, y); stage.scale.set(s)] *)
Definition set_stage (vp : Viewport num) : M num unit :=
  modify (fun w =>
    set_app {| canvas := canvas (app w);
               screen_width := screen_width (app w);
               screen_height := screen_height (app w);
               stage_position := Point.mk (Viewport.x vp) (Viewport.y vp);
               stage_scale := Point.mk (Viewport.scale vp) (Viewport.scale vp);
               autoStart := autoStart (app w);
               ticking := ticking (app w);
               renders := renders (app w) |} w).

Definition initViewport : M num unit :=
  StateManager.updateViewport
    (Viewport.mkpatch (Some (lit 0)) (Some (lit 0)) (Some Config.DEFAULT_SCALE)).

(** [updateViewport()]: copy the viewport onto the stage. The
    application and its stage always exist here. *)
Definition updateViewport : M num unit :=
  v <- StateManager.get "viewport" ;;
  viewport <- the_viewport v ;;
  set_stage viewport.

(** The pointer position in canvas pixels, as [handleWheel] computes it. *)
Definition mouse_position (c : Canvas num) (event : WheelEvent num) : Point num :=
  let scaleX := canvas_width c / rect_width c in
  let scaleY := canvas_height c / rect_height c in
  Point.mk ((WheelEvent.clientX event - rect_left c) * scaleX)
           ((WheelEvent.clientY event - rect_top c) * scaleY).

(** [handleWheel(event)]. [event.preventDefault()] touches nothing that
    is modelled. *)
Definition handleWheel (event : WheelEvent num) : M num unit :=
  state <- StateManager.getState ;;
  viewport <- the_viewport (state !! "viewport") ;;
  c <- gets (fun w => canvas (app w)) ;;
  let mouseX := Point.x (mouse_position c event) in
  let mouseY := Point.y (mouse_position c event) in
  let scaleFactor :=
    if WheelEvent.deltaY event >? lit 0
    then Config.WHEEL_ZOOM_OUT_FACTOR
    else Config.WHEEL_ZOOM_IN_FACTOR in
  let newScale :=
    Math_max Config.MIN_SCALE
             (Math_min Config.MAX_SCALE (Viewport.scale viewport * scaleFactor)) in
  if newScale === Viewport.scale viewport then ret tt
  else
    let worldX := (mouseX - Viewport.x viewport) / Viewport.scale viewport in
    let worldY := (mouseY - Viewport.y viewport) / Viewport.scale viewport in
    StateManager.updateViewport
      (Viewport.mkpatch (Some (mouseX - worldX * newScale))
                        (Some (mouseY - worldY * newScale))
                        (Some newScale)) ;;
    updateViewport ;;
    render_unless_autoStart.

Definition handlePointerDown (event : PointerEvent num) : M num unit :=
  auto <- gets (fun w => autoStart (app w)) ;;
  (if auto then ret tt else set_ticking true) ;;
  c <- gets (fun w => canvas (app w)) ;;
  let isOnCanvas :=
    ge (PointerEvent.clientX event) (rect_left c)
    && le (PointerEvent.clientX event) (rect_right c)
    && ge (PointerEvent.clientY event) (rect_top c)
    && le (PointerEvent.clientY event) (rect_bottom c) in
  if negb isOnCanvas then ret tt
  else
    StateManager.setDragging true
      (Some (Point.mk (PointerEvent.clientX event) (PointerEvent.clientY event))) ;;
    set_cursor Config.CURSOR_GRABBING.

Definition handlePointerMove (event : PointerEvent num) : M num unit :=
  state <- StateManager.getState ;;
  if negb (truthy (state !! "isDragging")) then ret tt
  else
    last <- the_point (state !! "lastPointerPosition") ;;
    let deltaX := PointerEvent.clientX event - Point.x last in
    let deltaY := PointerEvent.clientY event - Point.y last in
    viewport <- the_viewport (state !! "viewport") ;;
    StateManager.updateViewport
      (Viewport.mkpatch (Some (Viewport.x viewport + deltaX))
                        (Some (Viewport.y viewport + deltaY))
                        None) ;;
    StateManager.setDragging true
      (Some (Point.mk (PointerEvent.clientX event) (PointerEvent.clientY event))) ;;
    updateViewport.

Definition handlePointerUp : M num unit :=
  StateManager.setDragging false None ;;
  set_cursor Config.CURSOR_GRAB ;;
  auto <- gets (fun w => autoStart (app w)) ;;
  if auto then ret tt else set_ticking false.

Definition zoomIn : M num unit :=
  v <- StateManager.get "viewport" ;;
  c <- gets (fun w => canvas (app w)) ;;
  let centerX := canvas_width c / lit 2 in
  let centerY := canvas_height c / lit 2 in
  viewport <- the_viewport v ;;
  let scaleFactor := Config.ZOOM_IN_FACTOR in
  let newScale := Math_min Config.MAX_SCALE (Viewport.scale viewport * scaleFactor) in
  if newScale === Viewport.scale viewport then ret tt
  else
    let worldX := (centerX - Viewport.x viewport) / Viewport.scale viewport in
    let worldY := (centerY - Viewport.y viewport) / Viewport.scale viewport in
    StateManager.updateViewport
      (Viewport.mkpatch (Some (centerX - worldX * newScale))
                        (Some (centerY - worldY * newScale))
                        (Some newScale)) ;;
    updateViewport ;;
    render_unless_autoStart.

Definition zoomOut : M num unit :=
  v <- StateManager.get "viewport" ;;
  c <- gets (fun w => canvas (app w)) ;;
  let centerX := canvas_width c / lit 2 in
  let centerY := canvas_height c / lit 2 in
  viewport <- the_viewport v ;;
  let scaleFactor := Config.ZOOM_OUT_FACTOR in
  let newScale := Math_max Config.MIN_SCALE (Viewport.scale viewport * scaleFactor) in
  if newScale === Viewport.scale viewport then ret tt
  else
    let worldX := (centerX - Viewport.x viewport) / Viewport.scale viewport in
    let worldY := (centerY - Viewport.y viewport) / Viewport.scale viewport in
    StateManager.updateViewport
      (Viewport.mkpatch (Some (centerX - worldX * newScale))
                        (Some (centerY - worldY * newScale))
                        (Some newScale)) ;;
    updateViewport ;;
    render_unless_autoStart.

Definition reset : M num unit :=
  StateManager.updateViewport
    (Viewport.mkpatch (Some (lit 0)) (Some (lit 0)) (Some Config.DEFAULT_SCALE)) ;;
  updateViewport ;;
  render_unless_autoStart ;;
  console_log "视窗已重置".

Definition pan (deltaX deltaY : num) : M num unit :=
  v <- StateManager.get "viewport" ;;
  viewport <- the_viewport v ;;
  StateManager.updateViewport
    (Viewport.mkpatch (Some (Viewport.x viewport + deltaX))
                      (Some (Viewport.y viewport + deltaY))
                      None) ;;
  updateViewport ;;
  render_unless_autoStart.

(** [zoomTo(scale, center = null)] *)
Definition zoomTo (scale : num) (center : option (Point num)) : M num unit :=
  let targetScale :=
    Math_max Config.MIN_SCALE (Math_min Config.MAX_SCALE scale) in
  c <- gets (fun w => canvas (app w)) ;;
  let centerX :=
    match center with Some p => Point.x p | None => canvas_width c / lit 2 end in
  let centerY :=
    match center with Some p => Point.y p | None => canvas_height c / lit 2 end in
  v <- StateManager.get "viewport" ;;
  viewport <- the_viewport v ;;
  let worldX := (centerX - Viewport.x viewport) / Viewport.scale viewport in
  let worldY := (centerY - Viewport.y viewport) / Viewport.scale viewport in
  StateManager.updateViewport
    (Viewport.mkpatch (Some (centerX - worldX * targetScale))
                      (Some (centerY - worldY * targetScale))
                      (Some targetScale)) ;;
  updateViewport ;;
  render_unless_autoStart.

(** [fitToContent(bounds, padding = 0.1)] *)
Definition fitToContent (bounds : option (Bounds num)) (padding : option num)
    : M num unit :=
  let padding := default (lit (1 # 10)) padding in
  match bounds with
  | None => ret tt
  | Some bounds =>
      c <- gets (fun w => canvas (app w)) ;;
      let canvasWidth := canvas_width c in
      let canvasHeight := canvas_height c in
      let scaleX := (canvasWidth * (lit 1 - padding * lit 2)) / Bounds.width bounds in
      let scaleY := (canvasHeight * (lit 1 - padding * lit 2)) / Bounds.height bounds in
      let scale := Math_min scaleX scaleY in
      let centerX := canvasWidth / lit 2 in
      let centerY := canvasHeight / lit 2 in
      let contentCenterX := Bounds.x bounds + Bounds.width bounds / lit 2 in
      let contentCenterY := Bounds.y bounds + Bounds.height bounds / lit 2 in
      StateManager.updateViewport
        (Viewport.mkpatch
           (Some (centerX - contentCenterX * scale))
           (Some (centerY - contentCenterY * scale))
           (Some (Math_max Config.MIN_SCALE (Math_min Config.MAX_SCALE scale)))) ;;
      updateViewport ;;
      render_unless_autoStart
  end.

(** The calls a page makes on the controller, one per user action. *)
Inductive action : Type :=
| Wheel (event : WheelEvent num)
| PointerDown (event : PointerEvent num)
| PointerMove (event : PointerEvent num)
| PointerUp
| ZoomIn
| ZoomOut
| Reset
| Pan (deltaX deltaY : num)
| ZoomTo (scale : num) (center : option (Point num))
| FitToContent (bounds : option (Bounds num)) (padding : option num).

Definition perform (a : action) : M num unit :=
  match a with
  | Wheel event => handleWheel event
  | PointerDown event => handlePointerDown event
  | PointerMove event => handlePointerMove event
  | PointerUp => handlePointerUp
  | ZoomIn => zoomIn
  | ZoomOut => zoomOut
  | Reset => reset
  | Pan dx dy => pan dx dy
  | ZoomTo s c => zoomTo s c
  | FitToContent b p => fitToContent b p
  end.

(** A session: the actions one after the other, stopping at the
    first uncaught exception. *)
Definition session (l : list action) : M num unit := forEach l perform.

(** The viewport the state holds, if it holds one. *)
Definition viewport_of (w : World num) : option (Viewport num) :=
  match state w !! "viewport" with
  | Some (VViewport v) => Some v
  | _ => None
  end.

(** The world coordinate shown at screen position [s]:
    [(s - offset) / scale]. *)
Definition to_world (v : Viewport num) (p : Point num) : Point num :=
  Point.mk ((Point.x p - Viewport.x v) / Viewport.scale v)
           ((Point.y p - Viewport.y v) / Viewport.scale v).

(** What [getViewportInfo] returns:
    [{ ...viewport, minScale, maxScale, canvasWidth, canvasHeight }].
    The spread contributes the properties the viewport entry has; an
    entry that is [undefined], [null] or a primitive contributes none,
    without an exception. *)
Record ViewportInfo : Type := {
  info_viewport : Viewport.patch num;
  minScale : num;
  maxScale : num;
  canvasWidth : num;
  canvasHeight : num
}.

Definition getViewportInfo : M num ViewportInfo :=
  v <- StateManager.get "viewport" ;;
  c <- gets (fun w => canvas (app w)) ;;
  ret {| info_viewport :=
           match v with
           | Some (VViewport vp) =>
               Viewport.mkpatch (Some (Viewport.x vp)) (Some (Viewport.y vp))
                                (Some (Viewport.scale vp))
           | Some (VPoint p) =>
               Viewport.mkpatch (Some (Point.x p)) (Some (Point.y p)) None
           | _ => Viewport.mkpatch None None None
           end;
         minScale := Config.MIN_SCALE;
         maxScale := Config.MAX_SCALE;
         canvasWidth := canvas_width c;
         canvasHeight := canvas_height c |}.

End ViewportController.
End ViewportController.

(* ================================================================== *)
(** * graphics/PBSRenderer.js, graphics/FactoryRenderer.js,
      graphics/PolygonRenderer.js *)
(* ================================================================== *)

Module PBSData.
(** [{ x, y, color, shape, size, points }] *)
Record t (num : Type) : Type := mk {
  x : num; y : num; color : num; shape : string; size : num;
  points : option (list (Point num))
}.
Arguments mk {num} x y color shape size points.
Arguments x {num} _.
Arguments y {num} _.
Arguments color {num} _.
Arguments shape {num} _.
Arguments size {num} _.
Arguments points {num} _.
End PBSData.
Abbreviation PBSData := PBSData.t.

(** [{ color, shape, size, points }], kept on each unit. *)
Record PBSMeta (num : Type) : Type := {
  meta_color : num; meta_shape : string; meta_size : num;
  meta_points : option (list (Point num))
}.
Arguments meta_color {num} _.
Arguments meta_shape {num} _.
Arguments meta_size {num} _.
Arguments meta_points {num} _.

Module Graphics.
(** The drawing instructions a [PIXI.Graphics] has received. *)
Inductive draw (num : Type) : Type :=
| MoveTo (x y : num)
| LineTo (x y : num)
| ClosePath
| Fill (color : num)
| Stroke (width color : num)
| Rect (x y w h : num)
| Circle (x y r : num)
| Poly (points : list (Point num)).
Arguments MoveTo {num} x y.
Arguments LineTo {num} x y.
Arguments ClosePath {num}.
Arguments Fill {num} color.
Arguments Stroke {num} width color.
Arguments Rect {num} x y w h.
Arguments Circle {num} x y r.
Arguments Poly {num} points.

(** A [PIXI.Graphics] object, with the properties the renderers set. *)
#[warnings="-register-all"]
Inductive t (num : Type) : Type := mk {
  path : list (draw num);
  pivot : Point num;
  x : num;
  y : num;
  scale : Point num;
  rotation : num;
  eventMode : string;
  cursor : string;
  isPBS : bool;
  pbsData : option (PBSMeta num);
  children : list (t num)
}.
Arguments mk {num} path pivot x y scale rotation eventMode cursor isPBS pbsData children.
Arguments path {num} _.
Arguments pivot {num} _.
Arguments x {num} _.
Arguments y {num} _.
Arguments scale {num} _.
Arguments rotation {num} _.
Arguments eventMode {num} _.
Arguments cursor {num} _.
Arguments isPBS {num} _.
Arguments pbsData {num} _.
Arguments children {num} _.

Section Graphics.
Context {num : Type} `{!JsNumber num}.

(** [new PIXI.Graphics()] *)
Definition new : t num :=
  mk [] (Point.mk (lit 0) (lit 0)) (lit 0) (lit 0)
     (Point.mk (lit 1) (lit 1)) (lit 0) "passive" "" false None [].

(** [g.moveTo(..)], [g.fill(..)], ...: one more instruction. *)
Definition emit (d : draw num) (g : t num) : t num :=
  mk (path g ++ [d]) (pivot g) (x g) (y g) (scale g) (rotation g)
     (eventMode g) (cursor g) (isPBS g) (pbsData g) (children g).

(** [g.clear()] *)
Definition clear (g : t num) : t num :=
  mk [] (pivot g) (x g) (y g) (scale g) (rotation g)
     (eventMode g) (cursor g) (isPBS g) (pbsData g) (children g).

(** [g.pivot.set(px, py)] *)
Definition set_pivot (px py : num) (g : t num) : t num :=
  mk (path g) (Point.mk px py) (x g) (y g) (scale g) (rotation g)
     (eventMode g) (cursor g) (isPBS g) (pbsData g) (children g).

(** [g.x = vx] and [g.y = vy] *)
Definition set_x (vx : num) (g : t num) : t num :=
  mk (path g) (pivot g) vx (y g) (scale g) (rotation g)
     (eventMode g) (cursor g) (isPBS g) (pbsData g) (children g).
Definition set_y (vy : num) (g : t num) : t num :=
  mk (path g) (pivot g) (x g) vy (scale g) (rotation g)
     (eventMode g) (cursor g) (isPBS g) (pbsData g) (children g).

(** [g.scale.set(s)]: both components *)
Definition set_scale (s : num) (g : t num) : t num :=
  mk (path g) (pivot g) (x g) (y g) (Point.mk s s) (rotation g)
     (eventMode g) (cursor g) (isPBS g) (pbsData g) (children g).

(** [g.rotation = r] *)
Definition set_rotation (r : num) (g : t num) : t num :=
  mk (path g) (pivot g) (x g) (y g) (scale g) r
     (eventMode g) (cursor g) (isPBS g) (pbsData g) (children g).

(** [g.eventMode = 'static'; g.cursor = c] *)
Definition set_interactive (c : string) (g : t num) : t num :=
  mk (path g) (pivot g) (x g) (y g) (scale g) (rotation g)
     "static" c (isPBS g) (pbsData g) (children g).

(** [g.isPBS = true; g.pbsData = d] *)
Definition mark_PBS (d : PBSMeta num) (g : t num) : t num :=
  mk (path g) (pivot g) (x g) (y g) (scale g) (rotation g)
     (eventMode g) (cursor g) true (Some d) (children g).

(** [g.addChild(c)] *)
Definition addChild (c : t num) (g : t num) : t num :=
  mk (path g) (pivot g) (x g) (y g) (scale g) (rotation g)
     (eventMode g) (cursor g) (isPBS g) (pbsData g) (children g ++ [c]).
End Graphics.
End Graphics.
Abbreviation Graphics := Graphics.t.

Module Renderers.

(** [{ scale, x, y }], what [scaleAndCenter] returns. *)
Record Placement (num : Type) : Type := {
  placed_scale : num; placed_x : num; placed_y : num
}.
Arguments placed_scale {num} _.
Arguments placed_x {num} _.
Arguments placed_y {num} _.

(** The options object of [FactoryRenderer.create]; an absent property
    takes its default. *)
Record FactoryOptions (num : Type) : Type := {
  fo_points : option (list (Point num));
  fo_color : option num;
  fo_strokeWidth : option num;
  fo_strokeColor : option num;
  fo_includePBS : option bool;
  fo_position : option (Point num)
}.
Arguments fo_points {num} _.
Arguments fo_color {num} _.
Arguments fo_strokeWidth {num} _.
Arguments fo_strokeColor {num} _.
Arguments fo_includePBS {num} _.
Arguments fo_position {num} _.

(** The options object of [PolygonRenderer.create]. *)
Record PolygonOptions (num : Type) : Type := {
  po_color : option num;
  po_strokeWidth : option num;
  po_strokeColor : option num;
  po_scale : option num;
  po_position : option (Point num)
}.
Arguments po_color {num} _.
Arguments po_strokeWidth {num} _.
Arguments po_strokeColor {num} _.
Arguments po_scale {num} _.
Arguments po_position {num} _.

Section Renderers.
Context {num : Type} `{!JsNumber num}.
Local Open Scope js_scope.
Local Open Scope monad_scope.

(** [graphic.getBounds()] belongs to the rendering library. *)
Variable getBounds : Graphics num -> Bounds num.

(** [GRAPHICS_CONFIG.PBS_DATA] *)
Definition PBS_DATA : list (PBSData num) :=
  [ PBSData.mk (lit 100) (lit 100) (lit 65280) "circle" (lit 5) None;
    PBSData.mk (lit 20) (lit 70) (lit 16776960) "rect" (lit 8) None;
    PBSData.mk (lit 120) (lit 130) (lit 65535) "circle" (lit 6) None;
    PBSData.mk (lit 175) (lit 60) (lit 16711935) "rect" (lit 7) None ].

(** ** PBSRenderer *)

Definition createUnit (pbsData : PBSData num) : Graphics num :=
  let size := PBSData.size pbsData in
  let pbsGraphic := Graphics.new in
  let pbsGraphic :=
    Graphics.mark_PBS
      {| meta_color := PBSData.color pbsData; meta_shape := PBSData.shape pbsData;
         meta_size := size; meta_points := PBSData.points pbsData |} pbsGraphic in
  let pbsGraphic :=
    if String.eqb (PBSData.shape pbsData) "circle" then
      Graphics.emit (Graphics.Circle (lit 0) (lit 0) size) pbsGraphic
    else if String.eqb (PBSData.shape pbsData) "rect" then
      Graphics.emit (Graphics.Rect (lit (-1) * size / lit 2) (lit (-1) * size / lit 2)
                                   size size) pbsGraphic
    else
      match String.eqb (PBSData.shape pbsData) "polygon", PBSData.points pbsData with
      | true, Some points => Graphics.emit (Graphics.Poly points) pbsGraphic
      | _, _ => Graphics.emit (Graphics.Circle (lit 0) (lit 0) size) pbsGraphic
      end in
  let pbsGraphic := Graphics.emit (Graphics.Fill (PBSData.color pbsData)) pbsGraphic in
  Graphics.set_y (PBSData.y pbsData) (Graphics.set_x (PBSData.x pbsData) pbsGraphic).

(** [createUnits(pbsDataArray = GRAPHICS_CONFIG.PBS_DATA)] *)
Definition createUnits (pbsDataArray : option (list (PBSData num)))
    : M num (list (Graphics num)) :=
  let pbsGraphics := map createUnit (default PBS_DATA pbsDataArray) in
  console_log_template [Text "创建了 "; Number (of_nat (length pbsGraphics));
                        Text " 个PBS单元"] ;;
  ret pbsGraphics.

Definition addToContainer (parentContainer : Graphics num)
    (pbsGraphics : list (Graphics num)) : Graphics num :=
  fold_left (fun parent pbsUnit => Graphics.addChild pbsUnit parent)
            pbsGraphics parentContainer.

(** ** The outline both renderers draw:
    [moveTo(points[0]); lineTo(points[i]) for i >= 1; closePath()] *)
Definition outline (points : list (Point num)) (g : Graphics num) : Graphics num :=
  let g := Graphics.emit
             (Graphics.MoveTo (Point.x (Geometry.at_index points 0))
                              (Point.y (Geometry.at_index points 0))) g in
  let g := fold_left
             (fun g i =>
                Graphics.emit
                  (Graphics.LineTo (Point.x (Geometry.at_index points i))
                                   (Point.y (Geometry.at_index points i))) g)
             (seq 1 (length points - 1)) g in
  Graphics.emit Graphics.ClosePath g.

(** ** FactoryRenderer *)

Definition drawFactoryDetails (graphics : Graphics num) : Graphics num :=
  let block (rx ry rw rh color : Q) (g : Graphics num) :=
    Graphics.emit (Graphics.Stroke (lit 1) (lit 0))
      (Graphics.emit (Graphics.Fill (lit color))
         (Graphics.emit (Graphics.Rect (lit rx) (lit ry) (lit rw) (lit rh)) g)) in
  block 170 20 10 50 6908265
    (block 80 120 50 25 10506797
       (block 15 60 30 30 13808780
          (block 70 60 60 30 6636321 graphics))).

Definition drawFactory (graphics : Graphics num) (points : list (Point num))
    (fillColor strokeWidth strokeColor : num) : M num (Graphics num) :=
  if (length points <? 3)%nat then
    console_error "厂区至少需要3个顶点" None ;;
    ret graphics
  else
    let graphics := Graphics.clear graphics in
    let graphics := outline points graphics in
    let graphics := Graphics.emit (Graphics.Fill fillColor) graphics in
    let graphics :=
      if strokeWidth >? lit 0
      then Graphics.emit (Graphics.Stroke strokeWidth strokeColor) graphics
      else graphics in
    ret (drawFactoryDetails graphics).

(** [scaleAndCenter(graphic, containerRatio = CONTAINER_SCALE_RATIO)],
    which the two renderers have with the same body but for the text
    [done] their log line starts with. The result is the graphic as the
    call leaves it, with the object the call returns; [None] when the
    call returns early. *)
Definition scaleAndCenter (done : string) (graphic : option (Graphics num))
    (containerRatio : option num)
    : M num (option (Graphics num * Placement num)) :=
  let containerRatio := default Config.CONTAINER_SCALE_RATIO containerRatio in
  match graphic with
  | None => ret None
  | Some graphic =>
      containerWidth <- gets (fun w => screen_width (app w)) ;;
      containerHeight <- gets (fun w => screen_height (app w)) ;;
      let bounds := getBounds graphic in
      let graphicWidth := Bounds.width bounds in
      let graphicHeight := Bounds.height bounds in
      let targetWidth := containerWidth * containerRatio in
      let targetHeight := containerHeight * containerRatio in
      let scaleX := targetWidth / graphicWidth in
      let scaleY := targetHeight / graphicHeight in
      let scale := Math_min scaleX scaleY in
      let graphic := Graphics.set_scale scale graphic in
      let graphic := Graphics.set_x (containerWidth / lit 2) graphic in
      let graphic := Graphics.set_y (containerHeight / lit 2) graphic in
      console_log_template
        [Text done; ToFixed scale 3; Text ", 位置=(";
         Number (Graphics.x graphic); Text ", "; Number (Graphics.y graphic);
         Text ")"] ;;
      ret (Some (graphic,
                 {| placed_scale := scale;
                    placed_x := Graphics.x graphic;
                    placed_y := Graphics.y graphic |}))
  end.

(** [FactoryRenderer.scaleAndCenter] *)
Definition factory_scaleAndCenter :=
  scaleAndCenter "厂区缩放和居中完成: 缩放比例=".

(** [PolygonRenderer.scaleAndCenter] *)
Definition polygon_scaleAndCenter :=
  scaleAndCenter "多边形缩放和居中完成: 缩放比例=".

(** [FactoryRenderer.create(options = {})] *)
Definition factory_create (options : FactoryOptions num) : M num (Graphics num) :=
  let points := default Config.FACTORY_POINTS (fo_points options) in
  let color := default (lit 9127187) (fo_color options) in
  let strokeWidth := default Config.STROKE_WIDTH (fo_strokeWidth options) in
  let strokeColor := default (lit 0) (fo_strokeColor options) in
  let includePBS := default true (fo_includePBS options) in
  let position := fo_position options in
  match Geometry.calculateGeometricCenter points with
  | Throw e => throw e
  | Return factoryCenter =>
      let factory := Graphics.new in
      factory <- drawFactory factory points color strokeWidth strokeColor ;;
      let factory :=
        Graphics.set_pivot (Point.x factoryCenter) (Point.y factoryCenter) factory in
      let factory := Graphics.set_interactive Config.CURSOR_POINTER factory in
      factory <- (if includePBS then
                    pbsUnits <- createUnits None ;;
                    ret (addToContainer factory pbsUnits)
                  else ret factory) ;;
      placed <- factory_scaleAndCenter (Some factory) None ;;
      let factory := match placed with Some (g, _) => g | None => factory end in
      let factory :=
        match position with
        | Some p => Graphics.set_y (Point.y p) (Graphics.set_x (Point.x p) factory)
        | None => factory
        end in
      console_log_template
        [Text "厂区创建完成，几何中心: ("; ToFixed (Point.x factoryCenter) 2;
         Text ", "; ToFixed (Point.y factoryCenter) 2; Text ")"] ;;
      ret factory
  end.

(** [FactoryRenderer.reset(factory)] *)
Definition factory_reset (factory : option (Graphics num))
    : M num (option (Graphics num)) :=
  match factory with
  | None => ret None
  | Some factory =>
      let factory := Graphics.set_rotation (lit 0) factory in
      placed <- factory_scaleAndCenter (Some factory) None ;;
      ret (Some (match placed with Some (g, _) => g | None => factory end))
  end.

(** ** PolygonRenderer *)

Definition drawPolygon (graphics : Graphics num) (points : list (Point num))
    (fillColor strokeWidth strokeColor : num) : M num (Graphics num) :=
  if (length points <? 3)%nat then
    console_error "多边形至少需要3个顶点" None ;;
    ret graphics
  else
    let graphics := Graphics.clear graphics in
    let graphics := outline points graphics in
    let graphics := Graphics.emit (Graphics.Fill fillColor) graphics in
    ret (if strokeWidth >? lit 0
         then Graphics.emit (Graphics.Stroke strokeWidth strokeColor) graphics
         else graphics).

(** [PolygonRenderer.create(points = DEFAULT_POLYGON_POINTS, options = {})] *)
Definition polygon_create (points : option (list (Point num)))
    (options : PolygonOptions num) : M num (Graphics num) :=
  let points := default Config.DEFAULT_POLYGON_POINTS points in
  let color := default (lit 16711680) (po_color options) in
  let strokeWidth := default Config.STROKE_WIDTH (po_strokeWidth options) in
  let strokeColor := default (lit 0) (po_strokeColor options) in
  let scale := default Config.SCALE_FACTOR (po_scale options) in
  let position := po_position options in
  match Geometry.calculatePolygonCenter points with
  | Throw e => throw e
  | Return center =>
      let graphics := Graphics.new in
      graphics <- drawPolygon graphics points color strokeWidth strokeColor ;;
      let graphics := Graphics.set_pivot (Point.x center) (Point.y center) graphics in
      screenWidth <- gets (fun w => screen_width (app w)) ;;
      screenHeight <- gets (fun w => screen_height (app w)) ;;
      let graphics :=
        match position with
        | Some p => Graphics.set_y (Point.y p) (Graphics.set_x (Point.x p) graphics)
        | None => Graphics.set_y (screenHeight / lit 2)
                    (Graphics.set_x (screenWidth / lit 2) graphics)
        end in
      let graphics := Graphics.set_scale scale graphics in
      ret (Graphics.set_interactive Config.CURSOR_POINTER graphics)
  end.

(** [FactoryRenderer.recreate(oldFactory, options = {})] *)
Definition factory_recreate (oldFactory : option (Graphics num))
    (options : FactoryOptions num) : M num (Graphics num) :=
  match oldFactory with
  | None => factory_create options
  | Some oldFactory =>
      let currentRotation := Graphics.rotation oldFactory in
      let currentX := Graphics.x oldFactory in
      let currentY := Graphics.y oldFactory in
      let currentScale := Point.x (Graphics.scale oldFactory) in
      newFactory <- factory_create options ;;
      let newFactory := Graphics.set_rotation currentRotation newFactory in
      let newFactory := Graphics.set_x currentX newFactory in
      let newFactory := Graphics.set_y currentY newFactory in
      ret (Graphics.set_scale currentScale newFactory)
  end.

(** [{ x, y, width, height, centerX, centerY }] *)
Record BoundsInfo : Type := {
  bi_x : num; bi_y : num; bi_width : num; bi_height : num;
  bi_centerX : num; bi_centerY : num
}.

(** [FactoryRenderer.getBounds(factory)] and
    [GraphicsFactory.getGraphicBounds(graphic)]; [None] is [null]. *)
Definition getGraphicBounds (graphic : option (Graphics num)) : option BoundsInfo :=
  match graphic with
  | None => None
  | Some graphic =>
      let bounds := getBounds graphic in
      Some {| bi_x := Bounds.x bounds; bi_y := Bounds.y bounds;
              bi_width := Bounds.width bounds; bi_height := Bounds.height bounds;
              bi_centerX := Bounds.x bounds + Bounds.width bounds / lit 2;
              bi_centerY := Bounds.y bounds + Bounds.height bounds / lit 2 |}
  end.

(** [PolygonRenderer.updateColor(graphics, points, color,
    strokeWidth = STROKE_WIDTH, strokeColor = 0x000000)]; [points] may
    be missing, which [drawPolygon] reports like too few vertices. *)
Definition polygon_updateColor (graphics : Graphics num)
    (points : option (list (Point num))) (color : num)
    (strokeWidth strokeColor : option num) : M num (Graphics num) :=
  drawPolygon graphics (default [] points) color
              (default Config.STROKE_WIDTH strokeWidth)
              (default (lit 0) strokeColor).

(** [PolygonRenderer.reset(graphic, points, color = 0xff0000)] *)
Definition polygon_reset (graphic : option (Graphics num))
    (points : option (list (Point num))) (color : option num)
    : M num (option (Graphics num)) :=
  let color := default (lit 16711680) color in
  match graphic with
  | None => ret None
  | Some graphic =>
      let graphic := Graphics.set_rotation (lit 0) graphic in
      screenWidth <- gets (fun w => screen_width (app w)) ;;
      let graphic := Graphics.set_x (screenWidth / lit 2) graphic in
      screenHeight <- gets (fun w => screen_height (app w)) ;;
      let graphic := Graphics.set_y (screenHeight / lit 2) graphic in
      let graphic := Graphics.set_scale Config.SCALE_FACTOR graphic in
      graphic <- polygon_updateColor graphic points color None None ;;
      ret (Some graphic)
  end.

(** [PBSRenderer.updateColor(pbsUnit, color, originalData)]; the
    result is the unit as the call leaves it. *)
Definition pbs_updateColor (pbsUnit : option (Graphics num)) (color : num)
    (originalData : option (PBSMeta num)) : option (Graphics num) :=
  match pbsUnit, originalData with
  | Some pbsUnit, Some originalData =>
      let shape := meta_shape originalData in
      let size := meta_size originalData in
      let pbsUnit := Graphics.clear pbsUnit in
      let pbsUnit :=
        if String.eqb shape "circle" then
          Graphics.emit (Graphics.Circle (lit 0) (lit 0) size) pbsUnit
        else if String.eqb shape "rect" then
          Graphics.emit (Graphics.Rect (lit (-1) * size / lit 2) (lit (-1) * size / lit 2)
                                       size size) pbsUnit
        else
          Graphics.emit (Graphics.Circle (lit 0) (lit 0) size) pbsUnit in
      Some (Graphics.emit (Graphics.Fill color) pbsUnit)
  | _, _ => pbsUnit
  end.

(** [PBSRenderer.createPBSConfig(x, y, color, shape = 'circle',
    size = 5, points = null)] *)
Definition createPBSConfig (x y color : num) (shape : option string)
    (size : option num) (points : option (list (Point num))) : PBSData num :=
  PBSData.mk x y color (default "circle" shape) (default (lit 5) size) points.

End Renderers.
End Renderers.

(* ================================================================== *)
(** * graphics/GraphicsFactory.js *)
(* ================================================================== *)

Module Sprite.
(** A [PIXI.Sprite] with the properties the code sets. Its texture is
    generated by the rendering library from a drawing; it is kept as
    that drawing. *)
Record t (num : Type) : Type := mk {
  texture : list (Graphics.draw num);
  anchor : Point num;
  x : num;
  y : num;
  rotation : num
}.
Arguments mk {num} texture anchor x y rotation.
Arguments texture {num} _.
Arguments anchor {num} _.
Arguments x {num} _.
Arguments y {num} _.
Arguments rotation {num} _.
End Sprite.
Abbreviation Sprite := Sprite.t.

Module GraphicsFactory.

(** The options object of [createCenterDot]. *)
Record CenterDotOptions (num : Type) : Type := {
  cd_radius : option num;
  cd_fillColor : option num;
  cd_strokeWidth : option num;
  cd_strokeColor : option num
}.
Arguments cd_radius {num} _.
Arguments cd_fillColor {num} _.
Arguments cd_strokeWidth {num} _.
Arguments cd_strokeColor {num} _.

Section GraphicsFactory.
Context {num : Type} `{!JsNumber num}.
Local Open Scope js_scope.

(** [GRAPHICS_CONFIG.CENTER_DOT_RADIUS] *)
Definition CENTER_DOT_RADIUS : num := lit 8.

(** [createCenterDot(points, centerType = 'mass', options = {})];
    the result is [{ centerDot, center }]. *)
Definition createCenterDot (points : list (Point num)) (centerType : option string)
    (options : CenterDotOptions num) : completion (Sprite num * Point num) :=
  let centerType := default "mass" centerType in
  let radius := default CENTER_DOT_RADIUS (cd_radius options) in
  let fillColor := default (lit 16777215) (cd_fillColor options) in
  let strokeWidth := default Config.STROKE_WIDTH (cd_strokeWidth options) in
  let strokeColor := default (lit 0) (cd_strokeColor options) in
  match (if String.eqb centerType "geometric"
         then Geometry.calculateGeometricCenter points
         else Geometry.calculatePolygonCenter points) with
  | Throw e => Throw e
  | Return center =>
      let graphics := Graphics.new in
      let graphics := Graphics.emit (Graphics.Circle (lit 0) (lit 0) radius) graphics in
      let graphics := Graphics.emit (Graphics.Fill fillColor) graphics in
      let graphics :=
        if strokeWidth >? lit 0
        then Graphics.emit (Graphics.Stroke strokeWidth strokeColor) graphics
        else graphics in
      let texture := Graphics.path graphics in
      let centerDot := Sprite.mk texture (Point.mk (lit 0) (lit 0))
                                 (lit 0) (lit 0) (lit 0) in
      let centerDot :=
        Sprite.mk (Sprite.texture centerDot)
                  (Point.mk (lit (5 # 10)) (lit (5 # 10)))
                  (Sprite.x centerDot) (Sprite.y centerDot)
                  (Sprite.rotation centerDot) in
      Return (centerDot, center)
  end.

End GraphicsFactory.
End GraphicsFactory.

(* ================================================================== *)
(** * controls/AnimationController.js *)
(* ================================================================== *)

Module AnimationController.
Section AnimationController.
Context {num : Type} `{!JsNumber num}.
Local Open Scope js_scope.

(** [ANIMATION_CONFIG.DEFAULT_ROTATION_SPEED] *)
Definition DEFAULT_ROTATION_SPEED : num := lit (5 # 100).

(** [sprite.rotation = r] *)
Definition set_sprite_rotation (r : num) (s : Sprite num) : Sprite num :=
  Sprite.mk (Sprite.texture s) (Sprite.anchor s) (Sprite.x s) (Sprite.y s) r.

(** [updateRotation(graphic, centerDot = null, geometricCenterDot = null)];
    the result is the three objects as the call leaves them. *)
Definition updateRotation (graphic : option (Graphics num))
    (centerDot geometricCenterDot : option (Sprite num))
    : option (Graphics num) * option (Sprite num) * option (Sprite num) :=
  match graphic with
  | None => (graphic, centerDot, geometricCenterDot)
  | Some graphic =>
      let graphic :=
        Graphics.set_rotation (Graphics.rotation graphic + DEFAULT_ROTATION_SPEED)
                              graphic in
      let centerDot :=
        match centerDot with
        | Some dot => Some (set_sprite_rotation (Graphics.rotation graphic) dot)
        | None => None
        end in
      let geometricCenterDot :=
        match geometricCenterDot with
        | Some dot => Some (set_sprite_rotation (Graphics.rotation graphic) dot)
        | None => None
        end in
      (Some graphic, centerDot, geometricCenterDot)
  end.

(** The frames of a rotation: [updateRotation] once per tick. *)
Fixpoint frames (n : nat) (graphic : option (Graphics num))
    (centerDot geometricCenterDot : option (Sprite num))
    : option (Graphics num) * option (Sprite num) * option (Sprite num) :=
  match n with
  | O => (graphic, centerDot, geometricCenterDot)
  | S n =>
      let '(graphic, centerDot, geometricCenterDot) :=
        updateRotation graphic centerDot geometricCenterDot in
      frames n graphic centerDot geometricCenterDot
  end.

End AnimationController.
End AnimationController.

(* ================================================================== *)
(** * events/KeyboardHandler.js *)
(* ================================================================== *)

Module KeyboardEvent.
Record t : Type := mk {
  key : string;
  ctrlKey : bool;
  metaKey : bool;
  shiftKey : bool;
  altKey : bool
}.
End KeyboardEvent.
Abbreviation KeyboardEvent := KeyboardEvent.t.

Module KeyboardHandler.

(** [document.activeElement], as [isInputFocused] reads it. *)
Record ActiveElement : Type := {
  tagName : string;
  contentEditable : string
}.

(** The [modifiers] object of [addShortcut]; an absent property is
    falsy. *)
Record Modifiers : Type := {
  ctrl : bool;
  shift : bool;
  alt : bool
}.

(** [String.prototype.toLowerCase] on strings of ASCII characters:
    the letters A to Z are lowered and the other characters kept.
    Characters outside ASCII, which JavaScript lowers by the Unicode
    tables, are kept as they are here; no key the handler has a case
    for contains one, and a statement about a key the caller chooses
    asks for [is_ascii]. *)
Definition lower (c : Ascii.ascii) : Ascii.ascii :=
  let n := Ascii.nat_of_ascii c in
  if (65 <=? n)%nat && (n <=? 90)%nat then Ascii.ascii_of_nat (n + 32) else c.

Fixpoint toLowerCase (s : string) : string :=
  match s with
  | EmptyString => EmptyString
  | String c s' => String (lower c) (toLowerCase s')
  end.

(** Every character of the string is an ASCII character. *)
Fixpoint is_ascii (s : string) : bool :=
  match s with
  | EmptyString => true
  | String c s' => (Ascii.nat_of_ascii c <? 128)%nat && is_ascii s'
  end.

Definition isInputFocused (activeElement : ActiveElement) : bool :=
  let inputTags := ["INPUT"; "TEXTAREA"; "SELECT"] in
  let isContentEditable := String.eqb (contentEditable activeElement) "true" in
  existsb (String.eqb (tagName activeElement)) inputTags || isContentEditable.

Section KeyboardHandler.
Context {num : Type} `{!JsNumber num}.
Local Open Scope monad_scope.

(** The methods of the UI controller the handler calls. *)
Record UI : Type := {
  ui_toggleCenter : M num unit;
  ui_toggleFactory : M num unit;
  ui_reset : M num unit
}.

(** The [controllers] object given to [setup]: whether it names a
    viewport controller, the [toggleRotation] of its animation
    controller and its UI controller, each if it names one. *)
Record Controllers : Type := {
  viewport : bool;
  animation : option (M num unit);
  ui : option UI
}.

(** [this.controllers.<name>]; before [setup] ([undefined]) and after
    [destroy] ([null]) there is no controllers object to read from, and
    the read throws a [TypeError], whose message is the engine's. *)
Definition the_controllers (controllers : option Controllers) : M num Controllers :=
  match controllers with
  | Some c => ret c
  | None => throw (TypeError "Cannot read properties of undefined")
  end.

Definition handleResetViewport (controllers : option Controllers) : M num unit :=
  c <- the_controllers controllers ;;
  if viewport c then ViewportController.reset else ret tt.

Definition handleZoomIn (controllers : option Controllers) : M num unit :=
  c <- the_controllers controllers ;;
  if viewport c then ViewportController.zoomIn else ret tt.

Definition handleZoomOut (controllers : option Controllers) : M num unit :=
  c <- the_controllers controllers ;;
  if viewport c then ViewportController.zoomOut else ret tt.

Definition handleToggleRotation (controllers : option Controllers) : M num unit :=
  c <- the_controllers controllers ;;
  match animation c with
  | Some toggleRotation => toggleRotation
  | None => ret tt
  end.

Definition handleToggleCenter (controllers : option Controllers) : M num unit :=
  c <- the_controllers controllers ;;
  match ui c with
  | Some u => ui_toggleCenter u
  | None => ret tt
  end.

Definition handleToggleFactory (controllers : option Controllers) : M num unit :=
  c <- the_controllers controllers ;;
  match ui c with
  | Some u => ui_toggleFactory u
  | None => ret tt
  end.

Definition handleReset (controllers : option Controllers) : M num unit :=
  c <- the_controllers controllers ;;
  match ui c with
  | Some u => ui_reset u
  | None => ret tt
  end.

Definition handlePan (controllers : option Controllers) (deltaX deltaY : num)
    : M num unit :=
  c <- the_controllers controllers ;;
  if viewport c then ViewportController.pan deltaX deltaY else ret tt.

(** [handleKeyDown(event)], with the controllers object and the
    focused element at the time of the call.
    [event.preventDefault()] touches nothing that is modelled. *)
Definition handleKeyDown (controllers : option Controllers)
    (activeElement : ActiveElement) (event : KeyboardEvent) : M num unit :=
  if isInputFocused activeElement then ret tt
  else
    let key := toLowerCase (KeyboardEvent.key event) in
    let ctrlKey := KeyboardEvent.ctrlKey event in
    let metaKey := KeyboardEvent.metaKey event in
    let shiftKey := KeyboardEvent.shiftKey event in
    if String.eqb key "r" then
      if ctrlKey || metaKey then handleResetViewport controllers else ret tt
    else if String.eqb key "0" then handleResetViewport controllers
    else if String.eqb key "=" || String.eqb key "+" then handleZoomIn controllers
    else if String.eqb key "-" then handleZoomOut controllers
    else if String.eqb key " " then handleToggleRotation controllers
    else if String.eqb key "c" then
      if negb ctrlKey && negb metaKey then handleToggleCenter controllers else ret tt
    else if String.eqb key "f" then
      if negb ctrlKey && negb metaKey then handleToggleFactory controllers else ret tt
    else if String.eqb key "escape" then handleReset controllers
    else if String.eqb key "arrowup" then
      handlePan controllers (lit 0) (if shiftKey then lit (-50) else lit (-10))
    else if String.eqb key "arrowdown" then
      handlePan controllers (lit 0) (if shiftKey then lit 50 else lit 10)
    else if String.eqb key "arrowleft" then
      handlePan controllers (if shiftKey then lit (-50) else lit (-10)) (lit 0)
    else if String.eqb key "arrowright" then
      handlePan controllers (if shiftKey then lit 50 else lit 10) (lit 0)
    else ret tt.

(** A [keydown] listener: a closure over the handler object, which
    reads the controllers object when it is called. *)
Definition Listener : Type :=
  option Controllers -> ActiveElement -> KeyboardEvent -> M num unit.

(** The handler object: [this.controllers] and [this.eventListeners],
    which are the listeners it has on [document]. *)
Record t : Type := {
  controllers : option Controllers;
  eventListeners : list Listener
}.

(** [new KeyboardHandler()] *)
Definition constructor : t :=
  {| controllers := None; eventListeners := [] |}.

(** [setup(controllers)] *)
Definition setup (c : Controllers) (this : t) : t :=
  let keydownHandler : Listener := handleKeyDown in
  {| controllers := Some c;
     eventListeners := eventListeners this ++ [keydownHandler] |}.

(** [removeEventListeners()] *)
Definition removeEventListeners (this : t) : t :=
  {| controllers := controllers this; eventListeners := [] |}.

(** [addShortcut(key, handler, modifiers = {})] *)
Definition addShortcut (key : string) (handler : KeyboardEvent -> M num unit)
    (modifiers : Modifiers) (this : t) : t :=
  let originalHandler : Listener := handleKeyDown in
  let customHandler : Listener := fun controllers activeElement event =>
    if isInputFocused activeElement then ret tt
    else
      let eventKey := toLowerCase (KeyboardEvent.key event) in
      let ctrlKey := KeyboardEvent.ctrlKey event in
      let shiftKey := KeyboardEvent.shiftKey event in
      let altKey := KeyboardEvent.altKey event in
      let ctrlMatch := if ctrl modifiers then ctrlKey else negb ctrlKey in
      let shiftMatch := if shift modifiers then shiftKey else negb shiftKey in
      let altMatch := if alt modifiers then altKey else negb altKey in
      if String.eqb eventKey (toLowerCase key) && (ctrlMatch && shiftMatch && altMatch)
      then handler event
      else originalHandler controllers activeElement event in
  let this := removeEventListeners this in
  {| controllers := controllers this;
     eventListeners := eventListeners this ++ [customHandler] |}.

(** [destroy()] *)
Definition destroy (this : t) : t :=
  let this := removeEventListeners this in
  {| controllers := None; eventListeners := eventListeners this |}.

(** A [keydown] event on [document]: the listeners the handler has
    there are called in the order they were added; an exception in one
    is reported and does not keep the next from being called. *)
Definition keydown (this : t) (activeElement : ActiveElement)
    (event : KeyboardEvent) : M num unit :=
  forEach (eventListeners this) (fun listener =>
    try_catch (listener (controllers this) activeElement event)
              (fun error => console_error "Uncaught" (Some error))).

End KeyboardHandler.
End KeyboardHandler.

(* ================================================================== *)
(** * The vocabulary of the statements *)
(* ================================================================== *)

Section Vocabulary.
Context {num : Type} `{!JsNumber num}.

(** ** What a notification round leaves behind *)

Definition notified (subs : list (Subscriber num)) (newState oldState : State num)
    : list (nat * State num * State num) :=
  map (fun cb => (sub_id cb, newState, oldState)) subs.

Definition error_log (cb : Subscriber num) (newState oldState : State num)
    : list (log_entry num) :=
  match sub_call cb newState oldState with
  | Return _ => []
  | Throw e => [ConsoleError "状态订阅者回调错误:" (Some e)]
  end.

Definition logged (subs : list (Subscriber num)) (newState oldState : State num)
    : list (log_entry num) :=
  flat_map (fun cb => error_log cb newState oldState) subs.

Definition after_notify (subs : list (Subscriber num))
    (newState oldState : State num) (w : World num) : World num :=
  {| state := state w; subscribers := subscribers w;
     calls := calls w ++ notified subs newState oldState;
     console := console w ++ logged subs newState oldState;
     app := app w |}.

(** ** Runs of methods *)

(** A method ran to completion from [w] and left [w']. *)
Definition runs_to (m : M num unit) (w w' : World num) : Prop :=
  m w = (Return tt, w').

(** What no controller method changes: the canvas geometry, the
    [autoStart] flag and the subscriber list. *)
Definition same_page (w w' : World num) : Prop :=
  canvas_width (canvas (app w')) = canvas_width (canvas (app w))
  /\ canvas_height (canvas (app w')) = canvas_height (canvas (app w))
  /\ rect_left (canvas (app w')) = rect_left (canvas (app w))
  /\ rect_top (canvas (app w')) = rect_top (canvas (app w))
  /\ rect_right (canvas (app w')) = rect_right (canvas (app w))
  /\ rect_bottom (canvas (app w')) = rect_bottom (canvas (app w))
  /\ rect_width (canvas (app w')) = rect_width (canvas (app w))
  /\ rect_height (canvas (app w')) = rect_height (canvas (app w))
  /\ autoStart (app w') = autoStart (app w)
  /\ subscribers w' = subscribers w.

(** The tail shared by every method that moves the viewport: store
    the patch, sync the stage, render. *)
Definition commit (p : Viewport.patch num) : M num unit :=
  (StateManager.updateViewport p ;;
  ViewportController.updateViewport ;;
  ViewportController.render_unless_autoStart)%M.

(** The patch that moves the offset so that the world point under
    [(cx, cy)] stays there when the scale becomes [ns]. *)
Definition about (v : Viewport num) (cx cy ns : num) : Viewport.patch num :=
  Viewport.mkpatch
    (Some (cx - (cx - Viewport.x v) / Viewport.scale v * ns)%js)
    (Some (cy - (cy - Viewport.y v) / Viewport.scale v * ns)%js)
    (Some ns).

(** The error both functions raise on too few vertices. *)
Definition degenerate_input {A} (c : completion A) : Prop :=
  exists msg, c = Throw (Error msg).

End Vocabulary.

(** A zoom toward [p] by [factor] as a client of the controller writes
    it: read the current scale and call [zoomTo(scale * factor, p)]. *)
Definition zoom_by {num : Type} `{!JsNumber num} (factor : num) (p : Point num)
    : M num unit :=
  (v <- StateManager.get "viewport" ;;
   viewport <- ViewportController.the_viewport v ;;
   ViewportController.zoomTo (Viewport.scale viewport * factor)%js (Some p))%M.

(** ** A page to run examples on *)

(** An 800 x 600 canvas shown at its natural size, nothing subscribed. *)
Definition canvas0 {num : Type} `{!JsNumber num} : Canvas num :=
  {| canvas_width := lit 800; canvas_height := lit 600;
     rect_left := lit 0; rect_top := lit 0;
     rect_right := lit 800; rect_bottom := lit 600;
     rect_width := lit 800; rect_height := lit 600;
     cursor := "grab" |}.

Definition app0 {num : Type} `{!JsNumber num} : App num :=
  {| canvas := canvas0;
     screen_width := lit 800; screen_height := lit 600;
     stage_position := Point.mk (lit 0) (lit 0);
     stage_scale := Point.mk (lit 1) (lit 1);
     autoStart := false; ticking := false; renders := 0 |}.

(** The world after [new StateManager()] and [new ViewportController(...)]. *)
Definition world0 {num : Type} `{!JsNumber num} : World num :=
  snd (ViewportController.initViewport (StateManager.constructor app0)).

(** ** Numbers as rationals *)

Section VocabularyQ.
Local Open Scope Q_scope.
Import ViewportController.

(** [MIN_SCALE <= scale <= MAX_SCALE] *)
Definition in_range (s : Q) : Prop :=
  Config.MIN_SCALE <= s /\ s <= Config.MAX_SCALE.

(** Equality of points and viewports as numbers (a rational has many
    representations). *)
Definition Peq (p q : Point Q) : Prop :=
  Point.x p == Point.x q /\ Point.y p == Point.y q.

Definition Veq (v v' : Viewport Q) : Prop :=
  Viewport.x v == Viewport.x v'
  /\ Viewport.y v == Viewport.y v'
  /\ Viewport.scale v == Viewport.scale v'.

(** [Math.max(MIN_SCALE, Math.min(MAX_SCALE, t))] *)
Definition clamp (t : Q) : Q :=
  Math_max Config.MIN_SCALE (Math_min Config.MAX_SCALE t).

(** The pivot [zoomTo] uses: the given centre, or the canvas centre. *)
Definition zoomTo_pivot (c : Canvas Q) (center : option (Point Q)) : Point Q :=
  match center with
  | Some p => p
  | None => Point.mk (canvas_width c / 2) (canvas_height c / 2)
  end.

(** A method ran to completion and left viewport [v']; the other
    state entries and the page are as before. *)
Definition lands (m : M Q unit) (w : World Q) (v' : Viewport Q) (w' : World Q)
    : Prop :=
  runs_to m w w'
  /\ viewport_of w' = Some v'
  /\ (forall k, k <> "viewport" -> state w' !! k = state w !! k)
  /\ same_page w w'.

(** The state holds a viewport whose scale is within
    [MIN_SCALE, MAX_SCALE]. *)
Definition scale_ok (w : World Q) : Prop :=
  exists v, viewport_of w = Some v /\ in_range (Viewport.scale v).

(** What the pointer handlers need besides: a last pointer position. *)
Definition ready (w : World Q) : Prop :=
  scale_ok w
  /\ (exists p, state w !! "lastPointerPosition" = Some (VPoint p)).

(** The operations on the viewport proper: every action but the three
    pointer events. *)
Definition viewport_operation (a : action (num := Q)) : Prop :=
  match a with
  | PointerDown _ | PointerMove _ | PointerUp => False
  | _ => True
  end.

(** The divisions of [fitToContent] are by non-zero numbers. *)
Definition defined (a : action (num := Q)) : Prop :=
  match a with
  | FitToContent (Some b) _ => ~ Bounds.width b == 0 /\ ~ Bounds.height b == 0
  | _ => True
  end.

(** The canvas has a client rectangle of non-zero size, so that the
    pointer position [handleWheel] computes is defined. *)
Definition measurable (c : Canvas Q) : Prop :=
  ~ rect_width c == 0 /\ ~ rect_height c == 0.

(** Closeness of a point to given coordinates, coordinate by coordinate. *)
Definition within (tolerance : Q) (p : Point Q) (x y : Q) : Prop :=
  Qabs (Point.x p - x) <= tolerance /\ Qabs (Point.y p - y) <= tolerance.

(** What [scaleAndCenter] leaves, for a measured box of positive width
    and height [bw], [bh] in a container [cw] x [ch] at fill ratio [r]:
    the factor [s] is applied to both axes, the scaled box fits within
    [r] of the container in both directions (so its larger side fits),
    one direction is filled exactly, and the origin is at the centre of
    the container. *)
Definition scaled_and_centered (cw ch r bw bh : Q) (g' : Graphics Q)
    (placed : Renderers.Placement Q) : Prop :=
  let s := Renderers.placed_scale placed in
  Graphics.scale g' = Point.mk s s
  /\ s == Qmin (cw * r / bw) (ch * r / bh)
  /\ s * bw <= cw * r
  /\ s * bh <= ch * r
  /\ (s * bw == cw * r \/ s * bh == ch * r)
  /\ Graphics.x g' = cw / 2
  /\ Graphics.y g' = ch / 2
  /\ Renderers.placed_x placed = cw / 2
  /\ Renderers.placed_y placed = ch / 2.

End VocabularyQ.

(** Expose the rational operations behind the [JsNumber] interface. *)
Ltac in_Q :=
  unfold Config.MIN_SCALE, Config.MAX_SCALE, Config.DEFAULT_SCALE,
    Config.ZOOM_IN_FACTOR, Config.ZOOM_OUT_FACTOR,
    Config.WHEEL_ZOOM_IN_FACTOR, Config.WHEEL_ZOOM_OUT_FACTOR in *;
  cbn [lit add sub mul div Math_abs Math_min Math_max lt strict_eq
       Q_JsNumber] in *.

(** ** What a viewport operation leaves behind *)

Section VocabularyCommit.
Context {num : Type} `{!JsNumber num}.

(** The application after [updateViewport()] has copied [v] onto the
    stage and [render()] was called unless [autoStart] is set. *)
Definition shown (v : Viewport num) (a : App num) : App num :=
  {| canvas := canvas a;
     screen_width := screen_width a;
     screen_height := screen_height a;
     stage_position := Point.mk (Viewport.x v) (Viewport.y v);
     stage_scale := Point.mk (Viewport.scale v) (Viewport.scale v);
     autoStart := autoStart a;
     ticking := ticking a;
     renders := if autoStart a then renders a else S (renders a) |}.

(** The world after a method has stored the viewport [v] and shown it:
    the entry is replaced, the subscribers were notified of it, the
    stage carries it. *)
Definition committed (v : Viewport num) (w : World num) : World num :=
  let s := {[ "viewport" := VViewport v ]} ∪ state w in
  {| state := s;
     subscribers := subscribers w;
     calls := calls w ++ notified (subscribers w) s (state w);
     console := console w ++ logged (subscribers w) s (state w);
     app := shown v (app w) |}.

(** The stage shows the viewport the state holds. *)
Definition in_sync (w : World num) : Prop :=
  exists v,
    ViewportController.viewport_of w = Some v
    /\ stage_position (app w) = Point.mk (Viewport.x v) (Viewport.y v)
    /\ stage_scale (app w) = Point.mk (Viewport.scale v) (Viewport.scale v).

(** The state the controller works on: a viewport that the stage
    shows, and a last pointer position. *)
Definition well_formed (w : World num) : Prop :=
  in_sync w /\ exists p, state w !! "lastPointerPosition" = Some (VPoint p).

(** A drag gesture: the pointer goes down at [start], moves through
    [moves] and is released. *)
Definition drag (start : PointerEvent num) (moves : list (PointerEvent num))
    : list (ViewportController.action (num := num)) :=
  ViewportController.PointerDown start
  :: map ViewportController.PointerMove moves
  ++ [ViewportController.PointerUp].

End VocabularyCommit.

Section VocabularyPointer.
Context {num : Type} `{!JsNumber num}.

(** [isOnCanvas] of [handlePointerDown]: the pointer is within the
    client rectangle of the canvas, borders included. *)
Definition on_canvas (c : Canvas num) (event : PointerEvent num) : bool :=
  ViewportController.ge (PointerEvent.clientX event) (rect_left c)
  && ViewportController.le (PointerEvent.clientX event) (rect_right c)
  && ViewportController.ge (PointerEvent.clientY event) (rect_top c)
  && ViewportController.le (PointerEvent.clientY event) (rect_bottom c).

(** Where the pointer of an event is. *)
Definition pointer (event : PointerEvent num) : Point num :=
  Point.mk (PointerEvent.clientX event) (PointerEvent.clientY event).

End VocabularyPointer.

Section VocabularySession.
Context {num : Type} `{!JsNumber num}.

(** The three pointer events, as opposed to the operations on the
    viewport proper. *)
Definition pointer_event (a : ViewportController.action (num := num)) : bool :=
  match a with
  | ViewportController.PointerDown _
  | ViewportController.PointerMove _
  | ViewportController.PointerUp => true
  | _ => false
  end.

(** How many actions of a session are operations on the viewport
    proper. *)
Definition operations (l : list (ViewportController.action (num := num))) : nat :=
  length (List.filter (fun a => negb (pointer_event a)) l).

End VocabularySession.

Section VocabularyFit.
Local Open Scope Q_scope.

(** The scale [fitToContent] computes before clamping, for content
    [bw] x [bh] on a canvas [cw] x [ch] with padding ratio [pd]. *)
Definition fit_scale (cw ch pd bw bh : Q) : Q :=
  Qmin (cw * (1 - pd * 2) / bw) (ch * (1 - pd * 2) / bh).

(** Where the viewport [v] shows the world point [p] on the screen:
    [p * scale + offset]. *)
Definition to_screen (v : Viewport Q) (p : Point Q) : Point Q :=
  Point.mk (Point.x p * Viewport.scale v + Viewport.x v)
           (Point.y p * Viewport.scale v + Viewport.y v).

End VocabularyFit.

(** ** Polygons *)

Section VocabularyPolygon.
Context {num : Type} `{!JsNumber num}.

(** The list with its first element moved to the end. *)
Definition rotate1 {A} (l : list A) : list A :=
  match l with
  | [] => []
  | a :: l' => l' ++ [a]
  end.

(** The edges of a polygon: each vertex with the next one, the last
    with the first. *)
Definition edges (points : list (Point num)) : list (Point num * Point num) :=
  combine points (rotate1 points).

(** What one iteration of the shoelace loop adds for the edge from
    [p] to [q]. *)
Definition edge_step (acc : num * num * num) (e : Point num * Point num)
    : num * num * num :=
  let '(area, centerX, centerY) := acc in
  let '(p, q) := e in
  let cross := (Point.x p * Point.y q - Point.x q * Point.y p)%js in
  ((area + cross)%js,
   (centerX + (Point.x p + Point.x q) * cross)%js,
   (centerY + (Point.y p + Point.y q) * cross)%js).

End VocabularyPolygon.

Section VocabularyPolygonQ.
Local Open Scope Q_scope.

Definition Qsum (l : list Q) : Q := fold_right Qplus 0 l.

(** [x_p * y_q - x_q * y_p] *)
Definition cross (e : Point Q * Point Q) : Q :=
  Point.x (fst e) * Point.y (snd e) - Point.x (snd e) * Point.y (fst e).

(** The three sums the shoelace loop accumulates: twice the signed
    area and the two moments. *)
Definition area2 (points : list (Point Q)) : Q :=
  Qsum (map cross (edges points)).
Definition moment_x (points : list (Point Q)) : Q :=
  Qsum (map (fun e => (Point.x (fst e) + Point.x (snd e)) * cross e) (edges points)).
Definition moment_y (points : list (Point Q)) : Q :=
  Qsum (map (fun e => (Point.y (fst e) + Point.y (snd e)) * cross e) (edges points)).

(** The vertex average. *)
Definition average (points : list (Point Q)) : Point Q :=
  Point.mk (Qsum (map Point.x points) / inject_Z (Z.of_nat (length points)))
           (Qsum (map Point.y points) / inject_Z (Z.of_nat (length points))).

(** The point [p] moved by [(a, b)]. *)
Definition translate (a b : Q) (p : Point Q) : Point Q :=
  Point.mk (Point.x p + a) (Point.y p + b).

(** A result with the point it returns, if it returns one, mapped. *)
Definition on_center (f : Point Q -> Point Q) (c : completion (Point Q))
    : completion (Point Q) :=
  match c with
  | Return p => Return (f p)
  | Throw e => Throw e
  end.

(** Two results are the same point as numbers, or the same exception. *)
Definition same_center (c c' : completion (Point Q)) : Prop :=
  match c, c' with
  | Return p, Return p' => Peq p p'
  | Throw e, Throw e' => e = e'
  | _, _ => False
  end.

End VocabularyPolygonQ.

(** ** Drawings *)

Section VocabularyDrawing.
Context {num : Type} `{!JsNumber num}.
Local Open Scope js_scope.

(** The closed path through the vertices, in order. *)
Definition closed_path (points : list (Point num)) : list (Graphics.draw num) :=
  match points with
  | [] => []
  | p :: rest =>
      Graphics.MoveTo (Point.x p) (Point.y p)
      :: map (fun q => Graphics.LineTo (Point.x q) (Point.y q)) rest
      ++ [Graphics.ClosePath]
  end.

(** The fill and, for a positive stroke width, the stroke. *)
Definition painted (fillColor strokeWidth strokeColor : num) : list (Graphics.draw num) :=
  Graphics.Fill fillColor
  :: (if strokeWidth >? lit 0 then [Graphics.Stroke strokeWidth strokeColor] else []).

(** Two graphics differ at most in what is drawn in them. *)
Definition same_but_path (g g' : Graphics num) : Prop :=
  Graphics.pivot g' = Graphics.pivot g
  /\ Graphics.x g' = Graphics.x g
  /\ Graphics.y g' = Graphics.y g
  /\ Graphics.scale g' = Graphics.scale g
  /\ Graphics.rotation g' = Graphics.rotation g
  /\ Graphics.eventMode g' = Graphics.eventMode g
  /\ Graphics.cursor g' = Graphics.cursor g
  /\ Graphics.isPBS g' = Graphics.isPBS g
  /\ Graphics.pbsData g' = Graphics.pbsData g
  /\ Graphics.children g' = Graphics.children g.

End VocabularyDrawing.

Section VocabularyCreate.
Context {num : Type} `{!JsNumber num}.
Variable getBounds : Graphics num -> Bounds num.
Import Renderers.
Local Open Scope js_scope.

(** What [FactoryRenderer.create(options)] leaves when started in the
    world [w]: the shape [g], the shape [measured] as it was when
    [scaleAndCenter] took its bounds, and the world [w']. *)
Definition created_factory (options : FactoryOptions num) (w : World num)
    (g measured : Graphics num) (w' : World num) : Prop :=
  let points := default Config.FACTORY_POINTS (fo_points options) in
  let color := default (lit 9127187) (fo_color options) in
  let strokeWidth := default Config.STROKE_WIDTH (fo_strokeWidth options) in
  let strokeColor := default (lit 0) (fo_strokeColor options) in
  let includePBS := default true (fo_includePBS options) in
  Graphics.path g
  = (if (length points <? 3)%nat then []
     else closed_path points ++ painted color strokeWidth strokeColor
          ++ Graphics.path (drawFactoryDetails Graphics.new))
  /\ Graphics.children g = (if includePBS then map createUnit PBS_DATA else [])
  /\ Graphics.path measured = Graphics.path g
  /\ Graphics.children measured = Graphics.children g
  /\ Graphics.scale measured = Point.mk (lit 1) (lit 1)
  /\ (let s := Math_min
                 (screen_width (app w) * Config.CONTAINER_SCALE_RATIO
                  / Bounds.width (getBounds measured))
                 (screen_height (app w) * Config.CONTAINER_SCALE_RATIO
                  / Bounds.height (getBounds measured)) in
      Graphics.scale g = Point.mk s s)
  /\ Point.mk (Graphics.x g) (Graphics.y g)
     = match fo_position options with
       | Some p => Point.mk (Point.x p) (Point.y p)
       | None => Point.mk (screen_width (app w) / lit 2) (screen_height (app w) / lit 2)
       end
  /\ Graphics.rotation g = lit 0
  /\ Graphics.eventMode g = "static"
  /\ Graphics.cursor g = Config.CURSOR_POINTER
  /\ state w' = state w
  /\ app w' = app w
  /\ exists lines,
       console w'
       = console w
         ++ (if (length points <? 3)%nat
             then [ConsoleError "厂区至少需要3个顶点" None] else [])
         ++ lines.

End VocabularyCreate.

Section VocabularyPBS.
Context {num : Type} `{!JsNumber num}.

(** The configuration [d] with another colour. *)
Definition recoloured (d : PBSData num) (color : num) : PBSData num :=
  PBSData.mk (PBSData.x d) (PBSData.y d) color (PBSData.shape d) (PBSData.size d)
             (PBSData.points d).

(** The unit is drawn as a polygon: its shape is ['polygon'] and it has
    vertices. *)
Definition drawn_as_polygon (d : PBSData num) : bool :=
  String.eqb (PBSData.shape d) "polygon"
  && match PBSData.points d with Some _ => true | None => false end.

End VocabularyPBS.

(** ** Keys *)

Section VocabularyKeys.

(** The key names [handleKeyDown] has a case for, in lower case. *)
Definition handled_keys : list string :=
  ["r"; "0"; "="; "+"; "-"; " "; "c"; "f"; "escape";
   "arrowup"; "arrowdown"; "arrowleft"; "arrowright"].

(** The event is the shortcut [key] with exactly the modifiers asked
    for, as the listener of [addShortcut] tests it. *)
Definition shortcut_matches (key : string) (modifiers : KeyboardHandler.Modifiers)
    (event : KeyboardEvent) : bool :=
  String.eqb (KeyboardHandler.toLowerCase (KeyboardEvent.key event))
             (KeyboardHandler.toLowerCase key)
  && ((if KeyboardHandler.ctrl modifiers then KeyboardEvent.ctrlKey event
       else negb (KeyboardEvent.ctrlKey event))
      && (if KeyboardHandler.shift modifiers then KeyboardEvent.shiftKey event
          else negb (KeyboardEvent.shiftKey event))
      && (if KeyboardHandler.alt modifiers then KeyboardEvent.altKey event
          else negb (KeyboardEvent.altKey event))).

End VocabularyKeys.

(** ** Frames *)

Section VocabularyFrames.
Context {num : Type} `{!JsNumber num}.

(** The rotation after [n] more frames: the speed added [n] times. *)
Fixpoint turned (n : nat) (rotation : num) : num :=
  match n with
  | O => rotation
  | S n => turned n (rotation + AnimationController.DEFAULT_ROTATION_SPEED)%js
  end.

End VocabularyFrames.

(** ** Uses of the state manager *)

Section VocabularyCalls.
Context {num : Type} `{!JsNumber num}.

(** The calls that change the state through a method of its own (all
    methods but [setState] and [set], which write any key, and
    [nextColor]). *)
Inductive call : Type :=
| ToggleRotation
| ResetColor
| SetCurrentShape (shapeType graphic : value num)
| SetCenterDot (showing : bool) (dot : option (value num))
| SetGeometricCenterDot (showing : bool) (dot : option (value num))
| UpdateViewport (viewport : Viewport.patch num)
| SetDragging (isDragging : bool) (position : option (Point num))
| TogglePBSMoveable
| SetDraggingPBS (pbsUnit : value num)
| ResetAll.

Definition make (c : call) : M num unit :=
  match c with
  | ToggleRotation => StateManager.toggleRotation
  | ResetColor => StateManager.resetColor
  | SetCurrentShape shapeType graphic => StateManager.setCurrentShape shapeType graphic
  | SetCenterDot showing dot => StateManager.setCenterDot showing dot
  | SetGeometricCenterDot showing dot => StateManager.setGeometricCenterDot showing dot
  | UpdateViewport viewport => StateManager.updateViewport viewport
  | SetDragging isDragging position => StateManager.setDragging isDragging position
  | TogglePBSMoveable => bind StateManager.togglePBSMoveable (fun _ => ret tt)
  | SetDraggingPBS pbsUnit => StateManager.setDraggingPBS pbsUnit
  | ResetAll => StateManager.reset
  end.

(** The state has the entries of the constructor's state and no other,
    the two vertex lists are the constructor's, and the viewport entry
    is a viewport. *)
Definition constructed (s : State num) : Prop :=
  (forall k, StateManager.initial_state !! k = None -> s !! k = None)
  /\ s !! "polygonPoints" = StateManager.initial_state !! "polygonPoints"
  /\ s !! "factoryPoints" = StateManager.initial_state !! "factoryPoints"
  /\ exists v, s !! "viewport" = Some (VViewport v).

(** Two graphics are the same object up to what is drawn in them and
    where: they agree on the pivot, the interaction, the PBS mark and
    the children. *)
Definition same_but_drawing_and_transform (g g' : Graphics num) : Prop :=
  Graphics.pivot g' = Graphics.pivot g
  /\ Graphics.eventMode g' = Graphics.eventMode g
  /\ Graphics.cursor g' = Graphics.cursor g
  /\ Graphics.isPBS g' = Graphics.isPBS g
  /\ Graphics.pbsData g' = Graphics.pbsData g
  /\ Graphics.children g' = Graphics.children g.

End VocabularyCalls.

(** ** Callbacks that only observe *)

Section VocabularyCallbacks.
Context {num : Type} `{!JsNumber num}.

(** The manager after the subscribers [subs], all observers, were
    notified of [(newState, oldState)]: each was called once, in order,
    and the console got the lines of each call. *)
Definition after_observers (subs : list (Reentrant.Callback num))
    (newState oldState : State num) (m : Reentrant.Manager num) : Reentrant.Manager num :=
  {| Reentrant.state := Reentrant.state m;
     Reentrant.subscribers := Reentrant.subscribers m;
     Reentrant.calls :=
       Reentrant.calls m
       ++ map (fun cb => (Reentrant.id cb, newState, oldState)) subs;
     Reentrant.console :=
       Reentrant.console m ++ flat_map (Reentrant.lines newState oldState) subs |}.

End VocabularyCallbacks.

(** ** Fitting a shape into the container *)

Section VocabularyFitting.
Local Open Scope Q_scope.

(** [getBounds] measures a shape as it is shown: for a shape that
    carries the drawing and the children of [drawn] and is not rotated,
    the width and the height of the box it returns are those of the
    box [local] of that drawing, in the shape's own coordinates, times
    the scale factors of the shape. *)
Definition measures_shown (getBounds : Graphics Q -> Bounds Q) (local : Bounds Q)
    (drawn : Graphics Q) : Prop :=
  forall g,
    Graphics.path g = Graphics.path drawn ->
    Graphics.children g = Graphics.children drawn ->
    Graphics.rotation g == 0 ->
    Bounds.width (getBounds g) == Bounds.width local * Point.x (Graphics.scale g)
    /\ Bounds.height (getBounds g)
       == Bounds.height local * Point.y (Graphics.scale g).

(** The box [b] fits within [r] of the container [cw] x [ch] and
    reaches it in one direction. *)
Definition fills (cw ch r : Q) (b : Bounds Q) : Prop :=
  Bounds.width b <= cw * r
  /\ Bounds.height b <= ch * r
  /\ (Bounds.width b == cw * r \/ Bounds.height b == ch * r).

End VocabularyFitting.

(* ================================================================== *)
(** * Literals *)
(* ================================================================== *)

(** The literals of the sources denote the doubles a JavaScript engine
    reads them as. *)
Example float_literals :
  float_lit (1 # 10) = 0.1%float
  /\ float_lit (12 # 10) = 1.2%float
  /\ float_lit (8 # 10) = 0.8%float
  /\ float_lit (11 # 10) = 1.1%float
  /\ float_lit (9 # 10) = 0.9%float
  /\ float_lit (15 # 10) = 1.5%float
  /\ float_lit (1 # 10000000000) = 1e-10%float
  /\ float_lit 5 = 5%float.
Proof. repeat split. Qed.

(* ================================================================== *)
(** * The state manager *)
(* ================================================================== *)

Section StateManagerFacts.
Context {num : Type} `{!JsNumber num}.
Local Open Scope monad_scope.

Lemma forEach_notify (subs : list (Subscriber num)) newState oldState (w : World num) :
  forEach subs (fun callback =>
    try_catch (StateManager.invoke callback newState oldState)
              (fun error => console_error "状态订阅者回调错误:" (Some error))) w
  = (Return tt, after_notify subs newState oldState w).
Proof.
  revert w. induction subs as [|cb subs IH]; intros w.
  - cbn. unfold ret, after_notify, notified, logged. cbn.
    rewrite !app_nil_r. by destruct w.
  - cbn [forEach]. unfold bind at 1, try_catch at 1, StateManager.invoke at 1.
    unfold after_notify, notified, logged, error_log in *.
    destruct (sub_call cb newState oldState) as [[]|e] eqn:E; cbn.
    + rewrite IH. cbn. rewrite E. cbn. by rewrite <- !app_assoc.
    + rewrite IH. cbn. rewrite E. cbn. by rewrite <- !app_assoc.
Qed.

Lemma notifySubscribers_run (newState oldState : State num) (w : World num) :
  StateManager.notifySubscribers newState oldState w
  = (Return tt, after_notify (subscribers w) newState oldState w).
Proof.
  unfold StateManager.notifySubscribers, bind, gets. apply forEach_notify.
Qed.

Lemma setState_run (newState : State num) (w : World num) :
  StateManager.setState newState w
  = (Return tt,
     after_notify (subscribers w) (newState ∪ state w) (state w)
                  (set_state (newState ∪ state w) w)).
Proof.
  unfold StateManager.setState, bind, gets, modify; cbv beta iota.
  by rewrite notifySubscribers_run.
Qed.

End StateManagerFacts.

(** Two subscribers, the first of which throws: both are called, the
    exception is logged, and [setState] returns normally. *)
Example throwing_subscriber_does_not_stop_the_next :
  let failing : Subscriber Q :=
    {| sub_id := 1; sub_call := fun _ _ => Throw (Error "boom") |} in
  let quiet : Subscriber Q :=
    {| sub_id := 2; sub_call := fun _ _ => Return tt |} in
  let w := snd (StateManager.subscribe quiet
                  (snd (StateManager.subscribe failing
                          (StateManager.constructor app0)))) in
  let '(outcome, w') := StateManager.setState {[ "isRotating" := VBool true ]} w in
  outcome = Return tt
  /\ map (fun c => fst (fst c)) (calls w') = [1%nat; 2%nat]
  /\ console w' = [ConsoleError "状态订阅者回调错误:" (Some (Error "boom"))]
  /\ state w' !! "isRotating" = Some (VBool true).
Proof. vm_compute. repeat split. Qed.

(* ================================================================== *)
(** * Notification with callbacks that call back *)
(* ================================================================== *)

Section Callbacks.
Context {num : Type} `{!JsNumber num}.
Import Reentrant.
Variable nested : State num -> State num -> Manager num -> outcome num.

Lemma run_observes (s : script num) (m : Manager num) :
  observes s ->
  exists m',
    run nested s m = Some (ending s (Reentrant.state m), m')
    /\ Reentrant.state m' = Reentrant.state m
    /\ Reentrant.subscribers m' = Reentrant.subscribers m
    /\ Reentrant.calls m' = Reentrant.calls m
    /\ Reentrant.console m' = Reentrant.console m ++ written s (Reentrant.state m).
Proof.
  revert m.
  induction s as [|error|rest IH|newState rest IH|i cb _ rest IH|i rest IH
                  |newState oldState rest IH|entry rest IH];
    intros m Hs; cbn [observes] in Hs; try done.
  - exists m. cbn. by rewrite app_nil_r.
  - exists m. cbn. by rewrite app_nil_r.
  - cbn [run ending written]. by apply IH.
  - destruct (IH (Reentrant.add_log entry m) Hs) as (m' & R & St & Su & Ca & Co).
    exists m'. cbn [run ending written]. cbn in St, Su, Ca, Co.
    split; [by rewrite R|]. by rewrite Co, <- app_assoc.
Qed.

Lemma invoke_observer (newState oldState : State num) (cb : Callback num) (m : Manager num) :
  observer cb ->
  Reentrant.state m = newState ->
  exists m',
    invoke nested newState oldState cb m = Some (Return tt, m')
    /\ Reentrant.state m' = Reentrant.state m
    /\ Reentrant.subscribers m' = Reentrant.subscribers m
    /\ Reentrant.calls m' = Reentrant.calls m ++ [(Reentrant.id cb, newState, oldState)]
    /\ Reentrant.console m'
       = Reentrant.console m ++ lines newState oldState cb.
Proof.
  intros Hcb Hst.
  destruct (run_observes (body cb newState oldState)
              (Reentrant.add_call (Reentrant.id cb, newState, oldState) m))
    as (m' & R & St & Su & Ca & Co); [apply Hcb|].
  cbn in R, St, Su, Ca, Co. rewrite Hst in R, Co.
  unfold invoke, lines. rewrite R.
  destruct (ending (body cb newState oldState) newState) as [[]|error].
  - exists m'. rewrite app_nil_r. done.
  - eexists. split; [reflexivity|]. cbn. by rewrite Co, <- app_assoc.
Qed.

(** Observers do not change the array: [forEach] visits each index. *)
Lemma forEach_observers (newState oldState : State num)
    (rest pre : list (Callback num)) (m : Manager num) :
  Forall observer rest ->
  Reentrant.state m = newState ->
  Reentrant.subscribers m = pre ++ rest ->
  Reentrant.forEach (length rest) (length pre) (invoke nested newState oldState) m
  = Some (Return tt, after_observers rest newState oldState m).
Proof.
  revert pre m. induction rest as [|cb rest IH]; intros pre m Hobs Hst Hsubs.
  - cbn. unfold after_observers. cbn. rewrite !app_nil_r. by destruct m.
  - apply Forall_cons in Hobs as [Hcb Hrest].
    cbn [length Reentrant.forEach].
    assert (Reentrant.subscribers m !! length pre = Some cb) as ->.
    { rewrite Hsubs. by apply list_lookup_middle. }
    destruct (invoke_observer newState oldState cb m Hcb Hst)
      as (m' & R & St & Su & Ca & Co).
    rewrite R.
    replace (S (length pre)) with (length (pre ++ [cb]))
      by (rewrite length_app; cbn; lia).
    rewrite IH; [|done|congruence|by rewrite Su, Hsubs, <- app_assoc].
    do 2 f_equal. unfold after_observers. cbn [map flat_map].
    rewrite St, Su, Ca, Co, <- !app_assoc. reflexivity.
Qed.

End Callbacks.

Section CallbacksMore.
Context {num : Type} `{!JsNumber num}.

(** [setState] among observers: no nesting, so any depth will do. *)
Lemma setState_observers (depth : nat) (newState : State num) (m : Reentrant.Manager num) :
  Forall Reentrant.observer (Reentrant.subscribers m) ->
  Reentrant.setState (S depth) newState m
  = Some (Return tt,
          after_observers (Reentrant.subscribers m)
            (newState ∪ Reentrant.state m) (Reentrant.state m)
            (Reentrant.set_state (newState ∪ Reentrant.state m) m)).
Proof.
  intros Hobs. unfold Reentrant.setState, Reentrant.setState_then.
  cbn [Reentrant.notifySubscribers]. unfold Reentrant.notify_all.
  cbn [Reentrant.state Reentrant.subscribers Reentrant.set_state].
  by apply (forEach_observers _ _ _ _ []).
Qed.

Lemma as_callback_observer (s : Subscriber num) : Reentrant.observer (as_callback s).
Proof.
  intros newState oldState. cbn. by destruct (sub_call s newState oldState).
Qed.

Lemma as_callback_lines (s : Subscriber num) (newState oldState : State num) :
  Reentrant.lines newState oldState (as_callback s) = error_log s newState oldState.
Proof.
  unfold Reentrant.lines, error_log. cbn. by destruct (sub_call s newState oldState) as [[]|e].
Qed.

(** The manager of the sections above is this one with subscribers
    that only observe and do not write to the console. *)
Lemma setState_of_observers (depth : nat) (newState : State num) (w : World num) :
  Reentrant.setState (S depth) newState (manager_of w)
  = Some (Return tt, manager_of (snd (StateManager.setState newState w))).
Proof.
  rewrite setState_observers.
  2: { cbn. apply Forall_forall. intros cb [s [-> _]]%list_elem_of_fmap.
       apply as_callback_observer. }
  rewrite setState_run. cbn [snd]. do 2 f_equal.
  unfold after_observers, manager_of, after_notify, notified, logged. cbn.
  f_equal.
  - f_equal. by rewrite map_map.
  - f_equal. induction (subscribers w) as [|s l IH]; [done|].
    cbn [map flat_map]. by rewrite as_callback_lines, IH.
Qed.

End CallbacksMore.

Section OneShot.
Context {num : Type} `{!JsNumber num}.
Import Reentrant.

(** C6. The notification contract of [setState], with callbacks that
    may call back into the manager. (1) A callback that unsubscribes
    while it is notified: when the first of two subscribers unsubscribes
    itself as it is called (a listener for one change), [setState]
    merges the entries, calls it, and returns without calling the
    second, whatever the second would do, although the second was
    registered before the call and still is after it: the array that
    [forEach] walks has lost its second index. (2) With subscribers
    that leave the manager alone (they may read the state, write to the
    console and throw), [setState] returns normally, merges the entries
    in one step, calls every subscriber once, in registration order,
    with the merged state and the state before, and logs what each
    throws without keeping the later ones from being called. *)
Theorem a_one_shot_subscriber_hides_the_next (depth : nat) (newState : State num)
    (m : Manager num) :
  (forall (a : nat) (next : State num -> State num -> script num),
     let second := {| id := S a; body := next |} in
     exists m',
       setState (S depth) newState (set_subscribers [one_shot a; second] m)
       = Some (Return tt, m')
       /\ state m' = newState ∪ state m
       /\ subscribers m' = [second]
       /\ calls m' = calls m ++ [(a, newState ∪ state m, state m)]
       /\ console m' = console m)
  /\ (Forall observer (subscribers m) ->
      exists m',
        setState (S depth) newState m = Some (Return tt, m')
        /\ state m' = newState ∪ state m
        /\ subscribers m' = subscribers m
        /\ calls m'
           = calls m
             ++ map (fun cb => (id cb, newState ∪ state m, state m)) (subscribers m)
        /\ console m'
           = console m
             ++ flat_map (lines (newState ∪ state m) (state m)) (subscribers m)).
Proof.
  split.
  - intros a next second. eexists. split.
    + unfold setState, setState_then. cbn [notifySubscribers]. unfold notify_all.
      cbn [set_subscribers set_state subscribers state length Reentrant.forEach].
      change ([one_shot a; second] !! 0%nat) with (Some (one_shot (num := num) a)).
      unfold invoke at 1, one_shot.
      cbn [body id run unsubscribe add_call set_subscribers set_state subscribers
           remove_first].
      rewrite Nat.eqb_refl. cbn [subscribers]. 
      change ([second] !! 1%nat) with (@None (Callback num)). reflexivity.
    + cbn. rewrite Nat.eqb_refl. done.
  - intros Hobs. eexists. split; [by apply setState_observers|]. cbn. done.
Qed.

Lemma filter_others (c : nat) (l : list (Callback num)) :
  c ∉ map id l -> filter (fun cb => id cb <> c) l = l.
Proof.
  induction l as [|cb l IH]; intros Hc; [done|].
  cbn [map] in Hc. apply not_elem_of_cons in Hc as [Hne Hl].
  rewrite filter_cons_True by (intros E; by apply Hne). f_equal. by apply IH.
Qed.

Lemma remove_first_filter (c : nat) (l : list (Callback num)) :
  NoDup (map id l) ->
  remove_first c l = filter (fun cb => id cb <> c) l.
Proof.
  induction l as [|cb l IH]; intros Hnd; [done|].
  cbn [map] in Hnd. apply NoDup_cons in Hnd as [Hcb Hl].
  cbn [remove_first]. destruct (Nat.eqb_spec (id cb) c) as [E|E].
  - rewrite filter_cons_False by (intros Hne; by apply Hne).
    symmetry. apply filter_others. by rewrite <- E.
  - rewrite filter_cons_True by done. f_equal. by apply IH.
Qed.

End OneShot.

(* ================================================================== *)
(** * Running the methods *)
(* ================================================================== *)

Section Runs.
Context {num : Type} `{!JsNumber num}.
Local Open Scope monad_scope.

Lemma same_page_refl (w : World num) : same_page w w.
Proof. repeat split. Qed.

Lemma same_page_trans (w1 w2 w3 : World num) :
  same_page w1 w2 -> same_page w2 w3 -> same_page w1 w3.
Proof.
  unfold same_page. intros H12 H23.
  destruct H12 as (?&?&?&?&?&?&?&?&?&?), H23 as (?&?&?&?&?&?&?&?&?&?).
  repeat split; congruence.
Qed.

Lemma bind_runs {A} (m : M num A) (k : A -> M num unit) w a w1 :
  m w = (Return a, w1) -> bind m k w = k a w1.
Proof. unfold bind. by intros ->. Qed.

Lemma setState_runs (newState : State num) (w : World num) :
  exists w',
    runs_to (StateManager.setState newState) w w'
    /\ state w' = newState ∪ state w
    /\ app w' = app w
    /\ subscribers w' = subscribers w.
Proof.
  eexists. split; [apply setState_run|]. by cbn.
Qed.

Lemma viewport_of_Some (w : World num) (v : Viewport num) :
  ViewportController.viewport_of w = Some v <->
  state w !! "viewport" = Some (VViewport v).
Proof.
  unfold ViewportController.viewport_of.
  destruct (state w !! "viewport") as [[]|]; split; congruence.
Qed.

(** [stateManager.updateViewport(patch)] over a state that holds a
    viewport: the patch is merged in, everything else stays. *)
Lemma StateManager_updateViewport_runs (w : World num) (v : Viewport num) p :
  ViewportController.viewport_of w = Some v ->
  exists w',
    runs_to (StateManager.updateViewport p) w w'
    /\ ViewportController.viewport_of w' = Some (Viewport.spread v p)
    /\ (forall k, k <> "viewport" -> state w' !! k = state w !! k)
    /\ app w' = app w
    /\ subscribers w' = subscribers w.
Proof.
  intros Hv. apply viewport_of_Some in Hv.
  destruct (setState_runs {[ "viewport" := VViewport (Viewport.spread v p) ]} w)
    as (w' & Hrun & Hst & Happ & Hsub).
  exists w'. repeat split; try done.
  - unfold runs_to, StateManager.updateViewport, StateManager.get.
    unfold bind at 1, gets. rewrite Hv. cbn [StateManager.spread_viewport].
    exact Hrun.
  - apply viewport_of_Some. rewrite Hst.
    apply lookup_union_Some_l, lookup_singleton_eq.
  - intros k Hk. rewrite Hst. rewrite lookup_union_r; [done|].
    by apply lookup_singleton_ne.
Qed.

(** [this.updateViewport()] copies the viewport onto the stage. *)
Lemma updateViewport_runs (w : World num) (v : Viewport num) :
  ViewportController.viewport_of w = Some v ->
  exists w',
    runs_to ViewportController.updateViewport w w'
    /\ state w' = state w
    /\ same_page w w'
    /\ stage_position (app w') = Point.mk (Viewport.x v) (Viewport.y v)
    /\ stage_scale (app w') = Point.mk (Viewport.scale v) (Viewport.scale v).
Proof.
  intros Hv. apply viewport_of_Some in Hv.
  eexists. split.
  - unfold runs_to, ViewportController.updateViewport, StateManager.get.
    unfold bind, gets. rewrite Hv. cbn. reflexivity.
  - cbn. repeat split.
Qed.

Lemma render_unless_autoStart_runs (w : World num) :
  exists w',
    runs_to ViewportController.render_unless_autoStart w w'
    /\ state w' = state w
    /\ same_page w w'
    /\ stage_position (app w') = stage_position (app w)
    /\ stage_scale (app w') = stage_scale (app w).
Proof.
  unfold runs_to, ViewportController.render_unless_autoStart, bind, gets.
  destruct (autoStart (app w)) eqn:E; eexists; (split; [reflexivity|]).
  - by repeat split.
  - cbn. by repeat split.
Qed.

Lemma commit_runs (w : World num) (v : Viewport num) p :
  ViewportController.viewport_of w = Some v ->
  exists w',
    runs_to (commit p) w w'
    /\ ViewportController.viewport_of w' = Some (Viewport.spread v p)
    /\ (forall k, k <> "viewport" -> state w' !! k = state w !! k)
    /\ same_page w w'
    /\ stage_position (app w')
       = Point.mk (Viewport.x (Viewport.spread v p)) (Viewport.y (Viewport.spread v p))
    /\ stage_scale (app w')
       = Point.mk (Viewport.scale (Viewport.spread v p))
                  (Viewport.scale (Viewport.spread v p)).
Proof.
  intros Hv.
  destruct (StateManager_updateViewport_runs w v p Hv)
    as (w1 & R1 & V1 & F1 & A1 & S1).
  destruct (updateViewport_runs w1 _ V1) as (w2 & R2 & St2 & P2 & SP2 & SS2).
  destruct (render_unless_autoStart_runs w2) as (w3 & R3 & St3 & P3 & SP3 & SS3).
  exists w3. split; [|split; [|split; [|split; [|split]]]].
  - unfold runs_to, commit. rewrite (bind_runs _ _ _ _ _ R1).
    rewrite (bind_runs _ _ _ _ _ R2). exact R3.
  - apply viewport_of_Some. rewrite St3, St2. by apply viewport_of_Some.
  - intros k Hk. rewrite St3, St2. by apply F1.
  - apply same_page_trans with w2; [|done].
    apply same_page_trans with w1; [|done].
    unfold same_page. rewrite A1, S1. repeat split.
  - by rewrite SP3.
  - by rewrite SS3.
Qed.

Lemma setDragging_runs (w : World num) isDragging position :
  exists w',
    runs_to (StateManager.setDragging isDragging position) w w'
    /\ state w' !! "viewport" = state w !! "viewport"
    /\ state w' !! "lastPointerPosition"
       = match position with
         | Some p => Some (VPoint p)
         | None => state w !! "lastPointerPosition"
         end
    /\ app w' = app w
    /\ subscribers w' = subscribers w.
Proof.
  unfold StateManager.setDragging.
  destruct position as [p|];
    (edestruct setState_runs as (w' & R & St & A & S);
     exists w'; split; [exact R|]; rewrite St;
     split; [|split; [|by split]]).
  - rewrite lookup_union_r; [done|].
    rewrite lookup_insert_ne by done. by apply lookup_singleton_ne.
  - apply lookup_union_Some_l, lookup_insert_eq.
  - rewrite lookup_union_r; [done|]. by apply lookup_singleton_ne.
  - rewrite lookup_union_r; [done|]. by apply lookup_singleton_ne.
Qed.

Lemma same_page_app (w w' : World num) :
  app w' = app w -> subscribers w' = subscribers w -> same_page w w'.
Proof. intros A S. unfold same_page. rewrite A, S. by repeat split. Qed.

Lemma set_cursor_runs (w : World num) c :
  exists w',
    runs_to (ViewportController.set_cursor c) w w'
    /\ state w' = state w /\ same_page w w'.
Proof. eexists. split; [reflexivity|]. cbn. by repeat split. Qed.

Lemma set_ticking_runs (w : World num) b :
  exists w',
    runs_to (ViewportController.set_ticking b) w w'
    /\ state w' = state w /\ same_page w w'.
Proof. eexists. split; [reflexivity|]. cbn. by repeat split. Qed.

(** ** The methods over a state that holds a viewport *)

Section Unfold.
Variables (w : World num) (v : Viewport num).
Hypothesis Hv : ViewportController.viewport_of w = Some v.
Local Open Scope js_scope.

Lemma handleWheel_unfold event :
  let p := ViewportController.mouse_position (canvas (app w)) event in
  let factor := if WheelEvent.deltaY event >? lit 0
                then Config.WHEEL_ZOOM_OUT_FACTOR
                else Config.WHEEL_ZOOM_IN_FACTOR in
  let ns := Math_max Config.MIN_SCALE
              (Math_min Config.MAX_SCALE (Viewport.scale v * factor)) in
  ViewportController.handleWheel event w
  = if ns === Viewport.scale v then (Return tt, w)
    else commit (about v (Point.x p) (Point.y p) ns) w.
Proof using Hv.
  apply viewport_of_Some in Hv.
  unfold ViewportController.handleWheel, StateManager.getState.
  unfold bind at 1, gets at 1. rewrite Hv.
  unfold bind at 1, ViewportController.the_viewport at 1, ret at 1.
  unfold bind at 1, gets at 1. cbv zeta.
  by destruct (_ === _).
Qed.

Lemma zoomIn_unfold :
  let c := canvas (app w) in
  let ns := Math_min Config.MAX_SCALE
              (Viewport.scale v * Config.ZOOM_IN_FACTOR) in
  ViewportController.zoomIn w
  = if ns === Viewport.scale v then (Return tt, w)
    else commit (about v (canvas_width c / lit 2) (canvas_height c / lit 2) ns) w.
Proof using Hv.
  apply viewport_of_Some in Hv.
  unfold ViewportController.zoomIn, StateManager.get.
  unfold bind at 1, gets at 1. rewrite Hv.
  unfold bind at 1, gets at 1.
  unfold bind at 1, ViewportController.the_viewport at 1, ret at 1.
  cbv zeta. by destruct (_ === _).
Qed.

Lemma zoomOut_unfold :
  let c := canvas (app w) in
  let ns := Math_max Config.MIN_SCALE
              (Viewport.scale v * Config.ZOOM_OUT_FACTOR) in
  ViewportController.zoomOut w
  = if ns === Viewport.scale v then (Return tt, w)
    else commit (about v (canvas_width c / lit 2) (canvas_height c / lit 2) ns) w.
Proof using Hv.
  apply viewport_of_Some in Hv.
  unfold ViewportController.zoomOut, StateManager.get.
  unfold bind at 1, gets at 1. rewrite Hv.
  unfold bind at 1, gets at 1.
  unfold bind at 1, ViewportController.the_viewport at 1, ret at 1.
  cbv zeta. by destruct (_ === _).
Qed.

Lemma zoomTo_unfold scale center :
  let c := canvas (app w) in
  let ns := Math_max Config.MIN_SCALE (Math_min Config.MAX_SCALE scale) in
  let cx := match center with
            | Some p => Point.x p | None => canvas_width c / lit 2 end in
  let cy := match center with
            | Some p => Point.y p | None => canvas_height c / lit 2 end in
  ViewportController.zoomTo scale center w = commit (about v cx cy ns) w.
Proof using Hv.
  apply viewport_of_Some in Hv.
  unfold ViewportController.zoomTo, StateManager.get.
  unfold bind at 1, gets at 1.
  unfold bind at 1, gets at 1. rewrite Hv.
  unfold bind at 1, ViewportController.the_viewport at 1, ret at 1.
  reflexivity.
Qed.

Lemma pan_unfold deltaX deltaY :
  ViewportController.pan deltaX deltaY w
  = commit (Viewport.mkpatch (Some (Viewport.x v + deltaX))
                             (Some (Viewport.y v + deltaY)) None) w.
Proof using Hv.
  apply viewport_of_Some in Hv.
  unfold ViewportController.pan, StateManager.get.
  unfold bind at 1, gets at 1. rewrite Hv.
  unfold bind at 1, ViewportController.the_viewport at 1, ret at 1.
  reflexivity.
Qed.
End Unfold.

End Runs.

Lemma zoom_by_unfold {num : Type} `{!JsNumber num}
    (w : World num) (v : Viewport num) factor p :
  ViewportController.viewport_of w = Some v ->
  zoom_by factor p w
  = ViewportController.zoomTo (Viewport.scale v * factor)%js (Some p) w.
Proof.
  intros Hv. apply viewport_of_Some in Hv.
  unfold zoom_by, StateManager.get. unfold bind at 1, gets at 1. rewrite Hv.
  reflexivity.
Qed.

(* ================================================================== *)
(** * The viewport over exact arithmetic *)
(* ================================================================== *)

Section ViewportOverQ.
Local Open Scope Q_scope.
Import ViewportController.

Lemma clamp_in_range t : in_range (clamp t).
Proof.
  unfold in_range, clamp. in_Q. split.
  - apply Q.le_max_l.
  - apply Q.max_lub; [lra | apply Q.le_min_l].
Qed.

Lemma clamp_id t : in_range t -> clamp t == t.
Proof.
  unfold in_range, clamp. in_Q. intros [Hlo Hhi].
  rewrite Q.min_r by exact Hhi. apply Q.max_r. exact Hlo.
Qed.

Lemma zoomIn_scale_in_range s :
  in_range s -> in_range (Math_min Config.MAX_SCALE (s * Config.ZOOM_IN_FACTOR)%js).
Proof.
  unfold in_range. in_Q. intros [Hlo Hhi]. split.
  - apply Q.min_glb; lra.
  - apply Q.le_min_l.
Qed.

Lemma zoomOut_scale_in_range s :
  in_range s -> in_range (Math_max Config.MIN_SCALE (s * Config.ZOOM_OUT_FACTOR)%js).
Proof.
  unfold in_range. in_Q. intros [Hlo Hhi]. split.
  - apply Q.le_max_l.
  - apply Q.max_lub; lra.
Qed.

Lemma in_range_nonzero s : in_range s -> ~ s == 0.
Proof. unfold in_range. in_Q. lra. Qed.

Lemma in_range_Qeq s t : s == t -> in_range s -> in_range t.
Proof. unfold in_range. intros ->. done. Qed.

Lemma about_fixes_pivot v cx cy ns :
  ~ ns == 0 ->
  Peq (to_world (Viewport.spread v (about v cx cy ns)) (Point.mk cx cy))
      (to_world v (Point.mk cx cy)).
Proof.
  intros Hns. unfold Peq, to_world, about. cbn. in_Q.
  set (wx := (cx - Viewport.x v) / Viewport.scale v).
  set (wy := (cy - Viewport.y v) / Viewport.scale v).
  split; field; exact Hns.
Qed.

Lemma lands_stay (m : M Q unit) w v :
  viewport_of w = Some v -> m w = (Return tt, w) -> lands m w v w.
Proof.
  intros Hv Hm. repeat split; try done.
Qed.

Lemma lands_commit w v p :
  viewport_of w = Some v ->
  exists w', lands (commit p) w (Viewport.spread v p) w'.
Proof.
  intros Hv. destruct (commit_runs w v p Hv) as (w' & R & V & F & P & _).
  exists w'. unfold lands. auto.
Qed.

Lemma handleWheel_lands w v event :
  viewport_of w = Some v -> in_range (Viewport.scale v) ->
  let factor := if (WheelEvent.deltaY event >? lit 0)%js
                then Config.WHEEL_ZOOM_OUT_FACTOR
                else Config.WHEEL_ZOOM_IN_FACTOR in
  let p := mouse_position (canvas (app w)) event in
  exists v' w',
    lands (handleWheel event) w v' w'
    /\ Viewport.scale v' == clamp (Viewport.scale v * factor)
    /\ Peq (to_world v' p) (to_world v p).
Proof.
  intros Hv Hr factor p.
  pose proof (handleWheel_unfold w v Hv event) as U. cbv zeta in U.
  fold factor p in U. fold (clamp (Viewport.scale v * factor)) in U.
  destruct (_ === _)%js eqn:G in U.
  - exists v, w. split; [|split].
    + by apply lands_stay.
    + cbn in G. apply Qeq_bool_iff in G. by symmetry.
    + split; reflexivity.
  - destruct (lands_commit w v
      (about v (Point.x p) (Point.y p) (clamp (Viewport.scale v * factor))) Hv)
      as (w' & R & L).
    eexists _, w'. split; [|split].
    + split; [|exact L]. unfold runs_to. rewrite U. exact R.
    + reflexivity.
    + destruct p as [cx cy]. apply about_fixes_pivot.
      apply in_range_nonzero, clamp_in_range.
Qed.

Lemma zoomIn_lands w v :
  viewport_of w = Some v -> in_range (Viewport.scale v) ->
  let c := canvas (app w) in
  let p := Point.mk (canvas_width c / 2) (canvas_height c / 2) in
  exists v' w',
    lands zoomIn w v' w'
    /\ Viewport.scale v'
       == Math_min Config.MAX_SCALE (Viewport.scale v * Config.ZOOM_IN_FACTOR)%js
    /\ Peq (to_world v' p) (to_world v p).
Proof.
  intros Hv Hr c p.
  pose proof (zoomIn_unfold w v Hv) as U. cbv zeta in U. fold c in U.
  destruct (_ === _)%js eqn:G in U.
  - exists v, w. split; [|split].
    + by apply lands_stay.
    + cbn in G. apply Qeq_bool_iff in G. by symmetry.
    + split; reflexivity.
  - edestruct (lands_commit w v) as (w' & R & L); [exact Hv|].
    eexists _, w'. split; [|split].
    + split; [|exact L]. unfold runs_to. rewrite U. exact R.
    + reflexivity.
    + apply about_fixes_pivot.
      by apply in_range_nonzero, zoomIn_scale_in_range.
Qed.

Lemma zoomOut_lands w v :
  viewport_of w = Some v -> in_range (Viewport.scale v) ->
  let c := canvas (app w) in
  let p := Point.mk (canvas_width c / 2) (canvas_height c / 2) in
  exists v' w',
    lands zoomOut w v' w'
    /\ Viewport.scale v'
       == Math_max Config.MIN_SCALE (Viewport.scale v * Config.ZOOM_OUT_FACTOR)%js
    /\ Peq (to_world v' p) (to_world v p).
Proof.
  intros Hv Hr c p.
  pose proof (zoomOut_unfold w v Hv) as U. cbv zeta in U. fold c in U.
  destruct (_ === _)%js eqn:G in U.
  - exists v, w. split; [|split].
    + by apply lands_stay.
    + cbn in G. apply Qeq_bool_iff in G. by symmetry.
    + split; reflexivity.
  - edestruct (lands_commit w v) as (w' & R & L); [exact Hv|].
    eexists _, w'. split; [|split].
    + split; [|exact L]. unfold runs_to. rewrite U. exact R.
    + reflexivity.
    + apply about_fixes_pivot.
      by apply in_range_nonzero, zoomOut_scale_in_range.
Qed.

Lemma zoomTo_lands w v scale center :
  viewport_of w = Some v ->
  let p := zoomTo_pivot (canvas (app w)) center in
  exists v' w',
    lands (zoomTo scale center) w v' w'
    /\ v' = Viewport.spread v (about v (Point.x p) (Point.y p) (clamp scale))
    /\ Viewport.scale v' = clamp scale
    /\ Peq (to_world v' p) (to_world v p).
Proof.
  intros Hv p.
  pose proof (zoomTo_unfold w v Hv scale center) as U. cbv zeta in U.
  edestruct (lands_commit w v) as (w' & R & L); [exact Hv|].
  eexists _, w'. split; [|split; [|split]].
  - split; [|exact L]. unfold runs_to. rewrite U. exact R.
  - subst p. by destruct center.
  - reflexivity.
  - subst p. destruct center as [[cx cy]|]; cbn [zoomTo_pivot];
      apply about_fixes_pivot, in_range_nonzero, clamp_in_range.
Qed.

Lemma pan_lands w v deltaX deltaY :
  viewport_of w = Some v ->
  exists w',
    lands (pan deltaX deltaY) w
          (Viewport.mk (Viewport.x v + deltaX) (Viewport.y v + deltaY)
                       (Viewport.scale v)) w'.
Proof.
  intros Hv. pose proof (pan_unfold w v Hv deltaX deltaY) as U.
  edestruct (lands_commit w v) as (w' & R & L); [exact Hv|].
  exists w'. split; [unfold runs_to; rewrite U; exact R | exact L].
Qed.

Lemma reset_lands w v :
  viewport_of w = Some v ->
  exists w', lands reset w (Viewport.mk 0 0 1) w'.
Proof.
  intros Hv.
  destruct (StateManager_updateViewport_runs w v
              (Viewport.mkpatch (Some (lit 0)) (Some (lit 0))
                                (Some Config.DEFAULT_SCALE)) Hv)
    as (w1 & R1 & V1 & F1 & A1 & S1).
  destruct (updateViewport_runs w1 _ V1) as (w2 & R2 & St2 & P2 & _).
  destruct (render_unless_autoStart_runs w2) as (w3 & R3 & St3 & P3 & _).
  eexists. split; [|split; [|split]].
  - unfold runs_to, reset. rewrite (bind_runs _ _ _ _ _ R1).
    rewrite (bind_runs _ _ _ _ _ R2). rewrite (bind_runs _ _ _ _ _ R3).
    reflexivity.
  - apply viewport_of_Some. cbn. rewrite St3, St2.
    by apply viewport_of_Some.
  - intros k Hk. cbn. rewrite St3, St2. by apply F1.
  - apply same_page_trans with w3; [|by repeat split].
    apply same_page_trans with w2; [|done].
    apply same_page_trans with w1; [|done].
    by apply same_page_app.
Qed.

Lemma fitToContent_lands w v bounds padding :
  viewport_of w = Some v -> in_range (Viewport.scale v) ->
  exists v' w',
    lands (fitToContent bounds padding) w v' w'
    /\ in_range (Viewport.scale v').
Proof.
  intros Hv Hr. destruct bounds as [b|].
  - unfold fitToContent. cbv zeta.
    edestruct (lands_commit w v) as (w' & R & L); [exact Hv|].
    eexists _, w'. split.
    + split; [|exact L]. unfold runs_to, bind at 1, gets at 1. exact R.
    + cbn. apply clamp_in_range.
  - exists v, w. split; [|done]. by apply lands_stay.
Qed.

(** ** Sessions *)

Lemma lands_ready m w v' w' :
  ready w -> lands m w v' w' -> in_range (Viewport.scale v') ->
  exists w', runs_to m w w' /\ ready w' /\ same_page w w'.
Proof.
  intros [_ [p Hp]] (R & V & F & P) Hr. exists w'.
  split; [done|]. split; [|done]. split; [by exists v'|].
  exists p. by rewrite F.
Qed.

Lemma handlePointerDown_ready w event :
  ready w ->
  exists w', runs_to (handlePointerDown event) w w' /\ ready w' /\ same_page w w'.
Proof.
  intros [[v [Hv Hr]] [p Hp]]. apply viewport_of_Some in Hv.
  unfold handlePointerDown.
  set (tick := if autoStart (app w) then (ret tt : M Q unit) else set_ticking true).
  assert (exists w0, runs_to tick w w0 /\ state w0 = state w /\ same_page w w0)
    as (w0 & T & St0 & P0).
  { subst tick. destruct (autoStart (app w)).
    - exists w. split; [done|]. split; [done|]. apply same_page_refl.
    - apply set_ticking_runs. }
  unfold runs_to, bind at 1, gets at 1. fold tick.
  rewrite (bind_runs _ _ _ _ _ T). unfold bind at 1, gets at 1.
  destruct (negb _).
  - exists w0. split; [done|]. split; [|done]. split.
    + exists v. split; [|done]. apply viewport_of_Some. by rewrite St0.
    + exists p. by rewrite St0.
  - edestruct (setDragging_runs w0) as (w1 & R1 & V1 & L1 & A1 & S1).
    rewrite (bind_runs _ _ _ _ _ R1).
    destruct (set_cursor_runs w1 Config.CURSOR_GRABBING) as (w2 & C & St2 & P2).
    exists w2. split; [done|]. split.
    + split.
      * exists v. split; [|done]. apply viewport_of_Some.
        by rewrite St2, V1, St0.
      * eexists. rewrite St2. exact L1.
    + apply same_page_trans with w1; [|done].
      apply same_page_trans with w0; [done|]. by apply same_page_app.
Qed.

Lemma handlePointerUp_ready w :
  ready w ->
  exists w', runs_to handlePointerUp w w' /\ ready w' /\ same_page w w'.
Proof.
  intros [[v [Hv Hr]] [p Hp]]. apply viewport_of_Some in Hv.
  unfold handlePointerUp, runs_to.
  edestruct (setDragging_runs w false None) as (w1 & R1 & V1 & L1 & A1 & S1).
  rewrite (bind_runs _ _ _ _ _ R1).
  destruct (set_cursor_runs w1 Config.CURSOR_GRAB) as (w2 & C & St2 & P2).
  rewrite (bind_runs _ _ _ _ _ C).
  unfold bind at 1, gets at 1.
  assert (ready w2 /\ same_page w w2) as [Rd2 Pg2].
  { split; [split|].
    - exists v. split; [|done]. apply viewport_of_Some. by rewrite St2, V1.
    - exists p. by rewrite St2, L1.
    - apply same_page_trans with w1; [by apply same_page_app|done]. }
  destruct (autoStart (app w2)).
  - by exists w2.
  - destruct (set_ticking_runs w2 false) as (w3 & T & St3 & P3).
    exists w3. split; [done|]. split.
    + destruct Rd2 as [[v2 [Hv2 Hr2]] [p2 Hp2]]. split.
      * exists v2. split; [|done]. apply viewport_of_Some.
        rewrite St3. by apply viewport_of_Some.
      * exists p2. by rewrite St3.
    + by apply same_page_trans with w2.
Qed.

Lemma handlePointerMove_ready w event :
  ready w ->
  exists w', runs_to (handlePointerMove event) w w' /\ ready w' /\ same_page w w'.
Proof.
  intros Rd. pose proof Rd as [[v [Hv Hr]] [p Hp]].
  pose proof Hv as Hst. apply viewport_of_Some in Hst.
  unfold handlePointerMove, runs_to, StateManager.getState.
  unfold bind at 1, gets at 1.
  destruct (negb _).
  - exists w. split; [done|]. split; [done|apply same_page_refl].
  - rewrite Hp. unfold bind at 1, the_point at 1, ret at 1.
    rewrite Hst. unfold bind at 1, the_viewport at 1, ret at 1.
    edestruct (StateManager_updateViewport_runs w v) as (w1 & R1 & V1 & F1 & A1 & S1);
      [exact Hv|].
    rewrite (bind_runs _ _ _ _ _ R1).
    edestruct (setDragging_runs w1) as (w2 & R2 & V2 & L2 & A2 & S2).
    rewrite (bind_runs _ _ _ _ _ R2).
    assert (viewport_of w2 = Some (Viewport.spread v
              (Viewport.mkpatch (Some (Viewport.x v + (PointerEvent.clientX event - Point.x p))%js)
                                (Some (Viewport.y v + (PointerEvent.clientY event - Point.y p))%js)
                                None))) as Hv2.
    { apply viewport_of_Some. rewrite V2. by apply viewport_of_Some. }
    destruct (updateViewport_runs w2 _ Hv2) as (w3 & R3 & St3 & P3 & _).
    exists w3. split; [exact R3|]. split.
    + split.
      * eexists. split; [apply viewport_of_Some; rewrite St3;
                         apply viewport_of_Some; exact Hv2|]. exact Hr.
      * eexists. rewrite St3. exact L2.
    + apply same_page_trans with w2; [|done].
      apply same_page_trans with w1; by apply same_page_app.
Qed.

Lemma perform_ready a w :
  ready w -> defined a ->
  exists w', runs_to (perform a) w w' /\ ready w' /\ same_page w w'.
Proof.
  intros Rd Df. pose proof Rd as [[v [Hv Hr]] _].
  destruct a as [e|e|e| | | | |dx dy|s c|b pd]; cbn [perform].
  - destruct (handleWheel_lands w v e Hv Hr) as (v' & w' & L & Hs & _).
    apply (lands_ready _ _ _ _ Rd L).
    eapply in_range_Qeq; [symmetry; exact Hs|apply clamp_in_range].
  - by apply handlePointerDown_ready.
  - by apply handlePointerMove_ready.
  - by apply handlePointerUp_ready.
  - destruct (zoomIn_lands w v Hv Hr) as (v' & w' & L & Hs & _).
    apply (lands_ready _ _ _ _ Rd L).
    eapply in_range_Qeq; [symmetry; exact Hs|by apply zoomIn_scale_in_range].
  - destruct (zoomOut_lands w v Hv Hr) as (v' & w' & L & Hs & _).
    apply (lands_ready _ _ _ _ Rd L).
    eapply in_range_Qeq; [symmetry; exact Hs|by apply zoomOut_scale_in_range].
  - destruct (reset_lands w v Hv) as (w' & L).
    apply (lands_ready _ _ _ _ Rd L). unfold in_range. cbn [Viewport.scale]. in_Q. lra.
  - destruct (pan_lands w v dx dy Hv) as (w' & L).
    by apply (lands_ready _ _ _ _ Rd L).
  - destruct (zoomTo_lands w v s c Hv) as (v' & w' & L & _ & Hs & _).
    apply (lands_ready _ _ _ _ Rd L). rewrite Hs. apply clamp_in_range.
  - destruct (fitToContent_lands w v b pd Hv Hr) as (v' & w' & L & Hs).
    by apply (lands_ready _ _ _ _ Rd L).
Qed.

Lemma session_ready l w :
  ready w -> Forall defined l ->
  exists w', runs_to (session l) w w' /\ ready w' /\ same_page w w'.
Proof.
  revert w. induction l as [|a l IH]; intros w Rd Df.
  - exists w. split; [done|]. split; [done|apply same_page_refl].
  - apply Forall_cons in Df as [Da Dl].
    destruct (perform_ready a w Rd Da) as (w1 & R1 & Rd1 & P1).
    destruct (IH w1 Rd1 Dl) as (w2 & R2 & Rd2 & P2).
    exists w2. split; [|split; [done|by apply same_page_trans with w1]].
    unfold runs_to, session. cbn [forEach].
    rewrite (bind_runs _ _ _ _ _ R1). exact R2.
Qed.

Lemma perform_scale_ok a w :
  scale_ok w -> viewport_operation a -> defined a ->
  exists w', runs_to (perform a) w w' /\ scale_ok w'.
Proof.
  intros (v & Hv & Hr) Op Df.
  assert (forall m v' w', lands m w v' w' -> in_range (Viewport.scale v') ->
            exists w', runs_to m w w' /\ scale_ok w') as Done.
  { intros m v' w' (R & V & _) Hr'. exists w'. split; [done|]. by exists v'. }
  destruct a as [e|e|e| | | | |dx dy|s c|b pd]; cbn [perform]; try done.
  - destruct (handleWheel_lands w v e Hv Hr) as (v' & w' & L & Hs & _).
    apply (Done _ _ _ L).
    eapply in_range_Qeq; [symmetry; exact Hs|apply clamp_in_range].
  - destruct (zoomIn_lands w v Hv Hr) as (v' & w' & L & Hs & _).
    apply (Done _ _ _ L).
    eapply in_range_Qeq; [symmetry; exact Hs|by apply zoomIn_scale_in_range].
  - destruct (zoomOut_lands w v Hv Hr) as (v' & w' & L & Hs & _).
    apply (Done _ _ _ L).
    eapply in_range_Qeq; [symmetry; exact Hs|by apply zoomOut_scale_in_range].
  - destruct (reset_lands w v Hv) as (w' & L).
    apply (Done _ _ _ L). unfold in_range. cbn [Viewport.scale]. in_Q. lra.
  - destruct (pan_lands w v dx dy Hv) as (w' & L). by apply (Done _ _ _ L).
  - destruct (zoomTo_lands w v s c Hv) as (v' & w' & L & _ & Hs & _).
    apply (Done _ _ _ L). rewrite Hs. apply clamp_in_range.
  - destruct (fitToContent_lands w v b pd Hv Hr) as (v' & w' & L & Hs).
    by apply (Done _ _ _ L).
Qed.

Lemma session_scale_ok l w :
  scale_ok w -> Forall viewport_operation l -> Forall defined l ->
  exists w', runs_to (session l) w w' /\ scale_ok w'.
Proof.
  revert w. induction l as [|a l IH]; intros w Ok Ops Df.
  - by exists w.
  - apply Forall_cons in Ops as [Oa Ol]. apply Forall_cons in Df as [Da Dl].
    destruct (perform_scale_ok a w Ok Oa Da) as (w1 & R1 & Ok1).
    destruct (IH w1 Ok1 Ol Dl) as (w2 & R2 & Ok2).
    exists w2. split; [|done].
    unfold runs_to, session. cbn [forEach].
    rewrite (bind_runs _ _ _ _ _ R1). exact R2.
Qed.

Lemma world0_viewport : viewport_of (num := Q) world0 = Some (Viewport.mk 0 0 1).
Proof. reflexivity. Qed.

Lemma world0_ready : ready world0.
Proof.
  split.
  - exists (Viewport.mk 0 0 1). split; [reflexivity|].
    unfold in_range. cbn [Viewport.scale]. in_Q. lra.
  - exists (Point.mk 0 0). reflexivity.
Qed.

(** C1. Zoom pivot invariance. From a viewport whose scale is within
    [MIN_SCALE, MAX_SCALE], a wheel zoom (pivot: the pointer position)
    and a [zoomTo] to any scale (pivot: the given centre, by default the
    canvas centre) complete, and the world coordinate shown at the
    pivot, [(p - offset) / scale], is the same number under the new
    viewport as under the old one. Over exact arithmetic. *)
Theorem zoom_keeps_pivot_fixed (w : World Q) (v : Viewport Q) :
  viewport_of w = Some v ->
  in_range (Viewport.scale v) ->
  measurable (canvas (app w)) ->
  (forall event : WheelEvent Q,
     let p := mouse_position (canvas (app w)) event in
     exists v' w',
       runs_to (handleWheel event) w w'
       /\ viewport_of w' = Some v'
       /\ Peq (to_world v' p) (to_world v p))
  /\ (forall (scale : Q) (center : option (Point Q)),
        let p := zoomTo_pivot (canvas (app w)) center in
        exists v' w',
          runs_to (zoomTo scale center) w w'
          /\ viewport_of w' = Some v'
          /\ Peq (to_world v' p) (to_world v p)).
Proof.
  intros Hv Hr _. split.
  - intros event p.
    destruct (handleWheel_lands w v event Hv Hr) as (v' & w' & L & _ & Hp).
    exists v', w'. destruct L as (R & V & _). auto.
  - intros scale center p.
    destruct (zoomTo_lands w v scale center Hv) as (v' & w' & L & _ & _ & Hp).
    exists v', w'. destruct L as (R & V & _). auto.
Qed.

Lemma zoom_keeps_pivot_fixed_witness :
  (forall event : WheelEvent Q,
     let p := mouse_position (canvas (app world0)) event in
     exists v' w',
       runs_to (handleWheel event) world0 w'
       /\ viewport_of w' = Some v'
       /\ Peq (to_world v' p) (to_world (Viewport.mk 0 0 1) p))
  /\ (forall (scale : Q) (center : option (Point Q)),
        let p := zoomTo_pivot (canvas (app world0)) center in
        exists v' w',
          runs_to (zoomTo scale center) world0 w'
          /\ viewport_of w' = Some v'
          /\ Peq (to_world v' p) (to_world (Viewport.mk 0 0 1) p)).
Proof.
  apply (zoom_keeps_pivot_fixed world0 (Viewport.mk 0 0 1)).
  - reflexivity.
  - split; discriminate.
  - split; discriminate.
Defined.

(** C2. Scale clamping. From any state whose viewport scale is within
    [MIN_SCALE, MAX_SCALE], every sequence of viewport operations
    (wheel zoom, zoomIn, zoomOut, zoomTo, fitToContent, pan, reset)
    runs to completion and leaves the scale within
    [MIN_SCALE, MAX_SCALE]; in particular any number of zoomIn calls
    leaves it at most MAX_SCALE and any number of zoomOut calls at least
    MIN_SCALE. With a last pointer position in the state the same holds
    when pointer events (drag panning) are mixed in. Over exact
    arithmetic. *)
Theorem scale_stays_clamped (w : World Q) :
  scale_ok w ->
  (forall l : list action,
     Forall viewport_operation l ->
     Forall defined l ->
     exists v' w',
       runs_to (session l) w w'
       /\ viewport_of w' = Some v'
       /\ Config.MIN_SCALE <= Viewport.scale v' <= Config.MAX_SCALE)
  /\ (forall n : nat,
        exists v' w',
          runs_to (session (repeat ZoomIn n)) w w'
          /\ viewport_of w' = Some v'
          /\ Viewport.scale v' <= Config.MAX_SCALE)
  /\ (forall n : nat,
        exists v' w',
          runs_to (session (repeat ZoomOut n)) w w'
          /\ viewport_of w' = Some v'
          /\ Config.MIN_SCALE <= Viewport.scale v')
  /\ ((exists p, state w !! "lastPointerPosition" = Some (VPoint p)) ->
      forall l : list action,
        Forall defined l ->
        exists v' w',
          runs_to (session l) w w'
          /\ viewport_of w' = Some v'
          /\ Config.MIN_SCALE <= Viewport.scale v' <= Config.MAX_SCALE).
Proof.
  intros Ok.
  assert (forall l : list action,
            Forall viewport_operation l -> Forall defined l ->
            exists v' w', runs_to (session l) w w'
                          /\ viewport_of w' = Some v'
                          /\ in_range (Viewport.scale v')) as Main.
  { intros l Ol Dl.
    destruct (session_scale_ok l w Ok Ol Dl) as (w' & R & v' & V & Hr).
    by exists v', w'. }
  assert (forall (a : action) n, viewport_operation a -> defined a ->
            Forall viewport_operation (repeat a n)
            /\ Forall defined (repeat a n)) as Rep.
  { intros a n Oa Da. split; apply Forall_forall; intros a' Ha;
      apply list_elem_of_In, repeat_spec in Ha; by subst. }
  split; [exact Main|split; [|split]].
  - intros n. destruct (Rep ZoomIn n I I) as [Ol Dl].
    destruct (Main _ Ol Dl) as (v' & w' & R & V & _ & Hhi). by exists v', w'.
  - intros n. destruct (Rep ZoomOut n I I) as [Ol Dl].
    destruct (Main _ Ol Dl) as (v' & w' & R & V & Hlo & _). by exists v', w'.
  - intros Hp l Dl.
    destruct (session_ready l w (conj Ok Hp) Dl) as (w' & R & [(v' & V & Hr) _] & _).
    by exists v', w'.
Qed.

Lemma scale_stays_clamped_witness :
  exists v' w',
    runs_to (session [ZoomIn; ZoomIn; Wheel (WheelEvent.mk 10 10 (-1));
                      Pan 5 5; ZoomTo 100 None; ZoomOut; Reset;
                      FitToContent (Some (Bounds.mk 0 0 2000 10)) None]) world0 w'
    /\ viewport_of w' = Some v'
    /\ Config.MIN_SCALE <= Viewport.scale v' <= Config.MAX_SCALE.
Proof.
  destruct (scale_stays_clamped world0 (proj1 world0_ready)) as [Sessions _].
  apply Sessions.
  - repeat constructor.
  - repeat constructor; discriminate.
Defined.

(** C8. Zoom round trip. From scale 1 and offset (0, 0), a zoom toward
    the pivot (400, 300) by factor 1.2 followed by a zoom toward the
    same pivot by factor 1/1.2 leaves scale 1 and offset (0, 0): as
    numbers over exact arithmetic from any such state, and bit for bit
    in binary64 on a fresh page. *)
Theorem zoom_round_trip :
  (forall (w : World Q) (v : Viewport Q),
     viewport_of w = Some v ->
     Veq v (Viewport.mk 0 0 1) ->
     exists v2 w1 w2,
       runs_to (zoom_by (12 # 10) (Point.mk 400 300)) w w1
       /\ runs_to (zoom_by (1 / (12 # 10)) (Point.mk 400 300)) w1 w2
       /\ viewport_of w2 = Some v2
       /\ Veq v2 (Viewport.mk 0 0 1))
  /\ (exists w1 w2 : World float,
        runs_to (zoom_by (lit (12 # 10)) (Point.mk (lit 400) (lit 300))) world0 w1
        /\ runs_to (zoom_by (lit 1 / lit (12 # 10))%js
                            (Point.mk (lit 400) (lit 300))) w1 w2
        /\ viewport_of w2 = Some (Viewport.mk 0%float 0%float 1%float)).
Proof.
  split.
  - intros w [x y s] Hv (Hx & Hy & Hs). cbn in Hx, Hy, Hs.
    destruct (zoomTo_lands w _ (s * (12 # 10)) (Some (Point.mk 400 300)) Hv)
      as (v1 & w1 & (R1 & V1 & _) & E1 & _).
    destruct (zoomTo_lands w1 v1 (Viewport.scale v1 * (1 / (12 # 10)))
                (Some (Point.mk 400 300)) V1)
      as (v2 & w2 & (R2 & V2 & _) & E2 & _).
    exists v2, w1, w2. split; [|split; [|split]].
    + unfold runs_to. rewrite (zoom_by_unfold _ _ _ _ Hv). exact R1.
    + unfold runs_to. rewrite (zoom_by_unfold _ _ _ _ V1). exact R2.
    + exact V2.
    + assert (clamp (s * (12 # 10)) == 12 # 10) as C1.
      { rewrite clamp_id; [rewrite Hs; reflexivity|].
        unfold in_range. in_Q. rewrite Hs. split; discriminate. }
      subst v1. cbn [Viewport.spread about Viewport.px Viewport.py
                     Viewport.pscale Viewport.x Viewport.y Viewport.scale
                     default zoomTo_pivot Point.x Point.y] in E2.
      in_Q.
      assert (clamp (clamp (s * (12 # 10)) * (1 / (12 # 10))) == 1) as C2.
      { rewrite clamp_id; [rewrite C1; reflexivity|].
        unfold in_range. in_Q. rewrite C1. split; discriminate. }
      subst v2. unfold Veq. cbn. in_Q.
      rewrite C2, C1, Hx, Hy, Hs. repeat split; reflexivity.
  - eexists _, _. split; [|split].
    + vm_compute. reflexivity.
    + vm_compute. reflexivity.
    + vm_compute. reflexivity.
Qed.

Lemma zoom_round_trip_witness :
  exists v2 w1 w2,
    runs_to (zoom_by (12 # 10) (Point.mk 400 300)) world0 w1
    /\ runs_to (zoom_by (1 / (12 # 10)) (Point.mk 400 300)) w1 w2
    /\ viewport_of w2 = Some v2
    /\ Veq v2 (Viewport.mk 0 0 1).
Proof.
  apply (proj1 zoom_round_trip world0 (Viewport.mk 0 0 1)).
  - reflexivity.
  - repeat split.
Defined.

(** C10. The zoom steps are not inverse to each other. Away from the
    clamp bounds, one wheel zoom-in (factor 1.1) followed by one wheel
    zoom-out (factor 0.9) leaves 0.99 times the original scale, and one
    zoomIn (factor 1.2) followed by one zoomOut (factor 0.8) leaves 0.96
    times the original scale; neither restores it. Over exact
    arithmetic. *)
Theorem zoom_steps_not_inverse (w : World Q) (v : Viewport Q) :
  viewport_of w = Some v ->
  in_range (Viewport.scale v) ->
  (forall zoom_in zoom_out : WheelEvent Q,
     (WheelEvent.deltaY zoom_in >? lit 0)%js = false ->
     (WheelEvent.deltaY zoom_out >? lit 0)%js = true ->
     Viewport.scale v * (11 # 10) <= Config.MAX_SCALE ->
     Config.MIN_SCALE <= Viewport.scale v * (99 # 100) ->
     exists v2 w1 w2,
       runs_to (handleWheel zoom_in) w w1
       /\ runs_to (handleWheel zoom_out) w1 w2
       /\ viewport_of w2 = Some v2
       /\ Viewport.scale v2 == (99 # 100) * Viewport.scale v
       /\ ~ Viewport.scale v2 == Viewport.scale v)
  /\ (Viewport.scale v * (12 # 10) <= Config.MAX_SCALE ->
      Config.MIN_SCALE <= Viewport.scale v * (96 # 100) ->
      exists v2 w1 w2,
        runs_to zoomIn w w1
        /\ runs_to zoomOut w1 w2
        /\ viewport_of w2 = Some v2
        /\ Viewport.scale v2 == (96 # 100) * Viewport.scale v
        /\ ~ Viewport.scale v2 == Viewport.scale v).
Proof.
  intros Hv Hr. pose proof Hr as [Hlo Hhi]. split.
  - intros zoom_in zoom_out Din Dout Hup Hdown.
    destruct (handleWheel_lands w v zoom_in Hv Hr)
      as (v1 & w1 & (R1 & V1 & _) & S1 & _).
    rewrite Din in S1.
    assert (Viewport.scale v1 == Viewport.scale v * (11 # 10)) as E1.
    { rewrite S1. apply clamp_id. unfold in_range. in_Q. lra. }
    assert (in_range (Viewport.scale v1)) as Hr1.
    { unfold in_range. rewrite E1. in_Q. lra. }
    destruct (handleWheel_lands w1 v1 zoom_out V1 Hr1)
      as (v2 & w2 & (R2 & V2 & _) & S2 & _).
    rewrite Dout in S2.
    assert (Viewport.scale v2 == Viewport.scale v1 * (9 # 10)) as E2.
    { rewrite S2. apply clamp_id. unfold in_range. in_Q. rewrite E1. lra. }
    exists v2, w1, w2. repeat (split; [done|]).
    rewrite E2, E1. in_Q. split; [ring|lra].
  - intros Hup Hdown.
    destruct (zoomIn_lands w v Hv Hr) as (v1 & w1 & (R1 & V1 & _) & S1 & _).
    assert (Viewport.scale v1 == Viewport.scale v * (12 # 10)) as E1.
    { rewrite S1. in_Q. apply Q.min_r. lra. }
    assert (in_range (Viewport.scale v1)) as Hr1.
    { unfold in_range. rewrite E1. in_Q. lra. }
    destruct (zoomOut_lands w1 v1 V1 Hr1) as (v2 & w2 & (R2 & V2 & _) & S2 & _).
    assert (Viewport.scale v2 == Viewport.scale v1 * (8 # 10)) as E2.
    { rewrite S2. in_Q. apply Q.max_r. rewrite E1. lra. }
    exists v2, w1, w2. repeat (split; [done|]).
    rewrite E2, E1. in_Q. split; [ring|lra].
Qed.

Lemma zoom_steps_not_inverse_witness :
  (exists v2 w1 w2,
     runs_to (handleWheel (WheelEvent.mk 400 300 (-100))) world0 w1
     /\ runs_to (handleWheel (WheelEvent.mk 400 300 100)) w1 w2
     /\ viewport_of w2 = Some v2
     /\ Viewport.scale v2 == (99 # 100) * 1
     /\ ~ Viewport.scale v2 == 1)
  /\ (exists v2 w1 w2,
        runs_to zoomIn world0 w1
        /\ runs_to zoomOut w1 w2
        /\ viewport_of w2 = Some v2
        /\ Viewport.scale v2 == (96 # 100) * 1
        /\ ~ Viewport.scale v2 == 1).
Proof.
  destruct (zoom_steps_not_inverse world0 (Viewport.mk 0 0 1)) as [W B].
  - reflexivity.
  - split; discriminate.
  - split.
    + apply (W (WheelEvent.mk 400 300 (-100)) (WheelEvent.mk 400 300 100));
        solve [reflexivity | discriminate].
    + apply B; discriminate.
Defined.

(** The same two round trips in binary64, on a fresh page with the
    pointer at (400, 300): the scale comes back as 0.9900000000000001
    and as 0.96. *)
Example zoom_steps_binary64 :
  (exists w1 w2 : World float,
     runs_to (handleWheel (WheelEvent.mk (lit 400) (lit 300) (lit (-100)))) world0 w1
     /\ runs_to (handleWheel (WheelEvent.mk (lit 400) (lit 300) (lit 100))) w1 w2
     /\ viewport_of w2
        = Some (Viewport.mk 3.9999999999999432%float 2.9999999999999432%float
                            0.9900000000000001%float))
  /\ (exists w1 w2 : World float,
        runs_to zoomIn world0 w1
        /\ runs_to zoomOut w1 w2
        /\ viewport_of w2 = Some (Viewport.mk 16%float 12%float 0.96%float)).
Proof.
  split.
  - eexists _, _. split; [|split].
    + vm_compute. reflexivity.
    + vm_compute. reflexivity.
    + vm_compute. reflexivity.
  - eexists _, _. split; [|split].
    + vm_compute. reflexivity.
    + vm_compute. reflexivity.
    + vm_compute. reflexivity.
Qed.

End ViewportOverQ.

(* ================================================================== *)
(** * The geometry utilities *)
(* ================================================================== *)

Section GeometryFacts.
Context {num : Type} `{!JsNumber num}.
Import Geometry.
Local Open Scope js_scope.

(** The summing loop visits the vertices in order: after a prefix
    [pre], running it over the indices of the rest adds the rest's
    coordinates one by one, as [reduce] does. *)
Lemma sum_loop_from (pre rest : list (Point num)) (sumX sumY : num) :
  fold_left (sum_step (pre ++ rest)) (seq (length pre) (length rest)) (sumX, sumY)
  = (fold_left (fun sum p => sum + Point.x p) rest sumX,
     fold_left (fun sum p => sum + Point.y p) rest sumY).
Proof.
  revert pre sumX sumY. induction rest as [|p rest IH]; intros pre sumX sumY.
  - reflexivity.
  - cbn [length seq fold_left]. unfold sum_step at 2, at_index.
    rewrite nth_middle.
    replace (pre ++ p :: rest) with ((pre ++ [p]) ++ rest)
      by (rewrite <- app_assoc; reflexivity).
    replace (S (length pre)) with (length (pre ++ [p]))
      by (rewrite length_app; cbn; lia).
    apply IH.
Qed.

Lemma sum_loop_reduce (points : list (Point num)) :
  sum_loop points = (reduce_sum Point.x points, reduce_sum Point.y points).
Proof. apply (sum_loop_from [] points). Qed.

Lemma calculateGeometricCenter_nonempty (points : list (Point num)) :
  points <> [] ->
  calculateGeometricCenter points
  = Return (Point.mk (reduce_sum Point.x points / of_nat (length points))
                     (reduce_sum Point.y points / of_nat (length points))).
Proof.
  intros Hne. unfold calculateGeometricCenter.
  destruct points as [|p points]; [done|].
  cbn [length Nat.eqb]. by rewrite sum_loop_reduce.
Qed.

(** C4. Collinear fallback. For at least 3 points, with [area] half the
    accumulated shoelace sum: when [Math.abs(area) < 1e-10] the result
    of [calculatePolygonCenter] is the very result of
    [calculateGeometricCenter] on the same list (the same operations in
    the same order, whatever the arithmetic); otherwise it is the
    accumulated moments divided by [6 * area]. *)
Theorem collinear_fallback (points : list (Point num)) :
  (3 <= length points)%nat ->
  let '(sum, momentX, momentY) := shoelace_loop points in
  let area := sum / lit 2 in
  if Math_abs area <? lit (1 # 10000000000)
  then calculatePolygonCenter points = calculateGeometricCenter points
  else calculatePolygonCenter points
       = Return (Point.mk (momentX / (lit 6 * area)) (momentY / (lit 6 * area))).
Proof.
  intros Hlen. unfold calculatePolygonCenter.
  destruct (Nat.ltb_spec (length points) 3) as [Hlt|_]; [lia|].
  destruct (shoelace_loop points) as [[sum momentX] momentY].
  destruct (_ <? _) eqn:Hsmall; [|reflexivity].
  rewrite calculateGeometricCenter_nonempty; [reflexivity|].
  intros ->. cbn in Hlen. lia.
Qed.

(** C5. Degenerate inputs. [calculatePolygonCenter] throws exactly on
    fewer than 3 points and [calculateGeometricCenter] exactly on the
    empty list, each time an [Error]; on every other input they return
    a point. *)
Theorem degenerate_input_errors (points : list (Point num)) :
  (degenerate_input (calculatePolygonCenter points) <-> (length points < 3)%nat)
  /\ (degenerate_input (calculateGeometricCenter points) <-> points = [])
  /\ ((length points < 3)%nat \/ exists p, calculatePolygonCenter points = Return p)
  /\ (points = [] \/ exists p, calculateGeometricCenter points = Return p).
Proof.
  assert ((length points < 3)%nat
          \/ exists p, calculatePolygonCenter points = Return p) as HP.
  { unfold calculatePolygonCenter.
    destruct (Nat.ltb_spec (length points) 3) as [Hlt|Hge]; [by left|right].
    destruct (shoelace_loop points) as [[sum momentX] momentY].
    destruct (_ <? _); eauto. }
  assert (points = [] \/ exists p, calculateGeometricCenter points = Return p) as HG.
  { destruct points as [|p points]; [by left|right].
    rewrite calculateGeometricCenter_nonempty by done. eauto. }
  split; [|split; [|by split]].
  - split.
    + intros [msg E]. destruct HP as [|[p Hp]]; [done|congruence].
    + intros Hlt. unfold calculatePolygonCenter.
      destruct (Nat.ltb_spec (length points) 3) as [_|Hge]; [|lia].
      by eexists.
  - split.
    + intros [msg E]. destruct HG as [|[p Hp]]; [done|congruence].
    + intros ->. by eexists.
Qed.

End GeometryFacts.

(** A collinear triangle: the fallback is taken, in binary64 as in exact
    arithmetic. *)
Lemma collinear_fallback_witness :
  Geometry.calculatePolygonCenter (num := float)
    [Config.pt 0 0; Config.pt 1 1; Config.pt 2 2]
  = Geometry.calculateGeometricCenter [Config.pt 0 0; Config.pt 1 1; Config.pt 2 2].
Proof.
  exact (collinear_fallback (num := float)
           [Config.pt 0 0; Config.pt 1 1; Config.pt 2 2] (le_n 3)).
Defined.

(** C3, as stated, fails: the centroid [calculatePolygonCenter] returns
    for the default hexagon is more than one unit away from 47.8 in x
    and from 47.0 in y. *)
Lemma hexagon_centroid_is_not_47_8_47_0 :
  exists p,
    Geometry.calculatePolygonCenter (num := Q) Config.DEFAULT_POLYGON_POINTS = Return p
    /\ 1 < Qabs (Point.x p - (478 # 10))
    /\ 1 < Qabs (Point.y p - 47).
Proof.
  eexists. split; [vm_compute; reflexivity|]. split; reflexivity.
Qed.

(** C3, amended. For the default hexagon [calculatePolygonCenter]
    returns (6320/129, 2065/43), about (48.992, 48.023): exactly so
    over exact arithmetic, and as the doubles 48.992248062015506 and
    48.02325581395349 in binary64. *)
Theorem hexagon_centroid :
  (exists p,
     Geometry.calculatePolygonCenter (num := Q) Config.DEFAULT_POLYGON_POINTS = Return p
     /\ Point.x p == 6320 # 129
     /\ Point.y p == 2065 # 43
     /\ within (1 # 1000) p (48992 # 1000) (48023 # 1000))
  /\ Geometry.calculatePolygonCenter (num := float) Config.DEFAULT_POLYGON_POINTS
     = Return (Point.mk 48.992248062015506%float 48.02325581395349%float).
Proof.
  split.
  - eexists. split; [vm_compute; reflexivity|].
    split; [reflexivity|]. split; [reflexivity|]. split; discriminate.
  - vm_compute. reflexivity.
Qed.

(* ================================================================== *)
(** * The renderers *)
(* ================================================================== *)

Section RendererFacts.
Context {num : Type} `{!JsNumber num}.
Variable getBounds : Graphics num -> Bounds num.
Import Renderers.

Lemma fold_emit_pivot {A} (f : A -> Graphics.draw num) (l : list A) (g : Graphics num) :
  Graphics.pivot (fold_left (fun g a => Graphics.emit (f a) g) l g) = Graphics.pivot g.
Proof.
  revert g. induction l as [|a l IH]; intros g; [done|].
  cbn [fold_left]. by rewrite IH.
Qed.

Lemma outline_pivot (points : list (Point num)) (g : Graphics num) :
  Graphics.pivot (outline points g) = Graphics.pivot g.
Proof.
  unfold outline. cbn [Graphics.emit Graphics.pivot].
  by rewrite (fold_emit_pivot
                (fun i => Graphics.LineTo (Point.x (Geometry.at_index points i))
                                          (Point.y (Geometry.at_index points i)))).
Qed.

Lemma drawFactory_runs (g : Graphics num) points fillColor strokeWidth strokeColor
    (w : World num) :
  exists g' w',
    drawFactory g points fillColor strokeWidth strokeColor w = (Return g', w')
    /\ Graphics.pivot g' = Graphics.pivot g
    /\ app w' = app w.
Proof.
  unfold drawFactory. destruct (length points <? 3)%nat.
  - eexists _, _. split; [reflexivity|]. by split.
  - eexists _, _. split; [reflexivity|]. split; [|done].
    destruct (lt _ _); cbn [drawFactoryDetails Graphics.emit Graphics.pivot];
      by rewrite outline_pivot.
Qed.

Lemma drawPolygon_runs (g : Graphics num) points fillColor strokeWidth strokeColor
    (w : World num) :
  exists g' w',
    drawPolygon g points fillColor strokeWidth strokeColor w = (Return g', w')
    /\ Graphics.pivot g' = Graphics.pivot g
    /\ app w' = app w.
Proof.
  unfold drawPolygon. destruct (length points <? 3)%nat.
  - eexists _, _. split; [reflexivity|]. by split.
  - eexists _, _. split; [reflexivity|]. split; [|done].
    destruct (lt _ _); cbn [Graphics.emit Graphics.pivot];
      by rewrite outline_pivot.
Qed.

Lemma addToContainer_pivot (parent : Graphics num) units :
  Graphics.pivot (addToContainer parent units) = Graphics.pivot parent.
Proof.
  unfold addToContainer. revert parent.
  induction units as [|u units IH]; intros parent; [done|].
  cbn [fold_left]. by rewrite IH.
Qed.

(** [FactoryRenderer.create] puts the pivot at the vertex average of
    its vertex list, and throws what [calculateGeometricCenter] throws. *)
Lemma factory_create_pivot (options : FactoryOptions num) (w : World num) :
  match Geometry.calculateGeometricCenter
          (default Config.FACTORY_POINTS (fo_points options)) with
  | Return center =>
      exists g w',
        factory_create getBounds options w = (Return g, w')
        /\ Graphics.pivot g = center
  | Throw e => factory_create getBounds options w = (Throw e, w)
  end.
Proof.
  unfold factory_create.
  destruct (Geometry.calculateGeometricCenter _) as [center|e]; [|reflexivity].
  edestruct (drawFactory_runs Graphics.new) as (g1 & w1 & R1 & P1 & _).
  unfold bind at 1. rewrite R1.
  destruct (default true (fo_includePBS options)), (fo_position options) as [p|];
    (eexists _, _; split; [reflexivity|]);
    cbn; rewrite ?addToContainer_pivot; by destruct center.
Qed.

(** [PolygonRenderer.create] puts the pivot at the area-weighted
    centroid of its vertex list, and throws what
    [calculatePolygonCenter] throws. *)
Lemma polygon_create_pivot (points : option (list (Point num)))
    (options : PolygonOptions num) (w : World num) :
  match Geometry.calculatePolygonCenter
          (default Config.DEFAULT_POLYGON_POINTS points) with
  | Return center =>
      exists g w',
        polygon_create points options w = (Return g, w')
        /\ Graphics.pivot g = center
  | Throw e => polygon_create points options w = (Throw e, w)
  end.
Proof.
  unfold polygon_create.
  destruct (Geometry.calculatePolygonCenter _) as [center|e]; [|reflexivity].
  edestruct (drawPolygon_runs Graphics.new) as (g1 & w1 & R1 & P1 & _).
  unfold bind at 1. rewrite R1.
  destruct (po_position options) as [p|];
    (eexists _, _; split; [reflexivity|]); cbn; by destruct center.
Qed.

End RendererFacts.

(** C7. Pivot asymmetry. [FactoryRenderer.create] sets the pivot of the
    shape it returns to the vertex average of its vertex list
    ([calculateGeometricCenter]) and [PolygonRenderer.create] to the
    area-weighted centroid of its vertex list
    ([calculatePolygonCenter]), whatever the options and the
    arithmetic; on the factory outline the two points differ: the
    vertex average is (1930/19, 1730/19), the centroid
    (212330/2319, ...). *)
Theorem pivot_asymmetry :
  (forall (num : Type) (NUM : JsNumber num) (getBounds : Graphics num -> Bounds num)
          (options : Renderers.FactoryOptions num) (w : World num),
     match Geometry.calculateGeometricCenter
             (default Config.FACTORY_POINTS (Renderers.fo_points options)) with
     | Return center =>
         exists g w',
           Renderers.factory_create getBounds options w = (Return g, w')
           /\ Graphics.pivot g = center
     | Throw e => Renderers.factory_create getBounds options w = (Throw e, w)
     end)
  /\ (forall (num : Type) (NUM : JsNumber num) (points : option (list (Point num)))
             (options : Renderers.PolygonOptions num) (w : World num),
        match Geometry.calculatePolygonCenter
                (default Config.DEFAULT_POLYGON_POINTS points) with
        | Return center =>
            exists g w',
              Renderers.polygon_create points options w = (Return g, w')
              /\ Graphics.pivot g = center
        | Throw e => Renderers.polygon_create points options w = (Throw e, w)
        end)
  /\ (exists average centroid : Point Q,
        Geometry.calculateGeometricCenter Config.FACTORY_POINTS = Return average
        /\ Geometry.calculatePolygonCenter Config.FACTORY_POINTS = Return centroid
        /\ Point.x average == 1930 # 19
        /\ Point.y average == 1730 # 19
        /\ Point.x centroid == 212330 # 2319
        /\ Point.x centroid < Point.x average).
Proof.
  split; [|split].
  - intros. apply factory_create_pivot.
  - intros. apply polygon_create_pivot.
  - eexists _, _. split; [vm_compute; reflexivity|].
    split; [vm_compute; reflexivity|]. repeat split.
Qed.

(* ================================================================== *)
(** * Scale and centre, over exact arithmetic *)
(* ================================================================== *)

Section RendererOverQ.
Local Open Scope Q_scope.
Variable getBounds : Graphics Q -> Bounds Q.
Import Renderers.

Lemma fit_factor (tw th bw bh : Q) :
  0 < bw -> 0 < bh ->
  let s := Qmin (tw / bw) (th / bh) in
  s * bw <= tw /\ s * bh <= th /\ (s * bw == tw \/ s * bh == th).
Proof.
  intros Hw Hh s.
  assert (tw / bw * bw == tw) as Ew by (field; lra).
  assert (th / bh * bh == th) as Eh by (field; lra).
  assert (s <= tw / bw) as Lw by apply Q.le_min_l.
  assert (s <= th / bh) as Lh by apply Q.le_min_r.
  split; [|split].
  - rewrite <- Ew. apply Qmult_le_compat_r; [exact Lw|lra].
  - rewrite <- Eh. apply Qmult_le_compat_r; [exact Lh|lra].
  - destruct (Q.min_spec (tw / bw) (th / bh)) as [[_ E]|[_ E]]; fold s in E.
    + left. by rewrite E.
    + right. by rewrite E.
Qed.

Lemma scaleAndCenter_runs description (graphic : Graphics Q) (containerRatio : option Q)
    (w : World Q) :
  0 < Bounds.width (getBounds graphic) ->
  0 < Bounds.height (getBounds graphic) ->
  exists g' placed w',
    scaleAndCenter getBounds description (Some graphic) containerRatio w
    = (Return (Some (g', placed)), w')
    /\ scaled_and_centered
         (screen_width (app w)) (screen_height (app w))
         (default Config.CONTAINER_SCALE_RATIO containerRatio)
         (Bounds.width (getBounds graphic)) (Bounds.height (getBounds graphic))
         g' placed
    /\ Graphics.pivot g' = Graphics.pivot graphic
    /\ Graphics.rotation g' = Graphics.rotation graphic
    /\ Graphics.path g' = Graphics.path graphic
    /\ Graphics.children g' = Graphics.children graphic
    /\ state w' = state w
    /\ app w' = app w.
Proof.
  intros Hw Hh. eexists _, _, _.
  split; [cbv [scaleAndCenter bind gets console_log modify ret]; reflexivity|].
  split; [|by repeat split].
  unfold scaled_and_centered.
  cbn [placed_scale placed_x placed_y Graphics.scale Graphics.x Graphics.y
       Graphics.set_scale Graphics.set_x Graphics.set_y
       lit add sub mul div Math_min Q_JsNumber].
  pose proof (fit_factor
                (screen_width (app w) * default Config.CONTAINER_SCALE_RATIO containerRatio)
                (screen_height (app w) * default Config.CONTAINER_SCALE_RATIO containerRatio)
                _ _ Hw Hh) as (F1 & F2 & F3).
  split; [reflexivity|]. split; [reflexivity|].
  split; [exact F1|]. split; [exact F2|]. split; [exact F3|].
  by repeat split.
Qed.

End RendererOverQ.

Section FittingTwice.
Local Open Scope Q_scope.
Variable getBounds : Graphics Q -> Bounds Q.
Import Renderers.

Lemma Qmin_scale (a b c : Q) : 0 < c -> Qmin (a / c) (b / c) == Qmin a b / c.
Proof.
  intros Hc.
  destruct (Q.min_spec a b) as [[H ->]|[H ->]].
  - apply Q.min_l. apply Qlt_le_weak. unfold Qdiv.
    apply Qmult_lt_compat_r; [by apply Qinv_lt_0_compat|exact H].
  - apply Q.min_r. unfold Qdiv.
    apply Qmult_le_compat_r; [exact H|]. apply Qlt_le_weak. by apply Qinv_lt_0_compat.
Qed.

Lemma fit_positive (tw th bw bh : Q) :
  0 < tw -> 0 < th -> 0 < bw -> 0 < bh -> 0 < Qmin (tw / bw) (th / bh).
Proof.
  intros Htw Hth Hbw Hbh.
  assert (0 < tw / bw).
  { unfold Qdiv. apply Qmult_lt_0_compat; [done|by apply Qinv_lt_0_compat]. }
  assert (0 < th / bh).
  { unfold Qdiv. apply Qmult_lt_0_compat; [done|by apply Qinv_lt_0_compat]. }
  destruct (Q.min_spec (tw / bw) (th / bh)) as [[_ ->]|[_ ->]]; done.
Qed.

(** The factor computed for a box that was already scaled by [s] is
    the factor of the unscaled box divided by [s]. *)
Lemma fit_of_scaled (tw th bw bh s : Q) :
  0 < bw -> 0 < bh -> 0 < s ->
  Qmin (tw / (bw * s)) (th / (bh * s)) == Qmin (tw / bw) (th / bh) / s.
Proof.
  intros Hbw Hbh Hs. rewrite <- Qmin_scale by done.
  assert (tw / (bw * s) == tw / bw / s) as -> by (field; lra).
  assert (th / (bh * s) == th / bh / s) as -> by (field; lra).
  reflexivity.
Qed.

Lemma fills_fit_one (cw ch r bw bh : Q) :
  0 < bw -> 0 < bh ->
  fills cw ch r (Bounds.mk 0 0 bw bh) -> Qmin (cw * r / bw) (ch * r / bh) == 1.
Proof.
  intros Hbw Hbh (Hw & Hh & Hone). cbn [Bounds.width Bounds.height] in *.
  assert (1 <= cw * r / bw) as Lw.
  { apply Qle_shift_div_l; lra. }
  assert (1 <= ch * r / bh) as Lh.
  { apply Qle_shift_div_l; lra. }
  destruct Hone as [E|E].
  - assert (cw * r / bw == 1) as Ew by (rewrite <- E; field; lra).
    rewrite Ew. apply Q.min_l. lra.
  - assert (ch * r / bh == 1) as Eh by (rewrite <- E; field; lra).
    rewrite Eh. apply Q.min_r. lra.
Qed.

Lemma div_lt_one (a b : Q) : 0 < b -> a / b < 1 -> a < b.
Proof.
  intros Hb H. apply (Qmult_lt_compat_r _ _ b Hb) in H.
  assert (a / b * b == a) as E by (field; lra). rewrite E in H. lra.
Qed.

End FittingTwice.

Section FittingAgain.
Local Open Scope Q_scope.
Variable getBounds : Graphics Q -> Bounds Q.
Import Renderers.

(** C9. [scaleAndCenter] on a shape that is already scaled. Where
    [getBounds] measures a shape as it is shown, scale included, and
    the drawing has a box of positive width and height: on a shape at
    scale 1, as [create] passes it, the call sets the factor that makes
    the shape fill the ratio of the container; given the shape again,
    as [reset] and the resize handler do, it measures the scaled box,
    finds the factor 1 and sets it as the scale, so the shape is back
    at the size of its drawing: it does not fill the ratio of the
    container (unless its drawing happens to), and it does not fit
    within it when the drawing is larger. Both calls put the origin of
    the shape at the centre of the container. Over exact arithmetic. *)
Theorem scaleAndCenter_again_undoes_the_fit (local : Bounds Q)
    (graphic : Graphics Q) (containerRatio : option Q) (w : World Q) :
  measures_shown getBounds local graphic ->
  0 < Bounds.width local -> 0 < Bounds.height local ->
  0 < screen_width (app w) -> 0 < screen_height (app w) ->
  0 < default (9 # 10) containerRatio ->
  Graphics.rotation graphic == 0 ->
  Graphics.scale graphic = Point.mk 1 1 ->
  let cw := screen_width (app w) in
  let ch := screen_height (app w) in
  let r := default (9 # 10) containerRatio in
  let fit := Qmin (cw * r / Bounds.width local) (ch * r / Bounds.height local) in
  exists g1 placed1 w1 g2 placed2 w2,
    factory_scaleAndCenter getBounds (Some graphic) containerRatio w
    = (Return (Some (g1, placed1)), w1)
    /\ factory_scaleAndCenter getBounds (Some g1) containerRatio w1
       = (Return (Some (g2, placed2)), w2)
    /\ Graphics.scale g1 = Point.mk (placed_scale placed1) (placed_scale placed1)
    /\ placed_scale placed1 == fit
    /\ fills cw ch r (getBounds g1)
    /\ Graphics.x g1 = cw / 2 /\ Graphics.y g1 = ch / 2
    /\ Graphics.scale g2 = Point.mk (placed_scale placed2) (placed_scale placed2)
    /\ placed_scale placed2 == 1
    /\ Graphics.x g2 = cw / 2 /\ Graphics.y g2 = ch / 2
    /\ Bounds.width (getBounds g2) == Bounds.width local
    /\ Bounds.height (getBounds g2) == Bounds.height local
    /\ (~ fit == 1 -> ~ fills cw ch r (getBounds g2))
    /\ (fit < 1 ->
        cw * r < Bounds.width (getBounds g2) \/ ch * r < Bounds.height (getBounds g2)).
Proof.
  intros M Hw Hh Hcw Hch Hr Rot Sc cw ch r fit.
  assert (0 < cw * r) as Htw by (apply Qmult_lt_0_compat; done).
  assert (0 < ch * r) as Hth by (apply Qmult_lt_0_compat; done).
  (* the first call, on the shape at scale 1 *)
  destruct (M graphic eq_refl eq_refl Rot) as [W0 H0]. rewrite Sc in W0, H0. cbn [Point.x Point.y] in W0, H0.
  assert (Bounds.width (getBounds graphic) == Bounds.width local) as W0' by (rewrite W0; ring).
  assert (Bounds.height (getBounds graphic) == Bounds.height local) as H0' by (rewrite H0; ring).
  destruct (scaleAndCenter_runs getBounds "厂区缩放和居中完成: 缩放比例=" graphic containerRatio w)
    as (g1 & placed1 & w1 & R1 & (S1 & F1 & L1 & L1' & E1 & X1 & Y1 & _) & _ & Rot1 & Pa1 & Ch1
        & _ & App1);
    [by rewrite W0'|by rewrite H0'|].
  fold cw ch r in F1, L1, L1', E1.
  set (s1 := placed_scale placed1) in *.
  assert (s1 == fit) as Fit1.
  { rewrite F1. unfold fit. by rewrite W0', H0'. }
  assert (0 < fit) as Hfit by (by apply fit_positive).
  assert (0 < s1) as Hs1 by (by rewrite Fit1).
  assert (Graphics.rotation g1 == 0) as Rot1' by (by rewrite Rot1).
  destruct (M g1 Pa1 Ch1 Rot1') as [W1 H1]. rewrite S1 in W1, H1. cbn [Point.x Point.y] in W1, H1.
  (* the second call, on the shape as the first call left it *)
  destruct (scaleAndCenter_runs getBounds "厂区缩放和居中完成: 缩放比例=" g1 containerRatio w1)
    as (g2 & placed2 & w2 & R2 & (S2 & F2 & _ & _ & _ & X2 & Y2 & _) & _ & Rot2 & Pa2 & Ch2
        & _ & _).
  { rewrite W1. apply Qmult_lt_0_compat; done. }
  { rewrite H1. apply Qmult_lt_0_compat; done. }
  rewrite App1 in F2, X2, Y2. fold cw ch r in F2.
  set (s2 := placed_scale placed2) in *.
  assert (s2 == 1) as One.
  { rewrite F2, W1, H1, fit_of_scaled by done.
    change (Qmin _ _) with fit. rewrite Fit1.
    assert (forall x : Q, ~ x == 0 -> x / x == 1) as Self by (intros x Hx; by field).
    apply Self. lra. }
  assert (Graphics.rotation g2 == 0) as Rot2' by (by rewrite Rot2).
  destruct (M g2) as [W2 H2]; [congruence|congruence|exact Rot2'|]. rewrite S2 in W2, H2. cbn [Point.x Point.y] in W2, H2.
  assert (Bounds.width (getBounds g2) == Bounds.width local) as W2' by (rewrite W2, One; ring).
  assert (Bounds.height (getBounds g2) == Bounds.height local) as H2' by (rewrite H2, One; ring).
  exists g1, placed1, w1, g2, placed2, w2.
  split; [exact R1|]. split; [exact R2|]. split; [exact S1|]. split; [exact Fit1|].
  split.
  { unfold fills. rewrite W0' in L1, E1. rewrite H0' in L1', E1.
    rewrite W1, H1. split; [|split].
    - by rewrite Qmult_comm.
    - by rewrite Qmult_comm.
    - destruct E1 as [E|E]; [left|right]; by rewrite Qmult_comm. }
  split; [exact X1|]. split; [exact Y1|].
  split; [exact S2|]. split; [exact One|]. split; [exact X2|]. split; [exact Y2|].
  split; [exact W2'|]. split; [exact H2'|]. split.
  - intros Hne (A & B & C). apply Hne. unfold fit.
    apply fills_fit_one; [done|done|]. unfold fills. cbn [Bounds.width Bounds.height].
    rewrite W2' in A, C. rewrite H2' in B, C. done.
  - intros Hlt. rewrite W2', H2'. unfold fit in Hlt.
    destruct (Q.min_spec (cw * r / Bounds.width local) (ch * r / Bounds.height local))
      as [[_ E]|[_ E]]; rewrite E in Hlt; [left|right].
    + by apply div_lt_one.
    + by apply div_lt_one.
Qed.

End FittingAgain.

(** A drawing of 175 x 150, the box of [FACTORY_POINTS], on the
    800 x 600 screen of [app0]: the first call sets the scale 3.6 (the
    height fills 540), the second sets 1. *)
Lemma scaleAndCenter_again_undoes_the_fit_witness :
  let getBounds := fun g : Graphics Q =>
    Bounds.mk 0 0 (175 * Point.x (Graphics.scale g)) (150 * Point.y (Graphics.scale g)) in
  exists g1 placed1 w1 g2 placed2 w2,
    Renderers.factory_scaleAndCenter getBounds (Some Graphics.new) None (world0 (num := Q))
    = (Return (Some (g1, placed1)), w1)
    /\ Renderers.factory_scaleAndCenter getBounds (Some g1) None w1
       = (Return (Some (g2, placed2)), w2)
    /\ Renderers.placed_scale placed1 == 36 # 10
    /\ Renderers.placed_scale placed2 == 1
    /\ Bounds.width (getBounds g2) == 175
    /\ Bounds.height (getBounds g2) == 150
    /\ ~ fills 800 600 (9 # 10) (getBounds g2).
Proof.
  intros getBounds.
  destruct (scaleAndCenter_again_undoes_the_fit getBounds (Bounds.mk 0 0 175 150)
              Graphics.new None world0)
    as (g1 & placed1 & w1 & g2 & placed2 & w2 & R1 & R2 & _ & F1 & _ & _ & _ & _ & F2
        & _ & _ & W2 & H2 & N & _).
  - intros g _ _ _. split; reflexivity.
  - reflexivity.
  - reflexivity.
  - reflexivity.
  - reflexivity.
  - reflexivity.
  - reflexivity.
  - reflexivity.
  - exists g1, placed1, w1, g2, placed2, w2.
    split; [exact R1|]. split; [exact R2|]. split; [rewrite F1; reflexivity|].
    split; [exact F2|]. split; [exact W2|]. split; [exact H2|].
    apply N. intros E. vm_compute in E. discriminate E.
Defined.

(* ================================================================== *)
(** * More on the state manager *)
(* ================================================================== *)

Section StateManagerMore.
Context {num : Type} `{!JsNumber num}.
Local Open Scope monad_scope.

Lemma lookup_patch_or_old (p s : State num) (k : string) :
  (p ∪ s) !! k = match p !! k with Some v => Some v | None => s !! k end.
Proof. rewrite lookup_union. by destruct (p !! k), (s !! k). Qed.

(** [reset()] writes the entries of the constructor's state other than
    the two vertex lists. *)
Lemma reset_unfold (w : World num) :
  StateManager.reset w
  = StateManager.setState
      (delete "polygonPoints" (delete "factoryPoints" StateManager.initial_state)) w.
Proof. reflexivity. Qed.

(** X1. [reset()] puts every entry the constructor sets back to its
    constructor value, except the two vertex lists [polygonPoints] and
    [factoryPoints], which keep their current value, as does every
    entry the constructor does not know. On a state whose vertex lists
    are the constructor's and that has no other entry, the result is
    the constructor's state. *)
Theorem reset_keeps_the_vertex_lists (w : World num) :
  exists w',
    runs_to StateManager.reset w w'
    /\ (forall k, k <> "polygonPoints" -> k <> "factoryPoints" ->
          is_Some (StateManager.initial_state !! k) ->
          state w' !! k = StateManager.initial_state !! k)
    /\ state w' !! "polygonPoints" = state w !! "polygonPoints"
    /\ state w' !! "factoryPoints" = state w !! "factoryPoints"
    /\ (forall k, StateManager.initial_state !! k = None ->
          state w' !! k = state w !! k)
    /\ ((forall k, k <> "polygonPoints" -> k <> "factoryPoints" ->
           StateManager.initial_state !! k = None -> state w !! k = None) ->
        state w !! "polygonPoints" = StateManager.initial_state !! "polygonPoints" ->
        state w !! "factoryPoints" = StateManager.initial_state !! "factoryPoints" ->
        state w' = StateManager.initial_state).
Proof.
  eexists. split; [unfold runs_to; rewrite reset_unfold; apply setState_run|]. cbn.
  set (patch := delete "polygonPoints" (delete "factoryPoints" StateManager.initial_state)).
  assert (forall k, k <> "polygonPoints" -> k <> "factoryPoints" ->
            patch !! k = (StateManager.initial_state (num := num)) !! k) as Hin.
  { intros k H1 H2. subst patch. by rewrite !lookup_delete_ne. }
  assert (patch !! "polygonPoints" = None) as Hpp by reflexivity.
  assert (patch !! "factoryPoints" = None) as Hfp by reflexivity.
  split; [|split; [|split; [|split]]].
  - intros k H1 H2 [v Hv]. rewrite lookup_patch_or_old, Hin, Hv; done.
  - by rewrite lookup_patch_or_old, Hpp.
  - by rewrite lookup_patch_or_old, Hfp.
  - intros k Hk. rewrite lookup_patch_or_old.
    destruct (decide (k = "polygonPoints")) as [->|H1]; [by rewrite Hpp|].
    destruct (decide (k = "factoryPoints")) as [->|H2]; [by rewrite Hfp|].
    by rewrite Hin, Hk.
  - intros Hother Hp Hf. apply map_eq. intros k. rewrite lookup_patch_or_old.
    destruct (decide (k = "polygonPoints")) as [->|H1]; [by rewrite Hpp|].
    destruct (decide (k = "factoryPoints")) as [->|H2]; [by rewrite Hfp|].
    rewrite Hin by done.
    destruct (StateManager.initial_state !! k) eqn:E; [done|].
    by apply Hother.
Qed.

Lemma toggleRotation_run (w : World num) :
  exists w',
    runs_to StateManager.toggleRotation w w'
    /\ state w' !! "isRotating"
       = Some (VBool (negb (truthy (state w !! "isRotating"))))
    /\ (forall k, k <> "isRotating" -> state w' !! k = state w !! k).
Proof.
  eexists. split.
  - unfold runs_to, StateManager.toggleRotation, StateManager.get.
    unfold bind at 1, gets at 1. apply setState_run.
  - cbn. split.
    + by rewrite lookup_patch_or_old, lookup_singleton_eq.
    + intros k Hk. by rewrite lookup_patch_or_old, lookup_singleton_ne.
Qed.

Lemma togglePBSMoveable_run (w : World num) :
  exists w',
    StateManager.togglePBSMoveable w
    = (Return (negb (truthy (state w !! "pbsMoveable"))), w')
    /\ state w' !! "pbsMoveable"
       = Some (VBool (negb (truthy (state w !! "pbsMoveable"))))
    /\ (forall k, k <> "pbsMoveable" -> state w' !! k = state w !! k).
Proof.
  eexists. split.
  - unfold StateManager.togglePBSMoveable, StateManager.get.
    unfold bind at 1, gets at 1. unfold bind at 1. rewrite setState_run.
    reflexivity.
  - cbn. split.
    + by rewrite lookup_patch_or_old, lookup_singleton_eq.
    + intros k Hk. by rewrite lookup_patch_or_old, lookup_singleton_ne.
Qed.

(** X2. [toggleRotation()] stores the negation of the truthiness of
    [isRotating], and [togglePBSMoveable()] that of [pbsMoveable], which
    it also returns; so two calls in a row give a Boolean flag its value
    back, and turn any other value into its truthiness. No other entry
    changes. *)
Theorem toggles_flip_their_flag (w : World num) :
  (exists w1 w2,
     runs_to StateManager.toggleRotation w w1
     /\ runs_to StateManager.toggleRotation w1 w2
     /\ state w1 !! "isRotating"
        = Some (VBool (negb (truthy (state w !! "isRotating"))))
     /\ state w2 !! "isRotating" = Some (VBool (truthy (state w !! "isRotating")))
     /\ (forall b, state w !! "isRotating" = Some (VBool b) ->
           state w2 !! "isRotating" = state w !! "isRotating")
     /\ (forall k, k <> "isRotating" -> state w2 !! k = state w !! k))
  /\ (exists w1 w2,
        StateManager.togglePBSMoveable w
        = (Return (negb (truthy (state w !! "pbsMoveable"))), w1)
        /\ StateManager.togglePBSMoveable w1
           = (Return (truthy (state w !! "pbsMoveable")), w2)
        /\ state w1 !! "pbsMoveable"
           = Some (VBool (negb (truthy (state w !! "pbsMoveable"))))
        /\ state w2 !! "pbsMoveable" = Some (VBool (truthy (state w !! "pbsMoveable")))
        /\ (forall b, state w !! "pbsMoveable" = Some (VBool b) ->
              state w2 !! "pbsMoveable" = state w !! "pbsMoveable")
        /\ (forall k, k <> "pbsMoveable" -> state w2 !! k = state w !! k)).
Proof.
  split.
  - destruct (toggleRotation_run w) as (w1 & R1 & F1 & O1).
    destruct (toggleRotation_run w1) as (w2 & R2 & F2 & O2).
    exists w1, w2. split; [done|]. split; [done|]. split; [done|].
    rewrite F1 in F2. cbn [truthy] in F2. rewrite negb_involutive in F2.
    split; [done|]. split.
    + intros b Hb. rewrite F2, Hb. done.
    + intros k Hk. by rewrite O2, O1.
  - destruct (togglePBSMoveable_run w) as (w1 & R1 & F1 & O1).
    destruct (togglePBSMoveable_run w1) as (w2 & R2 & F2 & O2).
    rewrite F1 in R2, F2. cbn [truthy] in R2, F2. rewrite negb_involutive in R2, F2.
    exists w1, w2. split; [done|]. split; [done|]. split; [done|].
    split; [done|]. split.
    + intros b Hb. rewrite F2, Hb. done.
    + intros k Hk. by rewrite O2, O1.
Qed.

End StateManagerMore.

Section ManagerCalls.
Context {num : Type} `{!JsNumber num}.
Local Open Scope monad_scope.

Lemma constructed_initial : constructed (StateManager.initial_state (num := num)).
Proof. split; [done|]. split; [done|]. split; [done|]. by eexists. Qed.

(** Writing entries the constructor has, other than the vertex lists,
    and a viewport in the viewport entry if any, keeps the state
    constructed. *)
Lemma constructed_union (patch s : State num) :
  constructed s ->
  (forall k, StateManager.initial_state (num := num) !! k = None -> patch !! k = None) ->
  patch !! "polygonPoints" = None ->
  patch !! "factoryPoints" = None ->
  (patch !! "viewport" = None \/ exists v, patch !! "viewport" = Some (VViewport v)) ->
  constructed (patch ∪ s).
Proof.
  intros (Hk & Hp & Hf & v & Hv) Pk Pp Pf Pv.
  split; [|split; [|split]].
  - intros k Hi. apply lookup_union_None. split; [by apply Pk|by apply Hk].
  - by rewrite lookup_union_r.
  - by rewrite lookup_union_r.
  - destruct Pv as [Pv|[v' Pv]].
    + exists v. by rewrite lookup_union_r.
    + exists v'. by apply lookup_union_Some_l.
Qed.

Lemma reset_to_initial (s : State num) :
  constructed s ->
  delete "polygonPoints" (delete "factoryPoints" StateManager.initial_state) ∪ s
  = StateManager.initial_state.
Proof.
  intros (Hk & Hp & Hf & _). apply map_eq. intros k.
  rewrite lookup_patch_or_old.
  destruct (decide (k = "polygonPoints")) as [->|H1]; [by rewrite Hp|].
  destruct (decide (k = "factoryPoints")) as [->|H2]; [by rewrite Hf|].
  rewrite !lookup_delete_ne by done.
  destruct (StateManager.initial_state !! k) eqn:E; [done|]. by apply Hk.
Qed.

(** A patch of one or two of the constructor's entries. *)
Ltac small_patch :=
  intros k Hi;
  repeat (rewrite lookup_insert_ne;
          [|intros <-; vm_compute in Hi; discriminate Hi]);
  first [ apply lookup_singleton_ne; intros <-; vm_compute in Hi; discriminate Hi
        | apply lookup_empty ].

Lemma make_constructed (c : call) (w : World num) :
  constructed (state w) ->
  exists w',
    runs_to (make c) w w'
    /\ constructed (state w')
    /\ subscribers w' = subscribers w
    /\ app w' = app w.
Proof.
  intros C. pose proof C as (_ & _ & _ & v & Hv).
  assert (forall patch : State num,
            (forall k, StateManager.initial_state (num := num) !! k = None ->
                       patch !! k = None) ->
            patch !! "polygonPoints" = None ->
            patch !! "factoryPoints" = None ->
            (patch !! "viewport" = None
             \/ exists v, patch !! "viewport" = Some (VViewport v)) ->
            exists w',
              runs_to (StateManager.setState patch) w w'
              /\ constructed (state w')
              /\ subscribers w' = subscribers w
              /\ app w' = app w) as Patch.
  { intros patch Pk Pp Pf Pv. eexists. split; [apply setState_run|]. cbn.
    split; [by apply constructed_union|done]. }
  destruct c as [| |shapeType graphic|showing dot|showing dot|p|dragging position| |unit|];
    cbn [make].
  - unfold StateManager.toggleRotation, StateManager.get, runs_to.
    unfold bind at 1, gets at 1. apply Patch; [small_patch|done|done|by left].
  - apply Patch; [small_patch|done|done|by left].
  - apply Patch; [small_patch|done|done|by left].
  - apply Patch; [small_patch|done|done|by left].
  - apply Patch; [small_patch|done|done|by left].
  - unfold StateManager.updateViewport, StateManager.get, runs_to.
    unfold bind at 1, gets at 1. rewrite Hv. cbn [StateManager.spread_viewport].
    apply Patch; [small_patch|done|done|].
    right. eexists. apply lookup_singleton_eq.
  - unfold StateManager.setDragging. destruct position as [pos|];
      (apply Patch; [small_patch|done|done|by left]).
  - destruct (Patch {[ "pbsMoveable" := VBool (negb (truthy (state w !! "pbsMoveable"))) ]})
      as (w1 & R1 & C1 & S1 & A1); [small_patch|done|done|by left|].
    eexists. split.
    + unfold runs_to, StateManager.togglePBSMoveable, StateManager.get.
      unfold bind at 1. unfold bind at 1, gets at 1. unfold bind at 1.
      rewrite R1. reflexivity.
    + cbn. done.
  - apply Patch; [small_patch|done|done|by left].
  - unfold runs_to. rewrite reset_unfold. eexists. split; [apply setState_run|]. cbn.
    split; [|done]. rewrite reset_to_initial by done. apply constructed_initial.
Qed.

(** X3. [reset()] undoes the manager's methods. From the state the
    constructor builds, after any sequence of calls of
    [toggleRotation], [resetColor], [setCurrentShape], [setCenterDot],
    [setGeometricCenterDot], [updateViewport], [setDragging],
    [togglePBSMoveable], [setDraggingPBS] and [reset], with any
    arguments, on a manager nobody has subscribed to, every call
    returns normally, and a [reset()] then leaves exactly the state the
    constructor builds; the application is not touched. *)
Theorem reset_undoes_the_methods (a : App num) (l : list call) :
  exists w1 w2,
    runs_to (forEach l make) (StateManager.constructor a) w1
    /\ runs_to StateManager.reset w1 w2
    /\ state w2 = StateManager.initial_state
    /\ app w2 = a.
Proof.
  assert (forall (l : list call) (w : World num),
            constructed (state w) ->
            exists w', runs_to (forEach l make) w w'
                       /\ constructed (state w')
                       /\ subscribers w' = subscribers w /\ app w' = app w) as Run.
  { clear l. induction l as [|c l IH]; intros w C; [by exists w|].
    destruct (make_constructed c w C) as (w1 & R1 & C1 & S1 & A1).
    destruct (IH w1 C1) as (w2 & R2 & C2 & S2 & A2).
    exists w2. split; [|split; [done|split; congruence]].
    unfold runs_to. cbn [forEach]. rewrite (bind_runs _ _ _ _ _ R1). exact R2. }
  destruct (Run l (StateManager.constructor a))
    as (w1 & R1 & C1 & S1 & A1); [apply constructed_initial|].
  eexists w1, _. split; [exact R1|].
  split; [unfold runs_to; rewrite reset_unfold; apply setState_run|]. cbn.
  split; [by apply reset_to_initial|done].
Qed.

End ManagerCalls.

Section Subscriptions.
Context {num : Type} `{!JsNumber num}.
Local Open Scope monad_scope.

Lemma remove_first_fresh (id : nat) (l : list (Subscriber num)) :
  id ∉ map sub_id l -> StateManager.remove_first id l = l.
Proof.
  induction l as [|s l IH]; intros Hid; [done|].
  cbn [StateManager.remove_first]. cbn [map] in Hid.
  apply not_elem_of_cons in Hid as [Hne Hid].
  destruct (Nat.eqb_spec (sub_id s) id) as [E|_]; [congruence|].
  by rewrite IH.
Qed.

Lemma remove_first_split (id : nat) (pre post : list (Subscriber num)) s :
  sub_id s = id -> id ∉ map sub_id pre ->
  StateManager.remove_first id (pre ++ s :: post) = pre ++ post.
Proof.
  intros Hs. induction pre as [|p pre IH]; intros Hid.
  - cbn. by rewrite Hs, Nat.eqb_refl.
  - rewrite <- !app_comm_cons. cbn [StateManager.remove_first]. cbn [map] in Hid.
    apply not_elem_of_cons in Hid as [Hne Hid].
    destruct (Nat.eqb_spec (sub_id p) id) as [E|_]; [congruence|].
    by rewrite IH.
Qed.

Lemma filter_others_fresh (id : nat) (l : list (Subscriber num)) :
  id ∉ map sub_id l -> filter (fun s => sub_id s <> id) l = l.
Proof.
  induction l as [|s l IH]; intros Hid; [done|].
  cbn [map] in Hid. apply not_elem_of_cons in Hid as [Hne Hid].
  rewrite filter_cons_True by congruence. by rewrite IH.
Qed.

Lemma remove_first_NoDup (id : nat) (l : list (Subscriber num)) :
  NoDup (map sub_id l) ->
  StateManager.remove_first id l = filter (fun s => sub_id s <> id) l.
Proof.
  induction l as [|s l IH]; intros Hnd; [done|].
  cbn [map] in Hnd. apply NoDup_cons in Hnd as [Hs Hnd].
  cbn [StateManager.remove_first].
  destruct (Nat.eqb_spec (sub_id s) id) as [E|Hne].
  - rewrite filter_cons_False by (intros H; by apply H).
    symmetry. apply filter_others_fresh. by rewrite <- E.
  - rewrite filter_cons_True by done. by rewrite IH.
Qed.

(** X4. The closure [subscribe] returns removes the first registration
    of its callback and nothing else: the subscribers before it and
    after it stay, in order; when the callback is not registered (the
    closure was already called) the list is unchanged. The call changes
    no state entry and notifies nobody. *)
Theorem unsubscribe_removes_the_first_registration
    (callback : Subscriber num) (w : World num) :
  exists w',
    runs_to (StateManager.unsubscribe callback) w w'
    /\ state w' = state w
    /\ calls w' = calls w
    /\ (sub_id callback ∉ map sub_id (subscribers w) ->
        subscribers w' = subscribers w)
    /\ (forall pre cb post,
          subscribers w = pre ++ cb :: post ->
          sub_id cb = sub_id callback ->
          sub_id callback ∉ map sub_id pre ->
          subscribers w' = pre ++ post).
Proof.
  eexists. split; [reflexivity|]. cbn.
  split; [done|]. split; [done|]. split.
  - apply remove_first_fresh.
  - intros pre cb post -> Hcb Hpre. by apply remove_first_split.
Qed.

End Subscriptions.

Section Unsubscribed.
Context {num : Type} `{!JsNumber num}.
Import Reentrant.

(** X5. A callback that has been unsubscribed is not called by the
    next [setState]. Where every callback is registered at most once
    and the other subscribers leave the manager alone while they are
    notified (they may read the state, write to the console and
    throw), after the unsubscribe closure of a callback was called the
    next [setState] calls exactly the other subscribers, once each, in
    registration order, and never that callback. *)
Theorem unsubscribed_callback_is_not_called (depth : nat) (c : nat)
    (newState : State num) (m : Manager num) :
  NoDup (map id (subscribers m)) ->
  Forall observer (filter (fun cb => id cb <> c) (subscribers m)) ->
  exists m',
    setState (S depth) newState (unsubscribe c m) = Some (Return tt, m')
    /\ subscribers (unsubscribe c m) = filter (fun cb => id cb <> c) (subscribers m)
    /\ subscribers m' = subscribers (unsubscribe c m)
    /\ state m' = newState ∪ state m
    /\ calls m'
       = calls m
         ++ map (fun cb => (id cb, newState ∪ state m, state m))
                (filter (fun cb => id cb <> c) (subscribers m))
    /\ (c ∉ map (fun call => fst (fst call))
               (map (fun cb => (id cb, newState ∪ state m, state m))
                    (filter (fun cb => id cb <> c) (subscribers m)))).
Proof.
  intros Hnd Hobs.
  assert (subscribers (unsubscribe c m) = filter (fun cb => id cb <> c) (subscribers m))
    as Hsubs by (cbn; by apply remove_first_filter).
  eexists. split; [apply setState_observers; by rewrite Hsubs|].
  split; [exact Hsubs|]. cbn [after_observers subscribers state calls set_state
                              unsubscribe set_subscribers].
  split; [done|]. split; [done|]. split; [by rewrite remove_first_filter|].
  rewrite map_map. cbn [fst].
  intros [cb [-> [Hne _]%list_elem_of_filter]]%list_elem_of_fmap. by apply Hne.
Qed.

End Unsubscribed.

(** Three subscribers, the second of which is unsubscribed; the third
    writes a line and throws. *)
Lemma unsubscribed_callback_is_not_called_witness :
  let quiet : Reentrant.Callback Q :=
    {| Reentrant.id := 1; Reentrant.body := fun _ _ => Reentrant.Returns |} in
  let gone : Reentrant.Callback Q := Reentrant.one_shot 2 in
  let loud : Reentrant.Callback Q :=
    {| Reentrant.id := 3;
       Reentrant.body := fun _ _ =>
         Reentrant.Log (ConsoleLog "changed") (Reentrant.Throws (Error "boom")) |} in
  let m : Reentrant.Manager Q :=
    {| Reentrant.state := StateManager.initial_state;
       Reentrant.subscribers := [quiet; gone; loud];
       Reentrant.calls := []; Reentrant.console := [] |} in
  exists m',
    Reentrant.setState 1 {[ "isRotating" := VBool true ]} (Reentrant.unsubscribe 2 m)
    = Some (Return tt, m')
    /\ map (fun call => fst (fst call)) (Reentrant.calls m') = [1%nat; 3%nat].
Proof.
  intros quiet gone loud m.
  destruct (unsubscribed_callback_is_not_called 0 2 {[ "isRotating" := VBool true ]} m)
    as (m' & R & _ & _ & _ & C & _).
  - cbn.
    repeat (apply NoDup_cons; split;
            [rewrite ?elem_of_cons, elem_of_nil; intuition discriminate|]).
    apply NoDup_nil_2.
  - cbn [Reentrant.subscribers m].
    rewrite filter_cons_True by (cbn; discriminate).
    rewrite filter_cons_False by (cbn; intros Hne; by apply Hne).
    rewrite filter_cons_True by (cbn; discriminate).
    rewrite filter_nil. apply Forall_cons. split; [by intros ? ?|].
    apply Forall_cons. split; [by intros ? ?|]. apply Forall_nil_2.
  - exists m'. split; [exact R|]. rewrite C. reflexivity.
Defined.

Section RunsMore.
Context {num : Type} `{!JsNumber num}.
Local Open Scope monad_scope.

Lemma render_leaves (w : World num) :
  ViewportController.render_unless_autoStart w
  = (Return tt,
     set_app {| canvas := canvas (app w);
                screen_width := screen_width (app w);
                screen_height := screen_height (app w);
                stage_position := stage_position (app w);
                stage_scale := stage_scale (app w);
                autoStart := autoStart (app w);
                ticking := ticking (app w);
                renders := if autoStart (app w) then renders (app w)
                           else S (renders (app w)) |} w).
Proof.
  unfold ViewportController.render_unless_autoStart, bind, gets.
  destruct (autoStart (app w)) eqn:E.
  - unfold ret, set_app. destruct w as [s sb c l a]; cbn in *.
    destruct a; cbn in *. by rewrite E.
  - unfold ViewportController.render, modify. by rewrite E.
Qed.

(** Storing the viewport [v'], showing it and rendering. *)
Lemma store_and_show (w : World num) (v' : Viewport num) :
  ((StateManager.setState {[ "viewport" := VViewport v' ]} ;;
    ViewportController.updateViewport ;;
    ViewportController.render_unless_autoStart) w)
  = (Return tt, committed v' w).
Proof.
  unfold bind at 1. rewrite setState_run.
  unfold bind at 1, ViewportController.updateViewport, StateManager.get.
  unfold bind at 1, gets at 1. cbn [state after_notify set_state].
  rewrite lookup_union_l' by (rewrite lookup_singleton_eq; eauto).
  rewrite lookup_singleton_eq.
  unfold bind at 1, ViewportController.the_viewport at 1, ret at 1.
  unfold ViewportController.set_stage, modify.
  rewrite render_leaves. reflexivity.
Qed.

Lemma commit_leaves (w : World num) (v : Viewport num) (p : Viewport.patch num) :
  ViewportController.viewport_of w = Some v ->
  commit p w = (Return tt, committed (Viewport.spread v p) w).
Proof.
  intros Hv. apply viewport_of_Some in Hv.
  unfold commit, StateManager.updateViewport, StateManager.get.
  unfold bind at 1. unfold bind at 1, gets at 1. rewrite Hv.
  cbn [StateManager.spread_viewport].
  apply store_and_show.
Qed.

End RunsMore.

Section Effects.
Context {num : Type} `{!JsNumber num}.
Local Open Scope monad_scope.
Import ViewportController.

Lemma committed_viewport (v' : Viewport num) (w : World num) :
  viewport_of (committed v' w) = Some v'.
Proof.
  apply viewport_of_Some. cbn.
  apply lookup_union_Some_l, lookup_singleton_eq.
Qed.

Lemma committed_frame (v' : Viewport num) (w : World num) (k : string) :
  k <> "viewport" -> state (committed v' w) !! k = state w !! k.
Proof.
  intros Hk. cbn. rewrite lookup_union_r; [done|]. by apply lookup_singleton_ne.
Qed.

Lemma committed_in_sync (v' : Viewport num) (w : World num) :
  in_sync (committed v' w).
Proof. exists v'. split; [apply committed_viewport|]. by split. Qed.

Lemma committed_same_page (v' : Viewport num) (w : World num) :
  same_page w (committed v' w).
Proof. by repeat split. Qed.

(** [stateManager.updateViewport] with all three properties stores
    them, whatever the state holds. *)
Lemma updateViewport_whole (w : World num) (x y s : num) :
  StateManager.updateViewport (Viewport.mkpatch (Some x) (Some y) (Some s)) w
  = StateManager.setState {[ "viewport" := VViewport (Viewport.mk x y s) ]} w.
Proof.
  unfold StateManager.updateViewport, StateManager.get.
  unfold bind at 1, gets at 1.
  by destruct (state w !! "viewport") as [[]|].
Qed.

Lemma reset_leaves (w : World num) :
  reset w
  = (Return tt,
     add_log (ConsoleLog "视窗已重置")
       (committed (Viewport.mk (lit 0) (lit 0) Config.DEFAULT_SCALE) w)).
Proof.
  unfold reset.
  pose proof (store_and_show w (Viewport.mk (lit 0) (lit 0) Config.DEFAULT_SCALE)) as S.
  unfold bind in *. rewrite updateViewport_whole.
  destruct (StateManager.setState _ w) as [[[]|e] w1]; [|done].
  destruct (updateViewport w1) as [[[]|e] w2]; [|done].
  destruct (render_unless_autoStart w2) as [[[]|e] w3]; [|done].
  injection S as ->. reflexivity.
Qed.

(** The patch [fitToContent] stores for the bounds [b]. *)
Lemma fitToContent_unfold (w : World num) (b : Bounds num) (padding : option num) :
  let pd := default (lit (1 # 10)) padding in
  let cw := canvas_width (canvas (app w)) in
  let ch := canvas_height (canvas (app w)) in
  let s := Math_min (cw * (lit 1 - pd * lit 2) / Bounds.width b)%js
                    (ch * (lit 1 - pd * lit 2) / Bounds.height b)%js in
  fitToContent (Some b) padding w
  = commit (Viewport.mkpatch
              (Some (cw / lit 2 - (Bounds.x b + Bounds.width b / lit 2) * s)%js)
              (Some (ch / lit 2 - (Bounds.y b + Bounds.height b / lit 2) * s)%js)
              (Some (Math_max Config.MIN_SCALE (Math_min Config.MAX_SCALE s)))) w.
Proof. reflexivity. Qed.

(** Every operation on the viewport proper either leaves the world as
    it is or stores a viewport and shows it ([reset] also logs). *)
Lemma operation_steps (a : action) (w : World num) (v : Viewport num) :
  viewport_of w = Some v ->
  match a with PointerDown _ | PointerMove _ | PointerUp => False | _ => True end ->
  perform a w = (Return tt, w)
  \/ (exists v', perform a w = (Return tt, committed v' w))
  \/ (exists v', perform a w
                 = (Return tt, add_log (ConsoleLog "视窗已重置") (committed v' w))).
Proof.
  intros Hv Op.
  destruct a as [e|e|e| | | | |dx dy|s c|[b|] pd]; cbn [perform]; try done.
  - rewrite (handleWheel_unfold w v Hv). cbv zeta.
    destruct (_ === _)%js; [by left|right; left].
    eexists. by apply commit_leaves.
  - rewrite (zoomIn_unfold w v Hv). cbv zeta.
    destruct (_ === _)%js; [by left|right; left].
    eexists. by apply commit_leaves.
  - rewrite (zoomOut_unfold w v Hv). cbv zeta.
    destruct (_ === _)%js; [by left|right; left].
    eexists. by apply commit_leaves.
  - right; right. eexists. apply reset_leaves.
  - rewrite (pan_unfold w v Hv). right; left. eexists. by apply commit_leaves.
  - rewrite (zoomTo_unfold w v Hv). right; left. eexists. by apply commit_leaves.
  - rewrite fitToContent_unfold. right; left. eexists. by apply commit_leaves.
  - by left.
Qed.

End Effects.

Section PointerEffects.
Context {num : Type} `{!JsNumber num}.
Local Open Scope monad_scope.
Import ViewportController.

(** The entries [setDragging(true, position)] writes. *)
Lemma handlePointerDown_run (event : PointerEvent num) (w : World num) :
  exists w',
    runs_to (handlePointerDown event) w w'
    /\ state w'
       = (if on_canvas (canvas (app w)) event
          then <["lastPointerPosition" := VPoint (pointer event)]>
                 {[ "isDragging" := VBool true ]} ∪ state w
          else state w)
    /\ same_page w w'
    /\ stage_position (app w') = stage_position (app w)
    /\ stage_scale (app w') = stage_scale (app w)
    /\ renders (app w') = renders (app w)
    /\ ticking (app w') = (if autoStart (app w) then ticking (app w) else true)
    /\ cursor (canvas (app w'))
       = (if on_canvas (canvas (app w)) event then Config.CURSOR_GRABBING
          else cursor (canvas (app w))).
Proof.
  unfold runs_to, handlePointerDown.
  unfold bind at 1, gets at 1.
  destruct (autoStart (app w)) eqn:Auto.
  - unfold bind at 1, ret at 1. unfold bind at 1, gets at 1.
    fold (on_canvas (canvas (app w)) event).
    destruct (on_canvas _ _); cbn [negb].
    + unfold bind at 1, StateManager.setDragging. rewrite setState_run.
      eexists. split; [reflexivity|]. cbn. rewrite ?Auto. by repeat split.
    + eexists. split; [reflexivity|]. rewrite ?Auto. by repeat split.
  - unfold bind at 1, set_ticking at 1, modify at 1. unfold bind at 1, gets at 1.
    cbn [app set_app canvas].
    fold (on_canvas (canvas (app w)) event).
    destruct (on_canvas _ _); cbn [negb].
    + unfold bind at 1, StateManager.setDragging. rewrite setState_run.
      eexists. split; [reflexivity|]. cbn. rewrite ?Auto. by repeat split.
    + eexists. split; [reflexivity|]. cbn. rewrite ?Auto. by repeat split.
Qed.

Lemma handlePointerUp_run (w : World num) :
  exists w',
    runs_to handlePointerUp w w'
    /\ state w' = {[ "isDragging" := VBool false ]} ∪ state w
    /\ same_page w w'
    /\ stage_position (app w') = stage_position (app w)
    /\ stage_scale (app w') = stage_scale (app w)
    /\ renders (app w') = renders (app w)
    /\ ticking (app w') = (if autoStart (app w) then ticking (app w) else false)
    /\ cursor (canvas (app w')) = Config.CURSOR_GRAB.
Proof.
  unfold runs_to, handlePointerUp, StateManager.setDragging.
  unfold bind at 1. rewrite setState_run.
  unfold bind at 1, set_cursor at 1, modify at 1.
  unfold bind at 1, gets at 1. cbn [app set_app autoStart after_notify set_state].
  destruct (autoStart (app w)) eqn:Auto.
  - eexists. split; [reflexivity|]. cbn. rewrite ?Auto. by repeat split.
  - eexists. split; [reflexivity|]. cbn. rewrite ?Auto. by repeat split.
Qed.

(** A pointer move outside a drag does nothing. *)
Lemma handlePointerMove_idle (event : PointerEvent num) (w : World num) :
  truthy (state w !! "isDragging") = false ->
  handlePointerMove event w = (Return tt, w).
Proof.
  intros Hd. unfold handlePointerMove, StateManager.getState.
  unfold bind at 1, gets at 1. by rewrite Hd.
Qed.

(** A pointer move during a drag adds the displacement of the pointer
    since the last event to the offset, records the new pointer
    position and shows the viewport; it does not render. *)
Lemma handlePointerMove_drags (event : PointerEvent num) (w : World num)
    (v : Viewport num) (last : Point num) :
  truthy (state w !! "isDragging") = true ->
  state w !! "lastPointerPosition" = Some (VPoint last) ->
  viewport_of w = Some v ->
  let v' := Viewport.mk
              (Viewport.x v + (PointerEvent.clientX event - Point.x last))%js
              (Viewport.y v + (PointerEvent.clientY event - Point.y last))%js
              (Viewport.scale v) in
  exists w',
    runs_to (handlePointerMove event) w w'
    /\ state w'
       = <["lastPointerPosition" := VPoint (pointer event)]>
           {[ "isDragging" := VBool true ]}
         ∪ ({[ "viewport" := VViewport v' ]} ∪ state w)
    /\ same_page w w'
    /\ stage_position (app w') = Point.mk (Viewport.x v') (Viewport.y v')
    /\ stage_scale (app w') = Point.mk (Viewport.scale v') (Viewport.scale v')
    /\ renders (app w') = renders (app w)
    /\ ticking (app w') = ticking (app w)
    /\ cursor (canvas (app w')) = cursor (canvas (app w)).
Proof.
  intros Hd Hl Hv v'. pose proof Hv as Hst. apply viewport_of_Some in Hst.
  unfold runs_to, handlePointerMove, StateManager.getState.
  unfold bind at 1, gets at 1. rewrite Hd. cbn [negb].
  rewrite Hl. unfold bind at 1, the_point at 1, ret at 1.
  rewrite Hst. unfold bind at 1, the_viewport at 1, ret at 1.
  unfold bind at 1, StateManager.updateViewport, StateManager.get.
  unfold bind at 1, gets at 1. rewrite Hst. cbn [StateManager.spread_viewport].
  rewrite setState_run.
  unfold bind at 1, StateManager.setDragging. rewrite setState_run.
  unfold updateViewport, StateManager.get. unfold bind at 1, gets at 1.
  cbn [state after_notify set_state].
  rewrite lookup_union_r by done.
  rewrite lookup_union_l' by (rewrite lookup_singleton_eq; eauto).
  rewrite lookup_singleton_eq.
  unfold bind at 1, the_viewport at 1, ret at 1.
  eexists. split; [reflexivity|]. cbn. by repeat split.
Qed.

End PointerEffects.

Section Sessions.
Context {num : Type} `{!JsNumber num}.
Local Open Scope monad_scope.
Import ViewportController.

Lemma well_formed_same_state (w w' : World num) :
  state w' = state w ->
  stage_position (app w') = stage_position (app w) ->
  stage_scale (app w') = stage_scale (app w) ->
  well_formed w -> well_formed w'.
Proof.
  intros St SP SS [(v & Hv & P & S) [p Hp]]. split.
  - exists v. rewrite SP, SS. split; [|done].
    apply viewport_of_Some. rewrite St. by apply viewport_of_Some.
  - exists p. by rewrite St.
Qed.

Lemma committed_well_formed (v' : Viewport num) (w : World num) :
  well_formed w -> well_formed (committed v' w).
Proof.
  intros [_ [p Hp]]. split; [apply committed_in_sync|].
  exists p. by rewrite committed_frame.
Qed.

Lemma perform_effects (a : action) (w : World num) :
  well_formed w ->
  exists w',
    runs_to (perform a) w w'
    /\ well_formed w'
    /\ same_page w w'
    /\ (autoStart (app w) = true ->
        renders (app w') = renders (app w) /\ ticking (app w') = ticking (app w))
    /\ (renders (app w) <= renders (app w')
        <= renders (app w) + (if pointer_event a then 0 else 1))%nat.
Proof.
  intros WF. pose proof WF as [(v & Hv & SP & SS) [p Hp]].
  destruct (pointer_event a) eqn:Pa.
  - destruct a as [e|e|e| | | | |dx dy|s c|b pd]; try discriminate; cbn [perform].
    + destruct (handlePointerDown_run e w) as (w' & R & St & Pg & P' & S' & Rn & Tk & _).
      exists w'. split; [done|]. split; [|split; [done|split; [|lia]]].
      * split.
        -- exists v. rewrite P', S'. split; [|done].
           apply viewport_of_Some. rewrite St.
           destruct (on_canvas _ _); [|by apply viewport_of_Some].
           rewrite lookup_union_r by done. by apply viewport_of_Some.
        -- rewrite St. destruct (on_canvas _ _); [|by exists p].
           eexists. apply lookup_union_Some_l, lookup_insert_eq.
      * intros Auto. rewrite Auto in Tk. done.
    + destruct (truthy (state w !! "isDragging")) eqn:Hd.
      * destruct (handlePointerMove_drags e w v p Hd Hp Hv)
          as (w' & R & St & Pg & P' & S' & Rn & Tk & _).
        exists w'. split; [done|]. split; [|split; [done|split; [done|lia]]].
        split.
        -- eexists. split; [|split; [exact P'|exact S']].
           apply viewport_of_Some. rewrite St.
           rewrite lookup_union_r by done.
           apply lookup_union_Some_l, lookup_singleton_eq.
        -- eexists. rewrite St. apply lookup_union_Some_l, lookup_insert_eq.
      * exists w. split; [by apply handlePointerMove_idle|].
        split; [done|]. split; [apply same_page_refl|]. split; [done|lia].
    + destruct (handlePointerUp_run w) as (w' & R & St & Pg & P' & S' & Rn & Tk & _).
      exists w'. split; [done|]. split; [|split; [done|split; [|lia]]].
      * split.
        -- exists v. rewrite P', S'. split; [|done].
           apply viewport_of_Some. rewrite St.
           rewrite lookup_union_r by done. by apply viewport_of_Some.
        -- exists p. rewrite St. by rewrite lookup_union_r.
      * intros Auto. rewrite Auto in Tk. done.
  - destruct (operation_steps a w v Hv) as [R|[[v' R]|[v' R]]].
    { by destruct a. }
    + exists w. split; [done|]. split; [done|]. split; [apply same_page_refl|].
      split; [done|lia].
    + exists (committed v' w). split; [done|].
      split; [by apply committed_well_formed|].
      split; [apply committed_same_page|]. cbn.
      destruct (autoStart (app w)); split; try done; lia.
    + eexists. split; [exact R|].
      split; [by apply (well_formed_same_state (committed v' w)),
                       committed_well_formed|].
      split; [apply committed_same_page|]. cbn.
      destruct (autoStart (app w)); split; try done; lia.
Qed.

Lemma session_effects (l : list action) (w : World num) :
  well_formed w ->
  exists w',
    runs_to (session l) w w'
    /\ well_formed w'
    /\ same_page w w'
    /\ (autoStart (app w) = true ->
        renders (app w') = renders (app w) /\ ticking (app w') = ticking (app w))
    /\ (renders (app w) <= renders (app w') <= renders (app w) + operations l)%nat.
Proof.
  revert w. induction l as [|a l IH]; intros w WF.
  - exists w. split; [done|]. split; [done|]. split; [apply same_page_refl|].
    split; [done|]. unfold operations. cbn. lia.
  - destruct (perform_effects a w WF) as (w1 & R1 & WF1 & P1 & A1 & N1).
    destruct (IH w1 WF1) as (w2 & R2 & WF2 & P2 & A2 & N2).
    exists w2. split; [|split; [done|split; [by apply same_page_trans with w1|split]]].
    + unfold runs_to, session. cbn [forEach].
      rewrite (bind_runs _ _ _ _ _ R1). exact R2.
    + intros Auto. destruct (A1 Auto) as [E1 T1].
      destruct A2 as [E2 T2].
      { destruct P1 as (_&_&_&_&_&_&_&_&E&_). by rewrite E. }
      by rewrite E2, T2.
    + unfold operations in *. cbn [List.filter].
      destruct (pointer_event a); cbn [negb length] in *; lia.
Qed.

Lemma getViewportInfo_run (w : World num) (v : Viewport num) :
  viewport_of w = Some v ->
  getViewportInfo w
  = (Return {| info_viewport :=
                 Viewport.mkpatch (Some (Viewport.x v)) (Some (Viewport.y v))
                                  (Some (Viewport.scale v));
               minScale := Config.MIN_SCALE;
               maxScale := Config.MAX_SCALE;
               canvasWidth := canvas_width (canvas (app w));
               canvasHeight := canvas_height (canvas (app w)) |}, w).
Proof.
  intros Hv. apply viewport_of_Some in Hv.
  unfold getViewportInfo, StateManager.get, bind, gets, ret. by rewrite Hv.
Qed.

(** X6. The stage shows the stored viewport after every call. From a
    state that holds a viewport shown on the stage and a last pointer
    position, as the constructors leave it, every sequence of controller
    calls (pointer events included) runs to completion without an
    exception, whatever the arithmetic; afterwards the stage position is
    the viewport offset, both stage scale factors are the viewport
    scale, and [getViewportInfo()] reports these same numbers with the
    scale limits and the canvas size. *)
Theorem stage_shows_the_viewport (w : World num) :
  well_formed w ->
  forall l : list action,
    exists w' v',
      runs_to (session l) w w'
      /\ viewport_of w' = Some v'
      /\ stage_position (app w') = Point.mk (Viewport.x v') (Viewport.y v')
      /\ stage_scale (app w') = Point.mk (Viewport.scale v') (Viewport.scale v')
      /\ getViewportInfo w'
         = (Return {| info_viewport :=
                        Viewport.mkpatch (Some (Viewport.x v')) (Some (Viewport.y v'))
                                         (Some (Viewport.scale v'));
                      minScale := Config.MIN_SCALE;
                      maxScale := Config.MAX_SCALE;
                      canvasWidth := canvas_width (canvas (app w));
                      canvasHeight := canvas_height (canvas (app w)) |}, w')
      /\ well_formed w'.
Proof.
  intros WF l.
  destruct (session_effects l w WF) as (w' & R & WF' & Pg & _).
  pose proof WF' as [(v' & Hv' & SP & SS) _].
  exists w', v'. split; [done|]. split; [done|]. split; [done|]. split; [done|].
  split; [|done].
  rewrite (getViewportInfo_run w' v' Hv').
  destruct Pg as (-> & -> & _). done.
Qed.

(** X7. Rendering is left to the ticker when there is one. With
    [autoStart] set, no sequence of controller calls calls [render],
    [start] or [stop]: the render count and the ticker are as before.
    Without it, the render count grows by at most one per operation on
    the viewport proper, and pointer events (drag panning) never
    render. *)
Theorem renders_only_without_autoStart (w : World num) :
  well_formed w ->
  forall l : list action,
    exists w',
      runs_to (session l) w w'
      /\ (autoStart (app w) = true ->
          renders (app w') = renders (app w) /\ ticking (app w') = ticking (app w))
      /\ (renders (app w) <= renders (app w') <= renders (app w) + operations l)%nat
      /\ (forallb pointer_event l = true -> renders (app w') = renders (app w)).
Proof.
  intros WF l.
  destruct (session_effects l w WF) as (w' & R & _ & _ & A & N).
  exists w'. split; [done|]. split; [done|]. split; [done|].
  intros Hp.
  assert (operations l = 0%nat) as E; [|lia].
  clear -Hp. unfold operations. induction l as [|a l IH]; [done|].
  cbn [forallb] in Hp. apply andb_prop in Hp as [Ha Hl].
  cbn [List.filter]. rewrite Ha. cbn [negb]. by apply IH.
Qed.

End Sessions.

Section ViewportMore.
Context {num : Type} `{!JsNumber num}.
Local Open Scope monad_scope.
Import ViewportController.

(** X8. [reset()] restores the default view from any state whatever,
    also one that holds no viewport: it completes, stores offset (0, 0)
    and the default scale, shows them on the stage, leaves every other
    entry and the page alone, and logs one line; a second [reset()]
    changes nothing more in the state or on the stage. *)
Theorem reset_restores_the_default_view (w : World num) :
  exists w' w'',
    runs_to reset w w'
    /\ viewport_of w' = Some (Viewport.mk (lit 0) (lit 0) Config.DEFAULT_SCALE)
    /\ stage_position (app w') = Point.mk (lit 0) (lit 0)
    /\ stage_scale (app w') = Point.mk Config.DEFAULT_SCALE Config.DEFAULT_SCALE
    /\ (forall k, k <> "viewport" -> state w' !! k = state w !! k)
    /\ same_page w w'
    /\ console w'
       = console w
         ++ logged (subscribers w) (state w') (state w)
         ++ [ConsoleLog "视窗已重置"]
    /\ runs_to reset w' w''
    /\ state w'' = state w'
    /\ stage_position (app w'') = stage_position (app w')
    /\ stage_scale (app w'') = stage_scale (app w').
Proof.
  eexists _, _. split; [apply reset_leaves|]. split; [apply committed_viewport|].
  split; [done|]. split; [done|].
  split; [intros k Hk; by apply committed_frame|].
  split; [apply committed_same_page|].
  split; [cbn; by rewrite <- app_assoc|].
  split; [apply reset_leaves|]. cbn.
  split; [|done].
  by rewrite (assoc_L (∪)), (idemp_L (∪)).
Qed.

End ViewportMore.

Section ViewportOverQMore.
Local Open Scope Q_scope.
Import ViewportController.

Lemma session_app (l1 l2 : list action) (w w1 : World Q) :
  runs_to (session l1) w w1 -> session (l1 ++ l2) w = session l2 w1.
Proof.
  revert w. induction l1 as [|a l1 IH]; intros w R.
  - unfold runs_to, session in R. cbn in R. by injection R as ->.
  - unfold runs_to, session in *. rewrite <- app_comm_cons. cbn [forEach] in *.
    unfold bind in *. destruct (perform a w) as [[[]|e] w0]; [|done].
    by apply IH.
Qed.

(** X9. [pan(dx, dy)] adds its arguments to the offset and leaves the
    scale alone; there is no bound on the offset. Two pans in a row
    move the offset by the sum of the displacements, as one pan by the
    sum does, and a pan followed by the opposite pan restores the
    viewport. Over exact arithmetic. *)
Theorem pan_adds_to_the_offset (w : World Q) (v : Viewport Q) (dx1 dy1 dx2 dy2 : Q) :
  viewport_of w = Some v ->
  exists w1 w2 w12 v12,
    runs_to (pan dx1 dy1) w w1
    /\ runs_to (pan dx2 dy2) w1 w2
    /\ viewport_of w1
       = Some (Viewport.mk (Viewport.x v + dx1) (Viewport.y v + dy1) (Viewport.scale v))
    /\ viewport_of w2
       = Some (Viewport.mk (Viewport.x v + dx1 + dx2) (Viewport.y v + dy1 + dy2)
                           (Viewport.scale v))
    /\ runs_to (pan (dx1 + dx2) (dy1 + dy2)) w w12
    /\ viewport_of w12 = Some v12
    /\ Veq v12 (Viewport.mk (Viewport.x v + dx1 + dx2) (Viewport.y v + dy1 + dy2)
                            (Viewport.scale v))
    /\ (dx2 == - dx1 -> dy2 == - dy1 ->
        Veq (Viewport.mk (Viewport.x v + dx1 + dx2) (Viewport.y v + dy1 + dy2)
                         (Viewport.scale v)) v).
Proof.
  intros Hv.
  destruct (pan_lands w v dx1 dy1 Hv) as (w1 & R1 & V1 & _).
  destruct (pan_lands w1 _ dx2 dy2 V1) as (w2 & R2 & V2 & _).
  destruct (pan_lands w v (dx1 + dx2) (dy1 + dy2) Hv) as (w12 & R12 & V12 & _).
  eexists w1, w2, w12, _.
  split; [done|]. split; [done|]. split; [done|]. split; [exact V2|].
  split; [done|]. split; [exact V12|]. split.
  - unfold Veq. cbn. in_Q. repeat split; ring.
  - intros Ex Ey. unfold Veq. cbn. rewrite Ex, Ey. repeat split; ring.
Qed.

Lemma on_canvas_spec (c : Canvas Q) (event : PointerEvent Q) :
  on_canvas c event = true
  <-> (rect_left c <= PointerEvent.clientX event <= rect_right c
       /\ rect_top c <= PointerEvent.clientY event <= rect_bottom c).
Proof.
  assert (forall a b : Q, ge a b = true <-> b <= a) as Hge.
  { intros a b. unfold ge. cbn. unfold Qltb.
    rewrite orb_true_iff, negb_true_iff, Qeq_bool_iff.
    destruct (Qle_bool a b) eqn:E.
    - apply Qle_bool_iff in E. split; [intros [|]; [done|lra]|].
      intros Hba. right. lra.
    - assert (~ a <= b) as N by (intros L; apply Qle_bool_iff in L; congruence).
      split; [intros _; lra | by left]. }
  assert (forall a b : Q, le a b = true <-> a <= b) as Hle.
  { intros a b. unfold le. cbn. unfold Qltb.
    rewrite orb_true_iff, negb_true_iff, Qeq_bool_iff.
    destruct (Qle_bool b a) eqn:E.
    - apply Qle_bool_iff in E. split; [intros [|]; [done|lra]|].
      intros Hba. right. lra.
    - assert (~ b <= a) as N by (intros L; apply Qle_bool_iff in L; congruence).
      split; [intros _; lra | by left]. }
  unfold on_canvas. rewrite !andb_true_iff, !Hge, !Hle. tauto.
Qed.

Lemma last_cons {A} (a : A) (l : list A) (d : A) :
  List.last (a :: l) d = List.last l a.
Proof.
  revert a d. induction l as [|b l IH]; intros a d; [done|].
  change (List.last (b :: l) d = List.last (b :: l) a). by rewrite !IH.
Qed.

(** The pointer moves of a drag, one after the other. *)
Lemma moves_telescope (moves : list (PointerEvent Q)) (w : World Q)
    (v : Viewport Q) (last : Point Q) :
  truthy (state w !! "isDragging") = true ->
  state w !! "lastPointerPosition" = Some (VPoint last) ->
  viewport_of w = Some v ->
  exists w' v',
    runs_to (session (map PointerMove moves)) w w'
    /\ viewport_of w' = Some v'
    /\ Viewport.x v' == Viewport.x v + (Point.x (List.last (map pointer moves) last) - Point.x last)
    /\ Viewport.y v' == Viewport.y v + (Point.y (List.last (map pointer moves) last) - Point.y last)
    /\ Viewport.scale v' = Viewport.scale v
    /\ truthy (state w' !! "isDragging") = true
    /\ state w' !! "lastPointerPosition"
       = Some (VPoint (List.last (map pointer moves) last)).
Proof.
  revert w v last. induction moves as [|e moves IH]; intros w v last Hd Hl Hv.
  - exists w, v. split; [done|]. split; [done|]. cbn.
    split; [ring|]. split; [ring|]. done.
  - destruct (handlePointerMove_drags e w v last Hd Hl Hv)
      as (w1 & R1 & St1 & _).
    cbv zeta in St1.
    set (v1 := Viewport.mk _ _ _) in St1.
    assert (viewport_of w1 = Some v1) as Hv1.
    { apply viewport_of_Some. rewrite St1. rewrite lookup_union_r by done.
      apply lookup_union_Some_l, lookup_singleton_eq. }
    assert (state w1 !! "lastPointerPosition" = Some (VPoint (pointer e))) as Hl1.
    { rewrite St1. apply lookup_union_Some_l, lookup_insert_eq. }
    assert (state w1 !! "isDragging" = Some (VBool true)) as Hd1'.
    { rewrite St1. apply lookup_union_Some_l.
      rewrite lookup_insert_ne by done. apply lookup_singleton_eq. }
    assert (truthy (state w1 !! "isDragging") = true) as Hd1 by by rewrite Hd1'.
    destruct (IH w1 v1 (pointer e) Hd1 Hl1 Hv1)
      as (w' & v' & R & V & X & Y & S & D & L).
    exists w', v'. split.
    { unfold runs_to, session. cbn [map forEach].
      rewrite (bind_runs _ _ _ _ _ R1). exact R. }
    split; [done|].
    cbn [map]. rewrite last_cons. split; [|split; [|split; [done|split; [done|done]]]].
    + rewrite X. subst v1. cbn. in_Q. ring.
    + rewrite Y. subst v1. cbn. in_Q. ring.
Qed.

End ViewportOverQMore.

Section Gestures.
Local Open Scope Q_scope.
Import ViewportController.

(** X10. Dragging moves the scene by the displacement of the pointer.
    A pointer-down within the canvas rectangle (borders included)
    followed by any pointer moves and a pointer-up runs to completion
    and leaves the offset moved by (last pointer position - position of
    the pointer-down), in client pixels, with the scale untouched, the
    drag ended and the last pointer position recorded. After a
    pointer-down outside the rectangle, with no drag under way, the
    moves change nothing in the viewport. Over exact arithmetic. *)
Theorem drag_moves_by_the_pointer_displacement
    (w : World Q) (v : Viewport Q)
    (start : PointerEvent Q) (moves : list (PointerEvent Q)) :
  viewport_of w = Some v ->
  let final := List.last (map pointer moves) (pointer start) in
  (on_canvas (canvas (app w)) start = true
   <-> (rect_left (canvas (app w)) <= PointerEvent.clientX start
          <= rect_right (canvas (app w))
        /\ rect_top (canvas (app w)) <= PointerEvent.clientY start
          <= rect_bottom (canvas (app w))))
  /\ (on_canvas (canvas (app w)) start = true ->
      exists w' v',
        runs_to (session (drag start moves)) w w'
        /\ viewport_of w' = Some v'
        /\ Viewport.x v' == Viewport.x v + (Point.x final - PointerEvent.clientX start)
        /\ Viewport.y v' == Viewport.y v + (Point.y final - PointerEvent.clientY start)
        /\ Viewport.scale v' = Viewport.scale v
        /\ state w' !! "isDragging" = Some (VBool false)
        /\ state w' !! "lastPointerPosition" = Some (VPoint final))
  /\ (on_canvas (canvas (app w)) start = false ->
      truthy (state w !! "isDragging") = false ->
      exists w',
        runs_to (session (drag start moves)) w w'
        /\ viewport_of w' = Some v
        /\ state w' !! "lastPointerPosition" = state w !! "lastPointerPosition").
Proof.
  intros Hv final. split; [apply on_canvas_spec|].
  destruct (handlePointerDown_run start w) as (w1 & R1 & St1 & _).
  assert (forall w2 w3, runs_to (session (map PointerMove moves)) w1 w2 ->
            runs_to handlePointerUp w2 w3 ->
            runs_to (session (drag start moves)) w w3) as Glue.
  { intros w2 w3 R2 R3. unfold runs_to, drag, session. cbn [forEach].
    rewrite (bind_runs _ _ _ _ _ R1). fold (session (num := Q)).
    change (forEach ?l perform) with (session l).
    rewrite (session_app _ _ _ _ R2). unfold session. cbn [forEach perform].
    rewrite (bind_runs _ _ _ _ _ R3). reflexivity. }
  split.
  - intros On. rewrite On in St1.
    assert (viewport_of w1 = Some v) as Hv1.
    { apply viewport_of_Some. rewrite St1. rewrite lookup_union_r by done.
      by apply viewport_of_Some. }
    assert (state w1 !! "lastPointerPosition" = Some (VPoint (pointer start))) as Hl1.
    { rewrite St1. apply lookup_union_Some_l, lookup_insert_eq. }
    assert (state w1 !! "isDragging" = Some (VBool true)) as Hd1.
    { rewrite St1. apply lookup_union_Some_l.
      rewrite lookup_insert_ne by done. apply lookup_singleton_eq. }
    destruct (moves_telescope moves w1 v (pointer start)) as
      (w2 & v2 & R2 & V2 & X2 & Y2 & S2 & D2 & L2); [by rewrite Hd1|done|done|].
    destruct (handlePointerUp_run w2) as (w3 & R3 & St3 & _).
    exists w3, v2. split; [by apply (Glue w2)|].
    split; [|split; [exact X2|split; [exact Y2|split; [exact S2|split]]]].
    + apply viewport_of_Some. rewrite St3. rewrite lookup_union_r by done.
      by apply viewport_of_Some.
    + rewrite St3. apply lookup_union_Some_l, lookup_singleton_eq.
    + rewrite St3. rewrite lookup_union_r by done. exact L2.
  - intros Off Idle. rewrite Off in St1.
    assert (forall l w0, state w0 = state w ->
              exists w0', runs_to (session (map PointerMove l)) w0 w0'
                          /\ state w0' = state w) as Still.
    { induction l as [|e l IH]; intros w0 St0; [by exists w0|].
      destruct (IH w0 St0) as (w0' & R & St).
      exists w0'. split; [|done]. unfold runs_to, session. cbn [map forEach perform].
      rewrite (bind_runs _ _ w0 tt w0); [exact R|].
      apply handlePointerMove_idle. by rewrite St0. }
    destruct (Still moves w1 St1) as (w2 & R2 & St2).
    destruct (handlePointerUp_run w2) as (w3 & R3 & St3 & _).
    exists w3. split; [by apply (Glue w2)|]. split.
    + apply viewport_of_Some. rewrite St3, St2. rewrite lookup_union_r by done.
      by apply viewport_of_Some.
    + rewrite St3, St2. by rewrite lookup_union_r.
Qed.

End Gestures.

Lemma drag_moves_by_the_pointer_displacement_witness :
  exists w' v',
    runs_to (ViewportController.session (drag (PointerEvent.mk 100 100)
                           [PointerEvent.mk 130 90; PointerEvent.mk 160 140]))
            (world0 (num := Q)) w'
    /\ ViewportController.viewport_of w' = Some v'
    /\ Viewport.x v' == 60
    /\ Viewport.y v' == 40.
Proof.
  destruct (drag_moves_by_the_pointer_displacement
              world0 (Viewport.mk 0 0 1) (PointerEvent.mk 100 100)
              [PointerEvent.mk 130 90; PointerEvent.mk 160 140])
    as (_ & Drag & _); [reflexivity|].
  destruct Drag as (w' & v' & R & V & X & Y & _); [reflexivity|].
  exists w', v'. split; [exact R|]. split; [exact V|].
  split; [rewrite X; reflexivity | rewrite Y; reflexivity].
Defined.

Section ZoomMore.
Local Open Scope Q_scope.
Import ViewportController.

(** X11. [zoomIn()] and [zoomOut()] at the limits. With the scale
    within [MIN_SCALE, MAX_SCALE]: at MAX_SCALE [zoomIn()] returns
    without touching anything (no state change, no notification, no
    render), and below it the scale strictly grows, to at most
    MAX_SCALE; at MIN_SCALE [zoomOut()] returns without touching
    anything, and above it the scale strictly shrinks, to at least
    MIN_SCALE. Over exact arithmetic. *)
Theorem zoom_steps_stop_at_the_limits (w : World Q) (v : Viewport Q) :
  viewport_of w = Some v ->
  in_range (Viewport.scale v) ->
  (Viewport.scale v == Config.MAX_SCALE -> zoomIn w = (Return tt, w))
  /\ (Viewport.scale v < Config.MAX_SCALE ->
      exists w' v',
        runs_to zoomIn w w' /\ viewport_of w' = Some v'
        /\ Viewport.scale v < Viewport.scale v' <= Config.MAX_SCALE)
  /\ (Viewport.scale v == Config.MIN_SCALE -> zoomOut w = (Return tt, w))
  /\ (Config.MIN_SCALE < Viewport.scale v ->
      exists w' v',
        runs_to zoomOut w w' /\ viewport_of w' = Some v'
        /\ Config.MIN_SCALE <= Viewport.scale v' < Viewport.scale v).
Proof.
  intros Hv [Hlo Hhi]. in_Q.
  split; [|split; [|split]].
  - intros Hmax. rewrite (zoomIn_unfold w v Hv). cbv zeta.
    replace (_ === _)%js with true; [done|].
    symmetry. in_Q. apply Qeq_bool_iff.
    rewrite Q.min_l by lra. by symmetry.
  - intros Hlt.
    destruct (zoomIn_lands w v Hv (conj Hlo Hhi)) as (v' & w' & (R & V & _) & S & _).
    exists w', v'. split; [done|]. split; [done|]. rewrite S. in_Q.
    destruct (Q.min_spec 5 (Viewport.scale v * (12 # 10))) as [[? ->]|[? ->]]; lra.
  - intros Hmin. rewrite (zoomOut_unfold w v Hv). cbv zeta.
    replace (_ === _)%js with true; [done|].
    symmetry. in_Q. apply Qeq_bool_iff.
    rewrite Q.max_l by lra. by symmetry.
  - intros Hgt.
    destruct (zoomOut_lands w v Hv (conj Hlo Hhi)) as (v' & w' & (R & V & _) & S & _).
    exists w', v'. split; [done|]. split; [done|]. rewrite S. in_Q.
    destruct (Q.max_spec (1 # 10) (Viewport.scale v * (8 # 10))) as [[? ->]|[? ->]]; lra.
Qed.

(** X12. [zoomTo] toward one pivot composes: from a viewport with a
    scale within [MIN_SCALE, MAX_SCALE], a [zoomTo(s1, c)] followed by
    a [zoomTo(s2, c)] leaves the viewport a single [zoomTo(s2, c)]
    leaves; in particular repeating a [zoomTo] changes nothing. Over
    exact arithmetic. *)
Theorem zoomTo_twice (w : World Q) (v : Viewport Q) (s1 s2 : Q)
    (center : option (Point Q)) :
  viewport_of w = Some v ->
  in_range (Viewport.scale v) ->
  exists w1 w2 w' v2 v',
    runs_to (zoomTo s1 center) w w1
    /\ runs_to (zoomTo s2 center) w1 w2
    /\ runs_to (zoomTo s2 center) w w'
    /\ viewport_of w2 = Some v2
    /\ viewport_of w' = Some v'
    /\ Veq v2 v'
    /\ Viewport.scale v2 = clamp s2.
Proof.
  intros Hv Hr.
  destruct (zoomTo_lands w v s1 center Hv) as (v1 & w1 & L1 & E1 & S1 & _).
  pose proof L1 as (R1 & V1 & _ & P1).
  destruct (zoomTo_lands w1 v1 s2 center V1) as (v2 & w2 & (R2 & V2 & _) & E2 & S2 & _).
  destruct (zoomTo_lands w v s2 center Hv) as (v' & w' & (R' & V' & _) & E' & _).
  exists w1, w2, w', v2, v'. repeat (split; [done|]). split; [|done].
  assert (zoomTo_pivot (canvas (app w1)) center = zoomTo_pivot (canvas (app w)) center)
    as Epivot.
  { destruct P1 as (Ew & Eh & _). destruct center; [done|].
    cbn [zoomTo_pivot]. by rewrite Ew, Eh. }
  rewrite Epivot in E2.
  set (p := zoomTo_pivot (canvas (app w)) center) in *.
  pose proof (clamp_in_range s1) as C1. apply in_range_nonzero in C1.
  apply in_range_nonzero in Hr.
  subst v2 v' v1. unfold Veq, about. cbn. in_Q.
  split; [|split; [|reflexivity]]; field; done.
Qed.

(** X13. What [fitToContent] leaves, for content of positive width
    and height: the scale is the fitted scale clamped to
    [MIN_SCALE, MAX_SCALE], where the fitted scale is the larger one at
    which the content, scaled, fits within the canvas less the padding
    on both sides, in both directions; the offset is computed from the
    fitted scale before clamping, so the centre of the content is shown
    at the centre of the canvas when the fitted scale is within the
    limits, and off it by (content centre) x (clamped - fitted)
    otherwise. Over exact arithmetic. *)
Theorem fitToContent_centres_the_content (w : World Q) (v : Viewport Q)
    (b : Bounds Q) (padding : option Q) :
  viewport_of w = Some v ->
  0 < Bounds.width b -> 0 < Bounds.height b ->
  let cw := canvas_width (canvas (app w)) in
  let ch := canvas_height (canvas (app w)) in
  let pd := default (1 # 10) padding in
  let s := fit_scale cw ch pd (Bounds.width b) (Bounds.height b) in
  let centre := Point.mk (Bounds.x b + Bounds.width b / 2)
                         (Bounds.y b + Bounds.height b / 2) in
  exists w' v',
    runs_to (fitToContent (Some b) padding) w w'
    /\ viewport_of w' = Some v'
    /\ Viewport.scale v' = clamp s
    /\ s * Bounds.width b <= cw * (1 - pd * 2)
    /\ s * Bounds.height b <= ch * (1 - pd * 2)
    /\ (s * Bounds.width b == cw * (1 - pd * 2)
        \/ s * Bounds.height b == ch * (1 - pd * 2))
    /\ Point.x (to_screen v' centre) == cw / 2 + Point.x centre * (clamp s - s)
    /\ Point.y (to_screen v' centre) == ch / 2 + Point.y centre * (clamp s - s)
    /\ (in_range s -> Peq (to_screen v' centre) (Point.mk (cw / 2) (ch / 2))).
Proof.
  intros Hv Hw Hh cw ch pd s centre.
  pose proof (fitToContent_unfold w b padding) as U. cbv zeta in U.
  rewrite (commit_leaves w v _ Hv) in U.
  eexists _, _. split; [exact U|]. split; [apply committed_viewport|].
  cbn [Viewport.spread Viewport.px Viewport.py Viewport.pscale default
       Viewport.x Viewport.y Viewport.scale].
  split; [reflexivity|].
  pose proof (fit_factor (cw * (1 - pd * 2)) (ch * (1 - pd * 2)) _ _ Hw Hh)
    as (F1 & F2 & F3).
  split; [exact F1|]. split; [exact F2|]. split; [exact F3|].
  assert (forall c off : Q, c * clamp s + (off - c * s) == off + c * (clamp s - s)) as A
    by (intros; ring).
  split; [apply A|]. split; [apply A|].
  intros Hr. unfold Peq, to_screen; cbn [Point.x Point.y Viewport.x Viewport.y Viewport.scale].
  split.
  - etransitivity; [apply A|]. rewrite (clamp_id s Hr). in_Q. subst cw ch. field.
  - etransitivity; [apply A|]. rewrite (clamp_id s Hr). in_Q. subst cw ch. field.
Qed.

End ZoomMore.

Lemma world0_well_formed {num : Type} `{!JsNumber num} : well_formed (world0 (num := num)).
Proof.
  split.
  - exists (Viewport.mk (lit 0) (lit 0) Config.DEFAULT_SCALE). by repeat split.
  - by exists (Point.mk (lit 0) (lit 0)).
Qed.

(** In binary64, through a zoom, a drag, a wheel zoom and a fit to
    content of zero size (whose scale is not a number). *)
Lemma stage_shows_the_viewport_witness :
  exists (w' : World float) v',
    runs_to (ViewportController.session
               [ViewportController.ZoomIn;
                ViewportController.PointerDown (PointerEvent.mk (lit 10) (lit 10));
                ViewportController.PointerMove (PointerEvent.mk (lit 30) (lit 5));
                ViewportController.PointerUp;
                ViewportController.Wheel (WheelEvent.mk (lit 100) (lit 100) (lit 1));
                ViewportController.FitToContent
                  (Some (Bounds.mk (lit 0) (lit 0) (lit 0) (lit 0))) None])
            world0 w'
    /\ ViewportController.viewport_of w' = Some v'
    /\ stage_position (app w') = Point.mk (Viewport.x v') (Viewport.y v')
    /\ stage_scale (app w') = Point.mk (Viewport.scale v') (Viewport.scale v').
Proof.
  destruct (stage_shows_the_viewport world0 world0_well_formed
              [ViewportController.ZoomIn;
               ViewportController.PointerDown (PointerEvent.mk (lit 10) (lit 10));
               ViewportController.PointerMove (PointerEvent.mk (lit 30) (lit 5));
               ViewportController.PointerUp;
               ViewportController.Wheel (WheelEvent.mk (lit 100) (lit 100) (lit 1));
               ViewportController.FitToContent
                 (Some (Bounds.mk (lit 0) (lit 0) (lit 0) (lit 0))) None])
    as (w' & v' & R & V & P & S & _).
  exists w', v'. split; [exact R|]. split; [exact V|]. split; [exact P|exact S].
Defined.

Lemma renders_only_without_autoStart_witness :
  exists w' : World Q,
    runs_to (ViewportController.session
               [ViewportController.ZoomIn;
                ViewportController.PointerDown (PointerEvent.mk 10 10);
                ViewportController.PointerMove (PointerEvent.mk 30 5);
                ViewportController.PointerUp;
                ViewportController.Pan 5 5])
            world0 w'
    /\ (renders (app w') <= 2)%nat.
Proof.
  destruct (renders_only_without_autoStart world0 world0_well_formed
              [ViewportController.ZoomIn;
               ViewportController.PointerDown (PointerEvent.mk 10 10);
               ViewportController.PointerMove (PointerEvent.mk 30 5);
               ViewportController.PointerUp;
               ViewportController.Pan 5 5])
    as (w' & R & _ & N & _).
  exists w'. split; [exact R|]. exact (proj2 N).
Defined.

Lemma pan_adds_to_the_offset_witness :
  exists w1 w2 : World Q,
    runs_to (ViewportController.pan 10 (-50)) world0 w1
    /\ runs_to (ViewportController.pan (-10) 50) w1 w2
    /\ ViewportController.viewport_of w2
       = Some (Viewport.mk (0 + 10 + -10) (0 + -50 + 50) 1).
Proof.
  destruct (pan_adds_to_the_offset world0 (Viewport.mk 0 0 1) 10 (-50) (-10) 50)
    as (w1 & w2 & _ & _ & R1 & R2 & _ & V2 & _); [reflexivity|].
  exists w1, w2. split; [exact R1|]. split; [exact R2|exact V2].
Defined.

Lemma zoom_steps_stop_at_the_limits_witness :
  exists w' v',
    runs_to ViewportController.zoomIn (world0 (num := Q)) w'
    /\ ViewportController.viewport_of w' = Some v'
    /\ 1 < Viewport.scale v' <= 5.
Proof.
  destruct (zoom_steps_stop_at_the_limits world0 (Viewport.mk 0 0 1))
    as (_ & Grow & _); [reflexivity|split; discriminate|].
  apply Grow. reflexivity.
Defined.

Lemma zoomTo_twice_witness :
  exists (w1 w2 w' : World Q) v2 v',
    runs_to (ViewportController.zoomTo 3 (Some (Point.mk 100 50))) world0 w1
    /\ runs_to (ViewportController.zoomTo 2 (Some (Point.mk 100 50))) w1 w2
    /\ runs_to (ViewportController.zoomTo 2 (Some (Point.mk 100 50))) world0 w'
    /\ ViewportController.viewport_of w2 = Some v2
    /\ ViewportController.viewport_of w' = Some v'
    /\ Veq v2 v'.
Proof.
  destruct (zoomTo_twice world0 (Viewport.mk 0 0 1) 3 2 (Some (Point.mk 100 50)))
    as (w1 & w2 & w' & v2 & v' & R1 & R2 & R' & V2 & V' & E & _);
    [reflexivity|split; discriminate|].
  exists w1, w2, w', v2, v'.
  split; [exact R1|]. split; [exact R2|]. split; [exact R'|].
  split; [exact V2|]. split; [exact V'|exact E].
Defined.

(** A 400 x 100 box at (100, 50) on the 800 x 600 canvas: the fitted
    scale is 1.6, within the limits, and the centre (300, 100) of the
    box is shown at (400, 300). *)
Lemma fitToContent_centres_the_content_witness :
  exists w' v',
    runs_to (ViewportController.fitToContent (Some (Bounds.mk 100 50 400 100)) None)
            (world0 (num := Q)) w'
    /\ ViewportController.viewport_of w' = Some v'
    /\ Peq (to_screen v' (Point.mk (100 + 400 / 2) (50 + 100 / 2)))
           (Point.mk (800 / 2) (600 / 2)).
Proof.
  destruct (fitToContent_centres_the_content
              world0 (Viewport.mk 0 0 1) (Bounds.mk 100 50 400 100) None)
    as (w' & v' & R & V & _ & _ & _ & _ & _ & _ & C);
    [reflexivity|reflexivity|reflexivity|].
  exists w', v'. split; [exact R|]. split; [exact V|].
  apply C. split; discriminate.
Defined.

(* ================================================================== *)
(** * More on the geometry utilities *)
(* ================================================================== *)

Section ShoelaceEdges.
Context {num : Type} `{!JsNumber num}.
Import Geometry.
Local Open Scope js_scope.

Lemma length_rotate1 {A} (l : list A) : length (rotate1 l) = length l.
Proof. destruct l as [|a l]; [done|]. cbn. rewrite length_app. cbn. lia. Qed.

Lemma nth_rotate1 {A} (l : list A) (d : A) (i : nat) :
  (i < length l)%nat -> nth i (rotate1 l) d = nth ((i + 1) mod length l) l d.
Proof.
  destruct l as [|a l]; [cbn; lia|]. cbn [rotate1 length]. intros Hi.
  destruct (decide (i = length l)) as [->|Hne].
  - replace ((length l + 1) mod S (length l))%nat with 0%nat
      by (replace (length l + 1)%nat with (S (length l)) by lia;
          by rewrite Nat.Div0.mod_same).
    rewrite nth_middle. done.
  - rewrite Nat.mod_small by lia.
    rewrite app_nth1 by lia. replace (i + 1)%nat with (S i) by lia. done.
Qed.

Lemma fold_left_seq_ext {A} (f g : A -> nat -> A) (s n : nat) (a : A) :
  (forall i acc, (s <= i < s + n)%nat -> f acc i = g acc i) ->
  fold_left f (seq s n) a = fold_left g (seq s n) a.
Proof.
  revert s a. induction n as [|n IH]; intros s a Hfg; [done|].
  cbn [seq fold_left]. rewrite Hfg by lia. apply IH.
  intros i acc Hi. apply Hfg. lia.
Qed.

Lemma fold_left_seq_nth {A B} (g : A -> B -> A) (pre l : list B) (d : B) (a : A) :
  fold_left (fun acc i => g acc (nth i (pre ++ l) d)) (seq (length pre) (length l)) a
  = fold_left g l a.
Proof.
  revert pre a. induction l as [|b l IH]; intros pre a; [done|].
  cbn [length seq fold_left]. rewrite nth_middle.
  replace (pre ++ b :: l) with ((pre ++ [b]) ++ l)
    by (rewrite <- app_assoc; reflexivity).
  replace (S (length pre)) with (length (pre ++ [b]))
    by (rewrite length_app; cbn; lia).
  apply IH.
Qed.

(** The shoelace loop visits the edges of the polygon in order. *)
Lemma shoelace_loop_edges (points : list (Point num)) :
  shoelace_loop points = fold_left edge_step (edges points) (lit 0, lit 0, lit 0).
Proof.
  unfold shoelace_loop.
  set (d := Point.mk (lit 0) (lit 0) : Point num).
  rewrite <- (fold_left_seq_nth edge_step [] (edges points) (d, d)).
  unfold edges at 2. rewrite length_combine, length_rotate1, Nat.min_id.
  apply fold_left_seq_ext. intros i [[area cx] cy] Hi. cbn [app length] in *.
  unfold edges. rewrite app_nil_l, combine_nth by (by rewrite length_rotate1).
  rewrite nth_rotate1 by lia. reflexivity.
Qed.

End ShoelaceEdges.

Section SumsOverQ.
Local Open Scope Q_scope.
Import Geometry.

Lemma Qsum_cons (a : Q) (l : list Q) : Qsum (a :: l) = a + Qsum l.
Proof. reflexivity. Qed.

Lemma Qsum_app (l1 l2 : list Q) : Qsum (l1 ++ l2) == Qsum l1 + Qsum l2.
Proof.
  induction l1 as [|a l1 IH]; [unfold Qsum at 2; cbn [Datatypes.app fold_right]; ring|].
  rewrite <- app_comm_cons, !Qsum_cons, IH. ring.
Qed.

Lemma Qsum_map_ext {A} (f g : A -> Q) (l : list A) :
  (forall a, f a == g a) -> Qsum (map f l) == Qsum (map g l).
Proof.
  intros Hfg. induction l as [|a l IH]; [reflexivity|].
  cbn [map]. by rewrite !Qsum_cons, IH, Hfg.
Qed.

Lemma Qsum_map_plus {A} (f g : A -> Q) (l : list A) :
  Qsum (map (fun a => f a + g a) l) == Qsum (map f l) + Qsum (map g l).
Proof.
  induction l as [|a l IH]; [unfold Qsum; cbn [map fold_right]; ring|].
  cbn [map]. rewrite !Qsum_cons, IH. ring.
Qed.

Lemma Qsum_map_scale {A} (c : Q) (f : A -> Q) (l : list A) :
  Qsum (map (fun a => c * f a) l) == c * Qsum (map f l).
Proof.
  induction l as [|a l IH]; [unfold Qsum; cbn [map fold_right]; ring|].
  cbn [map]. rewrite !Qsum_cons, IH. ring.
Qed.

Lemma Qsum_map_const {A} (c : Q) (l : list A) :
  Qsum (map (fun _ => c) l) == inject_Z (Z.of_nat (length l)) * c.
Proof.
  induction l as [|a l IH]; [unfold Qsum; cbn [map fold_right length]; ring|].
  cbn [map length]. rewrite Qsum_cons, IH, Nat2Z.inj_succ.
  unfold Z.succ. rewrite inject_Z_plus. ring.
Qed.

Lemma Qsum_rev (l : list Q) : Qsum (rev l) == Qsum l.
Proof.
  induction l as [|a l IH]; [reflexivity|].
  cbn [rev]. rewrite Qsum_app, IH, !Qsum_cons. unfold Qsum. cbn [fold_right]. ring.
Qed.

Lemma Qsum_rotate1 (l : list Q) : Qsum (rotate1 l) == Qsum l.
Proof.
  destruct l as [|a l]; [reflexivity|].
  cbn [rotate1]. rewrite Qsum_app, !Qsum_cons. unfold Qsum. cbn [fold_right]. ring.
Qed.

Lemma Qsum_bounds (l : list Q) (lo hi : Q) :
  Forall (fun q => lo <= q <= hi) l ->
  inject_Z (Z.of_nat (length l)) * lo <= Qsum l
  <= inject_Z (Z.of_nat (length l)) * hi.
Proof.
  induction 1 as [|q l [Hlo Hhi] _ IH]; [change (0 * lo <= 0 <= 0 * hi); lra|].
  cbn [length]. rewrite Qsum_cons.
  rewrite Nat2Z.inj_succ. unfold Z.succ. rewrite inject_Z_plus.
  destruct IH as [IH1 IH2].
  set (n := inject_Z (Z.of_nat (length l))) in *. change (inject_Z 1) with 1.
  assert ((n + 1) * lo == n * lo + lo) as E1 by ring.
  assert ((n + 1) * hi == n * hi + hi) as E2 by ring.
  rewrite E1, E2. lra.
Qed.

(** [reduce] from 0 adds the values up. *)
Lemma reduce_sum_Qsum (f : Point Q -> Q) (points : list (Point Q)) :
  reduce_sum f points == Qsum (map f points).
Proof.
  unfold reduce_sum. cbn [lit Q_JsNumber].
  assert (forall a, fold_left (fun sum p => (sum + f p)%js) points a
                    == a + Qsum (map f points)) as G.
  { induction points as [|p points IH]; intros a.
    - unfold Qsum. cbn [map fold_right fold_left]. ring.
    - cbn [fold_left map]. rewrite Qsum_cons, IH. cbn [add Q_JsNumber]. ring. }
  rewrite G. ring.
Qed.

(** The shoelace loop accumulates the three sums. *)
Lemma edge_fold_sums (l : list (Point Q * Point Q)) (a b c : Q) :
  let '(a', b', c') := fold_left edge_step l (a, b, c) in
  a' == a + Qsum (map cross l)
  /\ b' == b + Qsum (map (fun e => (Point.x (fst e) + Point.x (snd e)) * cross e) l)
  /\ c' == c + Qsum (map (fun e => (Point.y (fst e) + Point.y (snd e)) * cross e) l).
Proof.
  revert a b c. induction l as [|[p q] l IH]; intros a b c.
  - unfold Qsum. cbn [fold_left map fold_right]. repeat split; ring.
  - cbn [fold_left edge_step map]. rewrite !Qsum_cons.
    specialize (IH (a + (Point.x p * Point.y q - Point.x q * Point.y p))%js
                   (b + (Point.x p + Point.x q)
                        * (Point.x p * Point.y q - Point.x q * Point.y p))%js
                   (c + (Point.y p + Point.y q)
                        * (Point.x p * Point.y q - Point.x q * Point.y p))%js).
    destruct (fold_left _ _ _) as [[a' b'] c'].
    destruct IH as (Ha & Hb & Hc).
    rewrite Ha, Hb, Hc. unfold cross. cbn [fst snd add sub mul Q_JsNumber].
    repeat split; ring.
Qed.

Lemma average_geometric (points : list (Point Q)) :
  points <> [] ->
  exists c, calculateGeometricCenter points = Return c /\ Peq c (average points).
Proof.
  intros Hne. rewrite calculateGeometricCenter_nonempty by done.
  eexists. split; [reflexivity|]. unfold Peq, average, of_nat. cbn.
  by rewrite !reduce_sum_Qsum.
Qed.

(** What [calculatePolygonCenter] returns for at least three vertices,
    in terms of the three sums. *)
Lemma polygon_center_sums (points : list (Point Q)) :
  (3 <= length points)%nat ->
  exists c,
    calculatePolygonCenter points = Return c
    /\ ((Qabs (area2 points / 2) < 1 # 10000000000 /\ Peq c (average points))
        \/ ((1 # 10000000000) <= Qabs (area2 points / 2)
            /\ Peq c (Point.mk (moment_x points / (6 * (area2 points / 2)))
                               (moment_y points / (6 * (area2 points / 2)))))).
Proof.
  intros Hlen. unfold calculatePolygonCenter.
  destruct (Nat.ltb_spec (length points) 3) as [Hlt|_]; [lia|].
  rewrite shoelace_loop_edges.
  pose proof (edge_fold_sums (edges points) 0 0 0) as F.
  cbn [lit Q_JsNumber].
  destruct (fold_left edge_step (edges points) (0, 0, 0)) as [[S Mx] My].
  destruct F as (HS & HMx & HMy). rewrite Qplus_0_l in HS, HMx, HMy.
  fold (area2 points) in HS. fold (moment_x points) in HMx.
  fold (moment_y points) in HMy.
  cbn [lt Math_abs div mul Q_JsNumber]. unfold Qltb.
  destruct (Qle_bool (1 # 10000000000) (Qabs (S / 2))) eqn:E; cbn [negb].
  - apply Qle_bool_iff in E. eexists. split; [reflexivity|]. right.
    split; [by rewrite <- HS|]. unfold Peq. cbn. by rewrite HS, HMx, HMy.
  - assert (~ (1 # 10000000000) <= Qabs (S / 2)) as N
      by (intros L; apply Qle_bool_iff in L; congruence).
    eexists. split; [reflexivity|]. left.
    split; [rewrite <- HS; lra|]. unfold Peq, average, of_nat. cbn.
    by rewrite !reduce_sum_Qsum.
Qed.

End SumsOverQ.

Section EdgesOfLists.
Context {A : Type}.

Lemma rotate1_map {B} (f : A -> B) (l : list A) :
  rotate1 (map f l) = map f (rotate1 l).
Proof. destruct l as [|a l]; [done|]. cbn. by rewrite map_app. Qed.

Lemma combine_snoc {B} (l1 : list A) (l2 : list B) (x : A) (y : B) :
  length l1 = length l2 ->
  combine (l1 ++ [x]) (l2 ++ [y]) = combine l1 l2 ++ [(x, y)].
Proof.
  revert l2. induction l1 as [|a l1 IH]; intros [|b l2] Hlen; try done.
  cbn in Hlen. rewrite <- !app_comm_cons. cbn [combine].
  rewrite IH by lia. done.
Qed.

Lemma combine_rev {B} (l1 : list A) (l2 : list B) :
  length l1 = length l2 ->
  combine (rev l1) (rev l2) = rev (combine l1 l2).
Proof.
  revert l2. induction l1 as [|a l1 IH]; intros [|b l2] Hlen; try done.
  cbn in Hlen. cbn [rev combine].
  rewrite combine_snoc by (rewrite !length_rev; lia).
  rewrite IH by lia. done.
Qed.

Lemma combine_swap {B} (l1 : list A) (l2 : list B) :
  map (fun e => (snd e, fst e)) (combine l1 l2) = combine l2 l1.
Proof.
  revert l2. induction l1 as [|a l1 IH]; intros [|b l2]; try done.
  cbn. by rewrite IH.
Qed.

Lemma combine_map_both {B} (f : A -> B) (l1 l2 : list A) :
  combine (map f l1) (map f l2) = map (fun e => (f (fst e), f (snd e))) (combine l1 l2).
Proof.
  revert l2. induction l1 as [|a l1 IH]; intros [|b l2]; try done.
  cbn. by rewrite IH.
Qed.

Lemma map_fst_combine {B} (l1 : list A) (l2 : list B) :
  length l1 = length l2 -> map fst (combine l1 l2) = l1.
Proof.
  revert l2. induction l1 as [|a l1 IH]; intros [|b l2] Hlen; try done.
  cbn in *. rewrite IH by lia. done.
Qed.

Lemma map_snd_combine {B} (l1 : list A) (l2 : list B) :
  length l1 = length l2 -> map snd (combine l1 l2) = l2.
Proof.
  revert l2. induction l1 as [|a l1 IH]; intros [|b l2] Hlen; try done.
  cbn in *. rewrite IH by lia. done.
Qed.

End EdgesOfLists.

Section EdgesOfPolygons.
Context {num : Type} `{!JsNumber num}.

Lemma edges_rotate1 (points : list (Point num)) :
  edges (rotate1 points) = rotate1 (edges points).
Proof.
  destruct points as [|a [|b l]]; [done|done|].
  change (combine ((b :: l) ++ [a]) ((l ++ [a]) ++ [b])
          = combine (b :: l) (l ++ [a]) ++ [(a, b)]).
  apply combine_snoc. cbn. rewrite length_app. cbn. lia.
Qed.

(** The edges of the reversed polygon are the reversed edges,
    backwards, up to the vertex the list starts with. *)
Lemma edges_rev_rotate1 (points : list (Point num)) :
  edges (rev (rotate1 points))
  = map (fun e => (snd e, fst e)) (rev (edges points)).
Proof.
  unfold edges at 2. rewrite <- combine_rev by (by rewrite length_rotate1).
  rewrite combine_swap. unfold edges. f_equal.
  destruct points as [|a l]; [done|].
  cbn [rotate1 rev]. rewrite rev_app_distr. done.
Qed.

Lemma rev_as_rotation (points : list (Point num)) :
  rev points = rotate1 (rev (rotate1 points)).
Proof.
  destruct points as [|a l]; [done|].
  cbn [rotate1 rev]. rewrite rev_app_distr. done.
Qed.

Lemma edges_map (f : Point num -> Point num) (points : list (Point num)) :
  edges (map f points) = map (fun e => (f (fst e), f (snd e))) (edges points).
Proof. unfold edges. by rewrite rotate1_map, combine_map_both. Qed.

End EdgesOfPolygons.

Section CentresOverQ.
Local Open Scope Q_scope.
Import Geometry.

Lemma nonzero_length (points : list (Point Q)) :
  points <> [] -> 0 < inject_Z (Z.of_nat (length points)).
Proof.
  intros Hne. destruct points as [|p l]; [done|].
  change 0 with (inject_Z 0). rewrite <- Zlt_Qlt. cbn [length]. lia.
Qed.

Lemma Qsum_map_rotate1 {A} (f : A -> Q) (l : list A) :
  Qsum (map f (rotate1 l)) == Qsum (map f l).
Proof. rewrite <- rotate1_map. apply Qsum_rotate1. Qed.

Lemma Qsum_map_rev {A} (f : A -> Q) (l : list A) :
  Qsum (map f (rev l)) == Qsum (map f l).
Proof. rewrite map_rev. apply Qsum_rev. Qed.

Lemma Qsum_Permutation (l l' : list Q) : Permutation l l' -> Qsum l == Qsum l'.
Proof.
  induction 1 as [|a l l' _ IH|a b l|l l' l'' _ IH1 _ IH2].
  - reflexivity.
  - by rewrite !Qsum_cons, IH.
  - rewrite !Qsum_cons. ring.
  - by rewrite IH1.
Qed.

Lemma average_rotate1 (points : list (Point Q)) :
  Peq (average (rotate1 points)) (average points).
Proof.
  unfold Peq, average. cbn [Point.x Point.y].
  by rewrite length_rotate1, !Qsum_map_rotate1.
Qed.

Lemma average_rev (points : list (Point Q)) :
  Peq (average (rev points)) (average points).
Proof.
  unfold Peq, average. cbn [Point.x Point.y].
  by rewrite length_rev, !Qsum_map_rev.
Qed.

Lemma average_translate (a b : Q) (points : list (Point Q)) :
  points <> [] ->
  Peq (average (map (translate a b) points)) (translate a b (average points)).
Proof.
  intros Hne. pose proof (nonzero_length points Hne) as Hn.
  unfold Peq, average, translate. cbn [Point.x Point.y].
  rewrite length_map, !map_map. cbn [Point.x Point.y].
  rewrite (Qsum_map_plus Point.x (fun _ => a)), (Qsum_map_plus Point.y (fun _ => b)).
  rewrite !Qsum_map_const.
  split; field; lra.
Qed.

(** The three sums do not depend on the vertex the list starts with. *)
Lemma sums_rotate1 (points : list (Point Q)) :
  area2 (rotate1 points) == area2 points
  /\ moment_x (rotate1 points) == moment_x points
  /\ moment_y (rotate1 points) == moment_y points.
Proof.
  unfold area2, moment_x, moment_y. rewrite edges_rotate1.
  by rewrite !Qsum_map_rotate1.
Qed.

(** Reversing the orientation negates them. *)
Lemma sums_rev (points : list (Point Q)) :
  area2 (rev points) == - area2 points
  /\ moment_x (rev points) == - moment_x points
  /\ moment_y (rev points) == - moment_y points.
Proof.
  rewrite (rev_as_rotation points).
  destruct (sums_rotate1 (rev (rotate1 points))) as (-> & -> & ->).
  unfold area2, moment_x, moment_y. rewrite edges_rev_rotate1, !map_map.
  rewrite !Qsum_map_rev.
  assert (forall (f : Point Q * Point Q -> Q) l, Qsum (map (fun e => - f e) l)
                                                  == - Qsum (map f l)) as Neg.
  { intros f l. rewrite <- (Qsum_map_scale (-1) f l).
    apply Qsum_map_ext. intros e. ring. }
  rewrite <- !Neg.
  split; [|split]; apply Qsum_map_ext; intros [p q]; unfold cross; cbn [fst snd]; ring.
Qed.

(** Translating the polygon leaves the area and moves the moments
    accordingly. *)
Lemma telescope (g : Point Q -> Q) (points : list (Point Q)) :
  Qsum (map (fun e => g (snd e) - g (fst e)) (edges points)) == 0.
Proof.
  assert (Qsum (map (fun e => g (snd e) - g (fst e)) (edges points))
          == Qsum (map (fun e => g (snd e)) (edges points))
             + -1 * Qsum (map (fun e => g (fst e)) (edges points))) as E.
  { rewrite <- Qsum_map_scale, <- Qsum_map_plus.
    apply Qsum_map_ext. intros e. ring. }
  rewrite E.
  assert (map (fun e => g (snd e)) (edges points) = map g (rotate1 points)) as E2.
  { unfold edges. rewrite <- (map_map snd g).
    rewrite map_snd_combine; [done|]. by rewrite length_rotate1. }
  assert (map (fun e => g (fst e)) (edges points) = map g points) as E1.
  { unfold edges. rewrite <- (map_map fst g).
    rewrite map_fst_combine; [done|]. by rewrite length_rotate1. }
  rewrite E1, E2, Qsum_map_rotate1. ring.
Qed.

End CentresOverQ.

Section CentroidOverQ.
Local Open Scope Q_scope.
Import Geometry.

Lemma sums_translate (a b : Q) (points : list (Point Q)) :
  area2 (map (translate a b) points) == area2 points
  /\ moment_x (map (translate a b) points)
     == moment_x points + 3 * a * area2 points
  /\ moment_y (map (translate a b) points)
     == moment_y points + 3 * b * area2 points.
Proof.
  unfold area2, moment_x, moment_y. rewrite edges_map, !map_map.
  set (H := fun p : Point Q => - b * Point.x p + a * Point.y p).
  set (Gx := fun p : Point Q =>
               - b * (Point.x p * Point.x p) + a * (Point.x p * Point.y p)
               - 2 * a * b * Point.x p + 2 * a * a * Point.y p).
  set (Gy := fun p : Point Q =>
               - b * (Point.x p * Point.y p) + a * (Point.y p * Point.y p)
               - 2 * b * b * Point.x p + 2 * a * b * Point.y p).
  split; [|split].
  - rewrite (Qsum_map_ext _ (fun e => cross e + (H (snd e) - H (fst e)))).
    + rewrite Qsum_map_plus, telescope. ring.
    + intros [p q]. unfold cross, translate, H. cbn [fst snd Point.x Point.y]. ring.
  - rewrite (Qsum_map_ext _
               (fun e => ((Point.x (fst e) + Point.x (snd e)) * cross e
                          + 3 * a * cross e)
                         + (Gx (snd e) - Gx (fst e)))).
    + rewrite Qsum_map_plus, telescope, Qsum_map_plus, Qsum_map_scale. ring.
    + intros [p q]. unfold cross, translate, Gx. cbn [fst snd Point.x Point.y]. ring.
  - rewrite (Qsum_map_ext _
               (fun e => ((Point.y (fst e) + Point.y (snd e)) * cross e
                          + 3 * b * cross e)
                         + (Gy (snd e) - Gy (fst e)))).
    + rewrite Qsum_map_plus, telescope, Qsum_map_plus, Qsum_map_scale. ring.
    + intros [p q]. unfold cross, translate, Gy. cbn [fst snd Point.x Point.y]. ring.
Qed.

Lemma Peq_trans (p q r : Point Q) : Peq p q -> Peq q r -> Peq p r.
Proof. intros [? ?] [? ?]. split; etransitivity; eauto. Qed.

Lemma Peq_sym (p q : Point Q) : Peq p q -> Peq q p.
Proof. intros [? ?]. by split. Qed.

Lemma same_center_trans (c1 c2 c3 : completion (Point Q)) :
  same_center c1 c2 -> same_center c2 c3 -> same_center c1 c3.
Proof.
  destruct c1, c2, c3; cbn; try done; [apply Peq_trans|congruence].
Qed.

Lemma same_center_sym (c1 c2 : completion (Point Q)) :
  same_center c1 c2 -> same_center c2 c1.
Proof. destruct c1, c2; cbn; try done. apply Peq_sym. Qed.

Lemma too_few_vertices (points : list (Point Q)) :
  (length points < 3)%nat ->
  calculatePolygonCenter points = Throw (Error "多边形至少需要3个顶点").
Proof.
  intros Hlt. unfold calculatePolygonCenter.
  by destruct (Nat.ltb_spec (length points) 3) as [_|Hge]; [|lia].
Qed.

(** Two vertex lists of the same length whose sums agree, or are
    opposite, and whose averages agree, have the same centre. *)
Lemma same_center_from_sums (l l' : list (Point Q)) (k : Q) :
  length l' = length l ->
  k == 1 \/ k == -1 ->
  area2 l' == k * area2 l ->
  moment_x l' == k * moment_x l ->
  moment_y l' == k * moment_y l ->
  Peq (average l') (average l) ->
  same_center (calculatePolygonCenter l') (calculatePolygonCenter l).
Proof.
  intros Hlen Hk HS HMx HMy Havg.
  destruct (Nat.lt_ge_cases (length l) 3) as [Hlt|Hge].
  { rewrite !too_few_vertices by lia. done. }
  destruct (polygon_center_sums l Hge) as (c & -> & Hc).
  destruct (polygon_center_sums l') as (c' & -> & Hc'); [lia|].
  cbn [same_center].
  assert (Qabs (area2 l' / 2) == Qabs (area2 l / 2)) as Habs.
  { rewrite HS. destruct Hk as [-> | ->].
    - by rewrite Qmult_1_l.
    - assert (-1 * area2 l / 2 == - (area2 l / 2)) as -> by field.
      apply Qabs_opp. }
  destruct Hc as [[Small Hc]|[Big Hc]], Hc' as [[Small' Hc']|[Big' Hc']];
    try rewrite Habs in Small'; try rewrite Habs in Big'; try lra.
  - eapply Peq_trans; [exact Hc'|]. eapply Peq_trans; [exact Havg|]. by apply Peq_sym.
  - eapply Peq_trans; [exact Hc'|]. eapply Peq_trans; [|apply Peq_sym; exact Hc].
    assert (~ area2 l == 0) as Hnz.
    { intros E. rewrite E in Big.
      assert (Qabs (0 / 2) == 0) as Z0 by reflexivity. lra. }
    unfold Peq. cbn [Point.x Point.y]. rewrite HS, HMx, HMy.
    destruct Hk as [-> | ->]; split; field; lra.
Qed.

Lemma same_center_rotate1 (points : list (Point Q)) :
  same_center (calculatePolygonCenter (rotate1 points)) (calculatePolygonCenter points).
Proof.
  destruct (sums_rotate1 points) as (HS & HMx & HMy).
  apply (same_center_from_sums _ _ 1); rewrite ?Qmult_1_l; try done.
  - apply length_rotate1.
  - by left.
  - apply average_rotate1.
Qed.

(** X14. The centroid does not depend on the vertex the list starts
    with, nor on the orientation in which the vertices are listed:
    [calculatePolygonCenter] returns the same point, as numbers, for a
    vertex list, for the list started at any other of its vertices, and
    for the reversed list (and throws the same error on fewer than
    three vertices). Over exact arithmetic. *)
Theorem centroid_ignores_start_and_orientation :
  (forall l1 l2 : list (Point Q),
     same_center (calculatePolygonCenter (l2 ++ l1))
                 (calculatePolygonCenter (l1 ++ l2)))
  /\ (forall points : list (Point Q),
        same_center (calculatePolygonCenter (rev points))
                    (calculatePolygonCenter points)).
Proof.
  split.
  - induction l1 as [|p l1 IH]; intros l2.
    + rewrite app_nil_r. cbn [Datatypes.app].
      destruct (calculatePolygonCenter l2); cbn; [by split|done].
    + eapply same_center_trans; [|apply (same_center_rotate1 ((p :: l1) ++ l2))].
      change (rotate1 ((p :: l1) ++ l2)) with ((l1 ++ l2) ++ [p]).
      rewrite <- (app_assoc l1 l2 [p]).
      replace (l2 ++ p :: l1) with ((l2 ++ [p]) ++ l1) by (by rewrite <- app_assoc).
      apply IH.
  - intros points. destruct (sums_rev points) as (HS & HMx & HMy).
    apply (same_center_from_sums _ _ (-1)).
    + apply length_rev.
    + by right.
    + rewrite HS. ring.
    + rewrite HMx. ring.
    + rewrite HMy. ring.
    + apply average_rev.
Qed.

(** X15. The centroid moves with the polygon: translating every vertex
    by [(a, b)] translates the point [calculatePolygonCenter] returns by
    [(a, b)], in the fallback for degenerate polygons as well (the
    signed area, which selects the branch, is unchanged). Over exact
    arithmetic. *)
Theorem centroid_moves_with_the_polygon (a b : Q) (points : list (Point Q)) :
  same_center (calculatePolygonCenter (map (translate a b) points))
              (on_center (translate a b) (calculatePolygonCenter points)).
Proof.
  destruct (Nat.lt_ge_cases (length points) 3) as [Hlt|Hge].
  { rewrite !too_few_vertices by (rewrite ?length_map; lia). done. }
  destruct (polygon_center_sums points Hge) as (c & -> & Hc).
  destruct (polygon_center_sums (map (translate a b) points)) as (c' & -> & Hc');
    [rewrite length_map; lia|].
  cbn [same_center on_center].
  destruct (sums_translate a b points) as (HS & HMx & HMy).
  assert (Qabs (area2 (map (translate a b) points) / 2) == Qabs (area2 points / 2))
    as Habs by (by rewrite HS).
  assert (points <> []) as Hne by (intros ->; cbn in Hge; lia).
  destruct Hc as [[Small Hc]|[Big Hc]], Hc' as [[Small' Hc']|[Big' Hc']];
    try rewrite Habs in Small'; try rewrite Habs in Big'; try lra.
  - eapply Peq_trans; [exact Hc'|].
    eapply Peq_trans; [by apply average_translate|].
    destruct Hc as [Hx Hy]. unfold Peq, translate. cbn [Point.x Point.y].
    by rewrite Hx, Hy.
  - eapply Peq_trans; [exact Hc'|].
    assert (~ area2 points == 0) as Hnz.
    { intros E. rewrite E in Big.
      assert (Qabs (0 / 2) == 0) as Z0 by reflexivity. lra. }
    destruct Hc as [Hx Hy]. unfold Peq, translate. cbn [Point.x Point.y] in *.
    rewrite Hx, Hy, HMx, HMy, HS. split; field; lra.
Qed.

End CentroidOverQ.

Section AverageOverQ.
Local Open Scope Q_scope.
Import Geometry.

(** X16. The vertex average moves with the vertices and does not
    depend on their order: [calculateGeometricCenter] of the vertices
    translated by [(a, b)] is its result translated by [(a, b)], and
    any reordering of the vertex list gives the same point, as numbers
    (and the same error on the empty list). Over exact arithmetic. *)
Theorem vertex_average_moves_with_the_vertices :
  (forall (a b : Q) (points : list (Point Q)),
     same_center (calculateGeometricCenter (map (translate a b) points))
                 (on_center (translate a b) (calculateGeometricCenter points)))
  /\ (forall points points' : list (Point Q),
        Permutation points points' ->
        same_center (calculateGeometricCenter points')
                    (calculateGeometricCenter points)).
Proof.
  split.
  - intros a b [|p l]; [done|].
    destruct (average_geometric (p :: l)) as (c & -> & Hc); [done|].
    destruct (average_geometric (map (translate a b) (p :: l))) as (c' & -> & Hc');
      [done|].
    cbn [same_center on_center].
    eapply Peq_trans; [exact Hc'|].
    eapply Peq_trans; [by apply average_translate|].
    destruct Hc as [Hx Hy]. unfold Peq, translate. cbn [Point.x Point.y].
    by rewrite Hx, Hy.
  - intros points points' Hperm.
    destruct points as [|p l].
    { apply Permutation_nil in Hperm as ->. done. }
    assert (points' <> []) as Hne'.
    { intros ->. apply Permutation_sym, Permutation_nil in Hperm. done. }
    destruct (average_geometric (p :: l)) as (c & -> & Hc); [done|].
    destruct (average_geometric points' Hne') as (c' & -> & Hc').
    cbn [same_center].
    eapply Peq_trans; [exact Hc'|]. eapply Peq_trans; [|apply Peq_sym; exact Hc].
    unfold Peq, average. cbn [Point.x Point.y].
    rewrite <- (Permutation_length Hperm).
    rewrite (Qsum_Permutation (map Point.x points') (map Point.x (p :: l)))
      by (by apply Permutation_map, Permutation_sym).
    rewrite (Qsum_Permutation (map Point.y points') (map Point.y (p :: l)))
      by (by apply Permutation_map, Permutation_sym).
    done.
Qed.

(** X17. The vertex average lies in every axis-parallel box that
    contains the vertices, so in their bounding box. Over exact
    arithmetic. *)
Theorem vertex_average_is_within_the_bounding_box
    (points : list (Point Q)) (left right top bottom : Q) :
  points <> [] ->
  Forall (fun p => left <= Point.x p <= right /\ top <= Point.y p <= bottom) points ->
  exists c,
    calculateGeometricCenter points = Return c
    /\ left <= Point.x c <= right
    /\ top <= Point.y c <= bottom.
Proof.
  intros Hne Hbox.
  destruct (average_geometric points Hne) as (c & -> & [Hx Hy]).
  exists c. split; [done|]. rewrite Hx, Hy. unfold average. cbn [Point.x Point.y].
  pose proof (nonzero_length points Hne) as Hn.
  assert (Forall (fun q => left <= q <= right) (map Point.x points)) as Bx.
  { clear -Hbox. induction Hbox as [|p l [Hp _] _ IH]; cbn [map]; by constructor. }
  assert (Forall (fun q => top <= q <= bottom) (map Point.y points)) as By.
  { clear -Hbox. induction Hbox as [|p l [_ Hp] _ IH]; cbn [map]; by constructor. }
  apply Qsum_bounds in Bx, By. rewrite length_map in Bx, By.
  set (n := inject_Z (Z.of_nat (length points))) in *.
  destruct Bx as [Bx1 Bx2], By as [By1 By2].
  repeat split.
  - apply Qle_shift_div_l; [done|]. by rewrite Qmult_comm.
  - apply Qle_shift_div_r; [done|]. by rewrite Qmult_comm.
  - apply Qle_shift_div_l; [done|]. by rewrite Qmult_comm.
  - apply Qle_shift_div_r; [done|]. by rewrite Qmult_comm.
Qed.

(** X18. For a triangle, and for a parallelogram, the two centres
    coincide: [calculatePolygonCenter] and [calculateGeometricCenter]
    return the same point, as numbers, for every list of three vertices
    and for every list of four vertices [a, b, c, a + c - b]. Over
    exact arithmetic. *)
Theorem centres_coincide_for_triangles_and_parallelograms (a b c : Point Q) :
  same_center (calculatePolygonCenter [a; b; c]) (calculateGeometricCenter [a; b; c])
  /\ (let d := Point.mk (Point.x a + Point.x c - Point.x b)
                        (Point.y a + Point.y c - Point.y b) in
      same_center (calculatePolygonCenter [a; b; c; d])
                  (calculateGeometricCenter [a; b; c; d])).
Proof.
  assert (forall S : Q, (1 # 10000000000) <= Qabs (S / 2) -> ~ S == 0) as Nz.
  { intros S Big E. rewrite E in Big.
    assert (Qabs (0 / 2) == 0) as Z0 by reflexivity. lra. }
  split; [|intros d].
  - destruct (polygon_center_sums [a; b; c]) as (p & -> & Hp); [cbn; lia|].
    destruct (average_geometric [a; b; c]) as (g & -> & Hg); [done|].
    cbn [same_center]. eapply Peq_trans; [|apply Peq_sym; exact Hg].
    destruct Hp as [[_ Hp]|[Big Hp]]; [done|].
    eapply Peq_trans; [exact Hp|]. apply Nz in Big. revert Big.
    destruct a as [ax ay], b as [bx by'], c as [cx cy].
    unfold Peq, average, area2, moment_x, moment_y, edges, cross, Qsum.
    cbn [rotate1 Datatypes.app combine map fold_right fst snd Point.x Point.y length].
    change (inject_Z (Z.of_nat 3)) with 3.
    intros Big. split; field; lra.
  - destruct (polygon_center_sums [a; b; c; d]) as (p & -> & Hp); [cbn; lia|].
    destruct (average_geometric [a; b; c; d]) as (g & -> & Hg); [done|].
    cbn [same_center]. eapply Peq_trans; [|apply Peq_sym; exact Hg].
    destruct Hp as [[_ Hp]|[Big Hp]]; [done|].
    eapply Peq_trans; [exact Hp|]. apply Nz in Big. revert Big. subst d.
    destruct a as [ax ay], b as [bx by'], c as [cx cy].
    unfold Peq, average, area2, moment_x, moment_y, edges, cross, Qsum.
    cbn [rotate1 Datatypes.app combine map fold_right fst snd Point.x Point.y length].
    change (inject_Z (Z.of_nat 4)) with 4.
    intros Big. split; field; lra.
Qed.

End AverageOverQ.

Lemma vertex_average_is_within_the_bounding_box_witness :
  exists c,
    Geometry.calculateGeometricCenter (num := Q) Config.DEFAULT_POLYGON_POINTS = Return c
    /\ 10 <= Point.x c <= 90
    /\ 10 <= Point.y c <= 90.
Proof.
  apply (vertex_average_is_within_the_bounding_box
           Config.DEFAULT_POLYGON_POINTS 10 90 10 90).
  - discriminate.
  - repeat constructor; discriminate.
Defined.

(* ================================================================== *)
(** * More on the renderers *)
(* ================================================================== *)

Section Drawing.
Context {num : Type} `{!JsNumber num}.
Import Renderers.
Local Open Scope js_scope.

Lemma fold_emit (f : nat -> Graphics.draw num) (l : list nat) (g : Graphics num) :
  fold_left (fun g i => Graphics.emit (f i) g) l g
  = Graphics.mk (Graphics.path g ++ map f l) (Graphics.pivot g) (Graphics.x g)
      (Graphics.y g) (Graphics.scale g) (Graphics.rotation g)
      (Graphics.eventMode g) (Graphics.cursor g) (Graphics.isPBS g)
      (Graphics.pbsData g) (Graphics.children g).
Proof.
  revert g. induction l as [|i l IH]; intros g.
  - cbn. rewrite app_nil_r. by destruct g.
  - cbn [fold_left map]. rewrite IH. cbn. by rewrite <- app_assoc.
Qed.

Lemma map_nth_seq {A B} (f : A -> B) (pre l : list A) (d : A) :
  map (fun i => f (nth i (pre ++ l) d)) (seq (length pre) (length l)) = map f l.
Proof.
  revert pre. induction l as [|a l IH]; intros pre; [done|].
  cbn [length seq map]. rewrite nth_middle. f_equal.
  replace (pre ++ a :: l) with ((pre ++ [a]) ++ l) by (by rewrite <- app_assoc).
  replace (S (length pre)) with (length (pre ++ [a]))
    by (rewrite length_app; cbn; lia).
  apply IH.
Qed.

(** The outline loop draws the closed path through the vertices. *)
Lemma outline_path (points : list (Point num)) (g : Graphics num) :
  points <> [] ->
  outline points g
  = Graphics.mk (Graphics.path g ++ closed_path points) (Graphics.pivot g)
      (Graphics.x g) (Graphics.y g) (Graphics.scale g) (Graphics.rotation g)
      (Graphics.eventMode g) (Graphics.cursor g) (Graphics.isPBS g)
      (Graphics.pbsData g) (Graphics.children g).
Proof.
  intros Hne. destruct points as [|p rest]; [done|].
  unfold outline.
  rewrite (fold_emit (fun i => Graphics.LineTo (Point.x (Geometry.at_index (p :: rest) i))
                                               (Point.y (Geometry.at_index (p :: rest) i)))).
  cbn [length Nat.sub]. rewrite Nat.sub_0_r.
  unfold Geometry.at_index.
  rewrite (map_nth_seq (fun q => Graphics.LineTo (Point.x q) (Point.y q)) [p] rest).
  unfold Graphics.emit. cbn [Graphics.path Graphics.pivot Graphics.x Graphics.y
    Graphics.scale Graphics.rotation Graphics.eventMode Graphics.cursor
    Graphics.isPBS Graphics.pbsData Graphics.children closed_path].
  f_equal. by rewrite <- !app_assoc.
Qed.

(** The graphic [g] with [path] drawn in it instead of what it held. *)
Lemma drawPolygon_draws (g : Graphics num) (points : list (Point num))
    (fillColor strokeWidth strokeColor : num) (w : World num) :
  (3 <= length points)%nat ->
  drawPolygon g points fillColor strokeWidth strokeColor w
  = (Return (Graphics.mk (closed_path points ++ painted fillColor strokeWidth strokeColor)
               (Graphics.pivot g) (Graphics.x g) (Graphics.y g) (Graphics.scale g)
               (Graphics.rotation g) (Graphics.eventMode g) (Graphics.cursor g)
               (Graphics.isPBS g) (Graphics.pbsData g) (Graphics.children g)), w).
Proof.
  intros Hlen.
  assert (points <> []) as Hne by (intros ->; cbn in Hlen; lia).
  unfold drawPolygon.
  destruct (Nat.ltb_spec (length points) 3) as [Hlt|_]; [lia|].
  rewrite outline_path by done. unfold painted, ret.
  destruct (lt (lit 0) strokeWidth);
    cbv [drawFactoryDetails Graphics.emit Graphics.clear Graphics.new
         Graphics.path Graphics.pivot Graphics.x Graphics.y Graphics.scale
         Graphics.rotation Graphics.eventMode Graphics.cursor Graphics.isPBS
         Graphics.pbsData Graphics.children];
    do 2 f_equal; rewrite <- ?app_assoc; reflexivity.
Qed.

Lemma drawFactory_draws (g : Graphics num) (points : list (Point num))
    (fillColor strokeWidth strokeColor : num) (w : World num) :
  (3 <= length points)%nat ->
  drawFactory g points fillColor strokeWidth strokeColor w
  = (Return (Graphics.mk (closed_path points ++ painted fillColor strokeWidth strokeColor
                          ++ Graphics.path (drawFactoryDetails Graphics.new))
               (Graphics.pivot g) (Graphics.x g) (Graphics.y g) (Graphics.scale g)
               (Graphics.rotation g) (Graphics.eventMode g) (Graphics.cursor g)
               (Graphics.isPBS g) (Graphics.pbsData g) (Graphics.children g)), w).
Proof.
  intros Hlen.
  assert (points <> []) as Hne by (intros ->; cbn in Hlen; lia).
  unfold drawFactory.
  destruct (Nat.ltb_spec (length points) 3) as [Hlt|_]; [lia|].
  rewrite outline_path by done. unfold painted, ret.
  destruct (lt (lit 0) strokeWidth);
    cbv [drawFactoryDetails Graphics.emit Graphics.clear Graphics.new
         Graphics.path Graphics.pivot Graphics.x Graphics.y Graphics.scale
         Graphics.rotation Graphics.eventMode Graphics.cursor Graphics.isPBS
         Graphics.pbsData Graphics.children];
    do 2 f_equal; rewrite <- ?app_assoc; reflexivity.
Qed.

(** X19. What the two renderers draw. For at least three vertices,
    [drawPolygon] replaces whatever the graphic held by the closed path
    through the vertices in order (moveTo the first, lineTo each of the
    others, closePath), the fill and, for a positive stroke width, the
    stroke, and [drawFactory] draws the same followed by the details of
    the factory; nothing else of the graphic changes and the world is
    left alone. So drawing again, also with another colour, replaces the
    drawing instead of adding to it. For fewer than three vertices both
    leave the graphic as it is and log an error. *)
Theorem drawing_replaces_the_path (g : Graphics num) (points : list (Point num))
    (fillColor strokeWidth strokeColor : num) (w : World num) :
  ((3 <= length points)%nat ->
   exists g' f',
     drawPolygon g points fillColor strokeWidth strokeColor w = (Return g', w)
     /\ drawFactory g points fillColor strokeWidth strokeColor w = (Return f', w)
     /\ Graphics.path g'
        = closed_path points ++ painted fillColor strokeWidth strokeColor
     /\ Graphics.path f'
        = Graphics.path g' ++ Graphics.path (drawFactoryDetails Graphics.new)
     /\ same_but_path g g' /\ same_but_path g f'
     /\ forall fillColor', 
          exists g'',
            drawPolygon g' points fillColor' strokeWidth strokeColor w = (Return g'', w)
            /\ drawPolygon g points fillColor' strokeWidth strokeColor w = (Return g'', w))
  /\ ((length points < 3)%nat ->
      drawPolygon g points fillColor strokeWidth strokeColor w
      = (Return g, add_log (ConsoleError "多边形至少需要3个顶点" None) w)
      /\ drawFactory g points fillColor strokeWidth strokeColor w
         = (Return g, add_log (ConsoleError "厂区至少需要3个顶点" None) w)).
Proof.
  split.
  - intros Hlen. eexists _, _.
    split; [by apply drawPolygon_draws|]. split; [by apply drawFactory_draws|].
    cbn [Graphics.path]. split; [done|]. split; [by rewrite <- app_assoc|].
    split; [by repeat split|]. split; [by repeat split|].
    intros fillColor'. eexists.
    split; [by apply drawPolygon_draws|]. by rewrite drawPolygon_draws.
  - intros Hlt. unfold drawPolygon, drawFactory.
    destruct (Nat.ltb_spec (length points) 3) as [_|Hge]; [|lia]. done.
Qed.

End Drawing.

Section Resetting.
Context {num : Type} `{!JsNumber num}.
Import Renderers.
Local Open Scope js_scope.

Lemma calculatePolygonCenter_returns (points : list (Point num)) :
  (3 <= length points)%nat ->
  exists center, Geometry.calculatePolygonCenter points = Return center.
Proof.
  intros Hlen. unfold Geometry.calculatePolygonCenter.
  destruct (Nat.ltb_spec (length points) 3) as [Hlt|_]; [lia|].
  destruct (Geometry.shoelace_loop points) as [[area cx] cy].
  destruct (lt _ _); eexists; reflexivity.
Qed.

(** X20. [PolygonRenderer.reset] puts a polygon back as [create] made it
    with the default options. For at least three vertices, [reset]
    returns normally, leaves the world alone and gives the graphic
    rotation 0, the centre of the screen as position, the factor 1.5 on
    both axes and the drawing of the vertices in the given colour with
    the default stroke, keeping the rest of the graphic. So whatever
    was done meanwhile to the rotation, the position, the scale and the
    drawing of the graphic that [create] returned for these vertices
    and this colour and no other option, [reset] gives back the very
    graphic [create] returned. (Options of [create] other than the
    colour are not restored: [reset] uses the defaults.) *)
Theorem polygon_reset_restores_the_default_creation
    (points : list (Point num)) (color : option num) (w : World num) :
  (3 <= length points)%nat ->
  (forall g,
      exists g',
        polygon_reset (Some g) (Some points) color w = (Return (Some g'), w)
        /\ Graphics.rotation g' = lit 0
        /\ Graphics.x g' = screen_width (app w) / lit 2
        /\ Graphics.y g' = screen_height (app w) / lit 2
        /\ Graphics.scale g' = Point.mk Config.SCALE_FACTOR Config.SCALE_FACTOR
        /\ Graphics.path g'
           = closed_path points
             ++ painted (default (lit 16711680) color) Config.STROKE_WIDTH (lit 0)
        /\ same_but_drawing_and_transform g g')
  /\ exists created,
      polygon_create (Some points)
        {| po_color := color; po_strokeWidth := None; po_strokeColor := None;
           po_scale := None; po_position := None |} w
      = (Return created, w)
      /\ forall g,
           same_but_drawing_and_transform created g ->
           polygon_reset (Some g) (Some points) color w = (Return (Some created), w).
Proof.
  intros Hlen.
  assert (forall g,
             polygon_reset (Some g) (Some points) color w
             = (Return (Some
                  (Graphics.mk
                     (closed_path points
                      ++ painted (default (lit 16711680) color) Config.STROKE_WIDTH (lit 0))
                     (Graphics.pivot g) (screen_width (app w) / lit 2)
                     (screen_height (app w) / lit 2)
                     (Point.mk Config.SCALE_FACTOR Config.SCALE_FACTOR) (lit 0)
                     (Graphics.eventMode g) (Graphics.cursor g) (Graphics.isPBS g)
                     (Graphics.pbsData g) (Graphics.children g))), w)) as Reset.
  { intros g. unfold polygon_reset, polygon_updateColor.
    unfold bind at 1, gets at 1. unfold bind at 1, gets at 1. unfold bind at 1.
    cbn [default]. unfold id. by rewrite drawPolygon_draws. }
  split.
  - intros g. eexists. split; [apply Reset|]. cbn. by repeat split.
  - destruct (calculatePolygonCenter_returns points Hlen) as [center Hc].
    eexists. split.
    + unfold polygon_create. cbn [default po_color po_strokeWidth po_strokeColor
        po_scale po_position]. unfold id. rewrite Hc.
      unfold bind at 1. rewrite drawPolygon_draws by done.
      unfold bind at 1, gets at 1. unfold bind at 1, gets at 1. reflexivity.
    + intros g (Hp & He & Hcu & Hi & Hd & Hch). rewrite Reset.
      do 3 f_equal. cbn in Hp, He, Hcu, Hi, Hd, Hch |- *.
      by rewrite Hp, He, Hcu, Hi, Hd, Hch.
Qed.

End Resetting.

Lemma polygon_reset_restores_the_default_creation_witness :
  (3 <= length (Config.DEFAULT_POLYGON_POINTS (num := Q)))%nat
  /\ exists created,
      Renderers.polygon_create (Some Config.DEFAULT_POLYGON_POINTS)
        {| Renderers.po_color := Some 255%Q; Renderers.po_strokeWidth := None;
           Renderers.po_strokeColor := None;
           Renderers.po_scale := None; Renderers.po_position := None |}
        (world0 (num := Q))
      = (Return created, world0)
      /\ Renderers.polygon_reset
           (Some (Graphics.set_rotation 3%Q (Graphics.set_scale 4%Q created)))
           (Some Config.DEFAULT_POLYGON_POINTS) (Some 255%Q) world0
         = (Return (Some created), world0).
Proof.
  assert (3 <= length (Config.DEFAULT_POLYGON_POINTS (num := Q)))%nat as L
    by (cbn; lia).
  split; [exact L|].
  destruct (polygon_reset_restores_the_default_creation
              Config.DEFAULT_POLYGON_POINTS (Some 255%Q) world0 L)
    as (_ & created & C & R).
  exists created. split; [exact C|]. apply R. by repeat split.
Defined.

Section Creating.
Context {num : Type} `{!JsNumber num}.
Variable getBounds : Graphics num -> Bounds num.
Import Renderers.
Local Open Scope js_scope.

Lemma addToContainer_children (parent : Graphics num) (units : list (Graphics num)) :
  addToContainer parent units
  = Graphics.mk (Graphics.path parent) (Graphics.pivot parent) (Graphics.x parent)
      (Graphics.y parent) (Graphics.scale parent) (Graphics.rotation parent)
      (Graphics.eventMode parent) (Graphics.cursor parent) (Graphics.isPBS parent)
      (Graphics.pbsData parent) (Graphics.children parent ++ units).
Proof.
  unfold addToContainer. revert parent.
  induction units as [|u units IH]; intros parent.
  - cbn. rewrite app_nil_r. by destruct parent.
  - cbn [fold_left]. rewrite IH. cbn. by rewrite <- app_assoc.
Qed.

(** What [FactoryRenderer.create] draws for the vertex list [points]. *)
Lemma drawFactory_new (points : list (Point num)) (color strokeWidth strokeColor : num)
    (w : World num) :
  exists w',
    drawFactory Graphics.new points color strokeWidth strokeColor w
    = (Return (Graphics.mk
                 (if (length points <? 3)%nat then []
                  else closed_path points ++ painted color strokeWidth strokeColor
                       ++ Graphics.path (drawFactoryDetails Graphics.new))
                 (Point.mk (lit 0) (lit 0)) (lit 0) (lit 0)
                 (Point.mk (lit 1) (lit 1)) (lit 0) "passive" "" false None []), w')
    /\ state w' = state w /\ app w' = app w
    /\ subscribers w' = subscribers w /\ calls w' = calls w
    /\ console w'
       = console w ++ (if (length points <? 3)%nat
                       then [ConsoleError "厂区至少需要3个顶点" None] else []).
Proof.
  destruct (Nat.ltb_spec (length points) 3) as [Hlt|Hge].
  - unfold drawFactory. destruct (Nat.ltb_spec (length points) 3) as [_|Hge]; [|lia].
    eexists. split; [reflexivity|]. by cbn.
  - rewrite drawFactory_draws by done. exists w. split; [done|].
    rewrite app_nil_r. done.
Qed.

Lemma factory_create_leaves (options : FactoryOptions num) (w : World num) :
  default Config.FACTORY_POINTS (fo_points options) <> [] ->
  exists g measured w',
    factory_create getBounds options w = (Return g, w')
    /\ created_factory getBounds options w g measured w'.
Proof.
  intros Hne. unfold created_factory.
  set (points := default Config.FACTORY_POINTS (fo_points options)) in *.
  set (color := default (lit 9127187) (fo_color options)).
  set (strokeWidth := default Config.STROKE_WIDTH (fo_strokeWidth options)).
  set (strokeColor := default (lit 0) (fo_strokeColor options)).
  unfold factory_create. fold points color strokeWidth strokeColor.
  rewrite calculateGeometricCenter_nonempty by done.
  destruct (drawFactory_new points color strokeWidth strokeColor w)
    as (w1 & R1 & St1 & App1 & _ & _ & Con1).
  unfold bind at 1. rewrite R1.
  destruct (default true (fo_includePBS options)), (fo_position options) as [p|];
    cbv [bind ret gets modify console_log console_log_template createUnits
         factory_scaleAndCenter scaleAndCenter default];
    rewrite ?addToContainer_children;
    (eexists _, _, _; split; [reflexivity|]);
    cbn [Graphics.path Graphics.pivot Graphics.x Graphics.y Graphics.scale
         Graphics.rotation Graphics.eventMode Graphics.cursor Graphics.isPBS
         Graphics.pbsData Graphics.children Graphics.set_pivot Graphics.set_x
         Graphics.set_y Graphics.set_scale Graphics.set_interactive
         app add_log state console Datatypes.app];
    rewrite ?App1, ?St1, ?Con1, <- ?app_assoc;
    repeat match goal with |- _ /\ _ => split end;
    try reflexivity; try done;
    match goal with |- exists l, _ ++ _ ++ ?r = _ => exists r; reflexivity end.
Qed.

(** X21. What [FactoryRenderer.create] returns, for a non-empty vertex
    list: the outline with its fill, stroke and details (nothing for
    fewer than three vertices); the PBS units of the configuration as
    children, in order, unless [includePBS] is false; both scale factors
    set to the factor that fits the shape, as measured after the units
    were added, into 0.9 of the screen; the origin at the given
    position, or else at the centre of the screen; no rotation; and the
    pointer cursor on a static event mode. The state and the
    application are left alone; the console keeps its lines and gets
    those of the steps taken, first the error for fewer than three
    vertices. *)
Theorem factory_create_returns (options : FactoryOptions num) (w : World num) :
  default Config.FACTORY_POINTS (fo_points options) <> [] ->
  exists g measured w',
    factory_create getBounds options w = (Return g, w')
    /\ created_factory getBounds options w g measured w'.
Proof.
  intros Hne.
  destruct (factory_create_leaves options w Hne) as (g & measured & w' & R & C).
  exists g, measured, w'. by split.
Qed.

(** X22. Too few vertices. Given one or two vertices,
    [FactoryRenderer.create] still returns a shape, with nothing drawn
    in it, after logging first that a factory needs three vertices
    (the lines of its later steps follow), whereas
    [PolygonRenderer.create] throws before it creates anything; given
    none, both throw, each the error of its centre function. *)
Theorem renderers_on_too_few_vertices (points : list (Point num))
    (fo : FactoryOptions num) (po : PolygonOptions num) (w : World num) :
  (length points < 3)%nat ->
  fo_points fo = Some points ->
  polygon_create (Some points) po w = (Throw (Error "多边形至少需要3个顶点"), w)
  /\ (points = [] ->
      factory_create getBounds fo w = (Throw (Error "顶点数组不能为空"), w))
  /\ (points <> [] ->
      exists g w',
        factory_create getBounds fo w = (Return g, w')
        /\ Graphics.path g = []
        /\ exists lines,
             console w'
             = console w ++ [ConsoleError "厂区至少需要3个顶点" None] ++ lines).
Proof.
  intros Hlt Hfo. split; [|split].
  - unfold polygon_create. cbn [default]. unfold id.
    unfold Geometry.calculatePolygonCenter.
    destruct (Nat.ltb_spec (length points) 3) as [_|Hge]; [reflexivity|lia].
  - intros ->. unfold factory_create. rewrite Hfo. reflexivity.
  - intros Hne.
    destruct (factory_create_leaves fo w) as (g & measured & w' & R & C).
    { by rewrite Hfo. }
    exists g, w'. split; [exact R|].
    unfold created_factory in C. rewrite Hfo in C. cbn [default] in C. unfold id in C.
    destruct (Nat.ltb_spec (length points) 3) as [_|Hge]; [|lia].
    destruct C as (P & _ & _ & _ & _ & _ & _ & _ & _ & _ & _ & _ & Con).
    by split.
Qed.

(** X23. [FactoryRenderer.recreate] keeps the transform of the old
    shape. Given an old factory it returns what [create] returns for
    the options, with the rotation and the origin of the old shape, and
    with both scale factors set to the horizontal scale factor of the
    old shape; so a position in the options is overridden. Given no old
    factory it is [create]. *)
Theorem factory_recreate_keeps_the_transform (oldFactory : Graphics num)
    (options : FactoryOptions num) (w : World num) :
  default Config.FACTORY_POINTS (fo_points options) <> [] ->
  (exists g created w',
     factory_recreate getBounds (Some oldFactory) options w = (Return g, w')
     /\ factory_create getBounds options w = (Return created, w')
     /\ Graphics.rotation g = Graphics.rotation oldFactory
     /\ Graphics.x g = Graphics.x oldFactory
     /\ Graphics.y g = Graphics.y oldFactory
     /\ Graphics.scale g
        = Point.mk (Point.x (Graphics.scale oldFactory))
                   (Point.x (Graphics.scale oldFactory))
     /\ Graphics.path g = Graphics.path created
     /\ Graphics.pivot g = Graphics.pivot created
     /\ Graphics.children g = Graphics.children created
     /\ Graphics.eventMode g = Graphics.eventMode created
     /\ Graphics.cursor g = Graphics.cursor created)
  /\ factory_recreate getBounds None options w = factory_create getBounds options w.
Proof.
  intros Hne. split; [|reflexivity].
  destruct (factory_create_leaves options w Hne) as (created & measured & w' & R & _).
  eexists _, created, w'. split.
  - unfold factory_recreate, bind. rewrite R. reflexivity.
  - by repeat split.
Qed.

(** X24. The centre marker sits on the pivot. The centre
    [createCenterDot] reports for the type ['geometric'] is the pivot
    [FactoryRenderer.create] gives a shape with the same vertices, and
    the centre it reports for any other type (the default is ['mass'])
    is the pivot [PolygonRenderer.create] gives it; and where it throws,
    so does the renderer, the same error. The marker is anchored at its
    middle. *)
Theorem center_dot_marks_the_pivot (points : list (Point num))
    (dotOptions : GraphicsFactory.CenterDotOptions num) (w : World num) :
  (forall fo : FactoryOptions num,
     fo_points fo = Some points ->
     match GraphicsFactory.createCenterDot points (Some "geometric") dotOptions with
     | Return (centerDot, center) =>
         Sprite.anchor centerDot = Point.mk (lit (5 # 10)) (lit (5 # 10))
         /\ exists g w',
              factory_create getBounds fo w = (Return g, w')
              /\ Graphics.pivot g = center
     | Throw e => factory_create getBounds fo w = (Throw e, w)
     end)
  /\ (forall (po : PolygonOptions num) (centerType : option string),
        centerType <> Some "geometric" ->
        match GraphicsFactory.createCenterDot points centerType dotOptions with
        | Return (centerDot, center) =>
            Sprite.anchor centerDot = Point.mk (lit (5 # 10)) (lit (5 # 10))
            /\ exists g w',
                 polygon_create (Some points) po w = (Return g, w')
                 /\ Graphics.pivot g = center
        | Throw e => polygon_create (Some points) po w = (Throw e, w)
        end).
Proof.
  split.
  - intros fo Hfo. pose proof (factory_create_pivot getBounds fo w) as P.
    rewrite Hfo in P. cbn [default] in P. unfold id in P.
    unfold GraphicsFactory.createCenterDot. cbn [default String.eqb Ascii.eqb Bool.eqb].
    destruct (Geometry.calculateGeometricCenter points) as [center|e]; [|done].
    by split.
  - intros po centerType Hct. pose proof (polygon_create_pivot (Some points) po w) as P.
    cbn [default] in P. unfold id in P.
    unfold GraphicsFactory.createCenterDot.
    assert (String.eqb (default "mass" centerType) "geometric" = false) as ->.
    { destruct centerType as [s|]; [|done]. cbn [default].
      apply String.eqb_neq. unfold id. intros E. apply Hct. by rewrite E. }
    destruct (Geometry.calculatePolygonCenter points) as [center|e]; [|done].
    by split.
Qed.

(** X25. [PBSRenderer.updateColor] redraws a unit in another colour:
    given a unit as [createUnit] made it and the data kept on it, it
    replaces the drawing by what [createUnit] draws for the same
    configuration in the new colour, except that a unit drawn as a
    polygon is redrawn as a circle of the unit's size; the position,
    the PBS mark and the data kept on the unit, the old colour
    included, stay. Without a unit or without data nothing happens. *)
Theorem pbs_updateColor_redraws (d : PBSData num) (color : num) :
  (exists unit,
     pbs_updateColor (Some (createUnit d)) color (Graphics.pbsData (createUnit d))
     = Some unit
     /\ same_but_path (createUnit d) unit
     /\ Graphics.path unit
        = (if drawn_as_polygon d
           then [Graphics.Circle (lit 0) (lit 0) (PBSData.size d); Graphics.Fill color]
           else Graphics.path (createUnit (recoloured d color))))
  /\ pbs_updateColor (Some (createUnit d)) color None = Some (createUnit d)
  /\ pbs_updateColor None color (Graphics.pbsData (createUnit d)) = None.
Proof.
  split; [|by split].
  unfold pbs_updateColor, createUnit, recoloured, drawn_as_polygon.
  cbn [Graphics.pbsData Graphics.mark_PBS Graphics.emit Graphics.set_x Graphics.set_y
       Graphics.new meta_shape meta_size PBSData.shape PBSData.size PBSData.points
       PBSData.color PBSData.x PBSData.y].
  destruct (String.eqb (PBSData.shape d) "circle") eqn:Ec.
  { apply String.eqb_eq in Ec. rewrite Ec. cbn.
    eexists. split; [reflexivity|]. cbn. by repeat split. }
  destruct (String.eqb (PBSData.shape d) "rect") eqn:Er.
  { apply String.eqb_eq in Er. rewrite Er. cbn.
    eexists. split; [reflexivity|]. cbn. by repeat split. }
  destruct (String.eqb (PBSData.shape d) "polygon"), (PBSData.points d);
    cbn; (eexists; split; [reflexivity|]); cbn; rewrite ?Ec, ?Er; by repeat split.
Qed.

End Creating.

(** The default factory on the 800 x 600 screen of [app0], measured as
    a 200 x 100 box. *)
Lemma factory_create_returns_witness :
  exists g measured w',
    Renderers.factory_create (fun _ => Bounds.mk 0 0 200 100)
      {| Renderers.fo_points := None; Renderers.fo_color := None;
         Renderers.fo_strokeWidth := None; Renderers.fo_strokeColor := None;
         Renderers.fo_includePBS := None; Renderers.fo_position := None |}
      (world0 (num := Q))
    = (Return g, w')
    /\ created_factory (fun _ => Bounds.mk 0 0 200 100)
         {| Renderers.fo_points := None; Renderers.fo_color := None;
            Renderers.fo_strokeWidth := None; Renderers.fo_strokeColor := None;
            Renderers.fo_includePBS := None; Renderers.fo_position := None |}
         world0 g measured w'.
Proof.
  apply (factory_create_returns (fun _ => Bounds.mk 0 0 200 100)
           {| Renderers.fo_points := None; Renderers.fo_color := None;
              Renderers.fo_strokeWidth := None; Renderers.fo_strokeColor := None;
              Renderers.fo_includePBS := None; Renderers.fo_position := None |}
           world0).
  discriminate.
Defined.

(** Two vertices: the factory renderer returns an empty shape, the
    polygon renderer throws. *)
Lemma renderers_on_too_few_vertices_witness :
  let points : list (Point Q) := [Config.pt 0 0; Config.pt 10 10] in
  let fo := {| Renderers.fo_points := Some points; Renderers.fo_color := None;
               Renderers.fo_strokeWidth := None; Renderers.fo_strokeColor := None;
               Renderers.fo_includePBS := Some false;
               Renderers.fo_position := None |} in
  let po := {| Renderers.po_color := None; Renderers.po_strokeWidth := None;
               Renderers.po_strokeColor := None; Renderers.po_scale := None;
               Renderers.po_position := None |} in
  Renderers.polygon_create (Some points) po world0
  = (Throw (Error "多边形至少需要3个顶点"), world0)
  /\ exists g w',
       Renderers.factory_create (fun _ => Bounds.mk 0 0 200 100) fo world0
       = (Return g, w')
       /\ Graphics.path g = [].
Proof.
  intros points fo po.
  destruct (renderers_on_too_few_vertices (fun _ => Bounds.mk 0 0 200 100)
              points fo po world0) as (P & _ & F).
  - cbn. lia.
  - reflexivity.
  - split; [exact P|].
    destruct F as (g & w' & R & E & _); [discriminate|].
    by exists g, w'.
Defined.

Lemma factory_recreate_keeps_the_transform_witness :
  let old : Graphics Q :=
    Graphics.set_x 30 (Graphics.set_rotation (1 # 2) Graphics.new) in
  let options :=
    {| Renderers.fo_points := None; Renderers.fo_color := Some 255;
       Renderers.fo_strokeWidth := None; Renderers.fo_strokeColor := None;
       Renderers.fo_includePBS := None;
       Renderers.fo_position := Some (Point.mk 5 5) |} in
  exists g w',
    Renderers.factory_recreate (fun _ => Bounds.mk 0 0 200 100) (Some old) options world0
    = (Return g, w')
    /\ Graphics.rotation g = 1 # 2
    /\ Graphics.x g = 30
    /\ Graphics.y g = 0.
Proof.
  intros old options.
  destruct (factory_recreate_keeps_the_transform
              (fun _ => Bounds.mk 0 0 200 100) old options world0)
    as [(g & created & w' & R & _ & Rot & X & Y & _) _]; [discriminate|].
  by exists g, w'.
Defined.

(* ================================================================== *)
(** * The keyboard handler *)
(* ================================================================== *)

Section Keys.
Context {num : Type} `{!JsNumber num}.
Import KeyboardHandler.
Local Open Scope monad_scope.

(** X26. Keys that do nothing. While an input, a text area, a select
    box or an editable element has the focus, [handleKeyDown] returns
    without touching anything, whatever the key; and so it does for
    every key it has no case for, also before [setup] has given it
    controllers. *)
Theorem keys_that_do_nothing (controllers : option Controllers)
    (activeElement : ActiveElement) (event : KeyboardEvent) (w : World num) :
  (isInputFocused activeElement = true
   <-> (tagName activeElement = "INPUT" \/ tagName activeElement = "TEXTAREA"
        \/ tagName activeElement = "SELECT" \/ contentEditable activeElement = "true"))
  /\ (isInputFocused activeElement = true ->
      handleKeyDown controllers activeElement event w = (Return tt, w))
  /\ (toLowerCase (KeyboardEvent.key event) ∉ handled_keys ->
      handleKeyDown controllers activeElement event w = (Return tt, w)).
Proof.
  split; [|split].
  - unfold isInputFocused. cbn [existsb].
    rewrite !orb_true_iff, !String.eqb_eq. intuition congruence.
  - intros Hf. unfold handleKeyDown. by rewrite Hf.
  - intros Hk. unfold handleKeyDown.
    destruct (isInputFocused activeElement); [done|].
    cbv zeta.
    repeat match goal with
    | |- context [String.eqb ?k ?s] =>
        destruct (String.eqb_spec k s) as [E|_];
        [exfalso; apply Hk; rewrite E; unfold handled_keys; set_solver|]
    end.
    reflexivity.
Qed.

End Keys.

Section Arrows.
Local Open Scope Q_scope.
Import KeyboardHandler.

Lemma arrow_dispatch (c : Controllers (num := Q)) (activeElement : ActiveElement)
    (event : KeyboardEvent) (w : World Q) (name : string) :
  viewport c = true ->
  isInputFocused activeElement = false ->
  toLowerCase (KeyboardEvent.key event) = name ->
  let step : Q := if KeyboardEvent.shiftKey event then 50 else 10 in
  (name = "arrowup" ->
   handleKeyDown (Some c) activeElement event w = ViewportController.pan 0 (- step) w)
  /\ (name = "arrowdown" ->
      handleKeyDown (Some c) activeElement event w = ViewportController.pan 0 step w)
  /\ (name = "arrowleft" ->
      handleKeyDown (Some c) activeElement event w = ViewportController.pan (- step) 0 w)
  /\ (name = "arrowright" ->
      handleKeyDown (Some c) activeElement event w = ViewportController.pan step 0 w).
Proof.
  intros Hc Hf Hk step. unfold handleKeyDown. rewrite Hf, Hk. cbv zeta.
  unfold handlePan, the_controllers. unfold bind, ret. rewrite Hc. subst step.
  repeat split; intros ->; cbn [String.eqb Ascii.eqb Bool.eqb andb orb];
    by destruct (KeyboardEvent.shiftKey event).
Qed.

(** X27. The arrow keys pan the viewport. With a viewport controller
    among the controllers and no input focused, ArrowUp, ArrowDown,
    ArrowLeft and ArrowRight (in any letter case, with any of Ctrl, Meta
    and Alt) call [pan] with 10 pixels in their direction, 50 with
    Shift; the offset moves by that much and the scale stays; and an
    arrow followed by the opposite arrow restores the viewport. Over
    exact arithmetic. *)
Theorem arrow_keys_pan (c : Controllers (num := Q)) (activeElement : ActiveElement)
    (w : World Q) (v : Viewport Q) (up down left right : KeyboardEvent) :
  viewport c = true ->
  isInputFocused activeElement = false ->
  ViewportController.viewport_of w = Some v ->
  toLowerCase (KeyboardEvent.key up) = "arrowup" ->
  toLowerCase (KeyboardEvent.key down) = "arrowdown" ->
  toLowerCase (KeyboardEvent.key left) = "arrowleft" ->
  toLowerCase (KeyboardEvent.key right) = "arrowright" ->
  let step (event : KeyboardEvent) : Q :=
    if KeyboardEvent.shiftKey event then 50 else 10 in
  (exists w',
     runs_to (handleKeyDown (Some c) activeElement up) w w'
     /\ ViewportController.viewport_of w'
        = Some (Viewport.mk (Viewport.x v + 0) (Viewport.y v + - step up)
                            (Viewport.scale v)))
  /\ (exists w',
        runs_to (handleKeyDown (Some c) activeElement down) w w'
        /\ ViewportController.viewport_of w'
           = Some (Viewport.mk (Viewport.x v + 0) (Viewport.y v + step down)
                               (Viewport.scale v)))
  /\ (exists w',
        runs_to (handleKeyDown (Some c) activeElement left) w w'
        /\ ViewportController.viewport_of w'
           = Some (Viewport.mk (Viewport.x v + - step left) (Viewport.y v + 0)
                               (Viewport.scale v)))
  /\ (exists w',
        runs_to (handleKeyDown (Some c) activeElement right) w w'
        /\ ViewportController.viewport_of w'
           = Some (Viewport.mk (Viewport.x v + step right) (Viewport.y v + 0)
                               (Viewport.scale v)))
  /\ (KeyboardEvent.shiftKey up = KeyboardEvent.shiftKey down ->
      exists w1 w2 v2,
        runs_to (handleKeyDown (Some c) activeElement up) w w1
        /\ runs_to (handleKeyDown (Some c) activeElement down) w1 w2
        /\ ViewportController.viewport_of w2 = Some v2
        /\ Veq v2 v)
  /\ (KeyboardEvent.shiftKey left = KeyboardEvent.shiftKey right ->
      exists w1 w2 v2,
        runs_to (handleKeyDown (Some c) activeElement left) w w1
        /\ runs_to (handleKeyDown (Some c) activeElement right) w1 w2
        /\ ViewportController.viewport_of w2 = Some v2
        /\ Veq v2 v).
Proof.
  intros Hc Hf Hv Hup Hdown Hleft Hright step.
  assert (forall event (w0 : World Q) v0 dx dy,
            ViewportController.viewport_of w0 = Some v0 ->
            handleKeyDown (Some c) activeElement event w0
            = ViewportController.pan dx dy w0 ->
            exists w',
              runs_to (handleKeyDown (Some c) activeElement event) w0 w'
              /\ ViewportController.viewport_of w'
                 = Some (Viewport.mk (Viewport.x v0 + dx) (Viewport.y v0 + dy)
                                     (Viewport.scale v0))) as Pan.
  { intros event w0 v0 dx dy Hv0 E.
    destruct (pan_lands w0 v0 dx dy Hv0) as (w' & R & V & _).
    exists w'. split; [|done]. unfold runs_to. by rewrite E. }
  pose proof (fun w0 => arrow_dispatch c activeElement up w0 _ Hc Hf Hup) as Dup.
  pose proof (fun w0 => arrow_dispatch c activeElement down w0 _ Hc Hf Hdown) as Ddown.
  pose proof (fun w0 => arrow_dispatch c activeElement left w0 _ Hc Hf Hleft) as Dleft.
  pose proof (fun w0 => arrow_dispatch c activeElement right w0 _ Hc Hf Hright) as Dright.
  cbv zeta in Dup, Ddown, Dleft, Dright. fold (step up) in Dup.
  fold (step down) in Ddown. fold (step left) in Dleft. fold (step right) in Dright.
  split; [|split; [|split; [|split; [|split]]]].
  - apply (Pan up w v); [done|]. by apply Dup.
  - apply (Pan down w v); [done|]. by apply Ddown.
  - apply (Pan left w v); [done|]. by apply Dleft.
  - apply (Pan right w v); [done|]. by apply Dright.
  - intros Hs.
    destruct (Pan up w v 0 (- step up) Hv) as (w1 & R1 & V1); [by apply Dup|].
    destruct (Pan down w1 _ 0 (step down) V1) as (w2 & R2 & V2);
      [by apply Ddown|].
    eexists w1, w2, _. split; [done|]. split; [done|]. split; [exact V2|].
    unfold Veq, step. cbn. rewrite Hs. repeat split; ring.
  - intros Hs.
    destruct (Pan left w v (- step left) 0 Hv) as (w1 & R1 & V1);
      [by apply Dleft|].
    destruct (Pan right w1 _ (step right) 0 V1) as (w2 & R2 & V2);
      [by apply Dright|].
    eexists w1, w2, _. split; [done|]. split; [done|]. split; [exact V2|].
    unfold Veq, step. cbn. rewrite Hs. repeat split; ring.
Qed.

End Arrows.

Section Listeners.
Context {num : Type} `{!JsNumber num}.
Import KeyboardHandler.
Local Open Scope monad_scope.

(** X28. [addShortcut] replaces the listeners the handler had: the
    handler then has one listener, so a second [addShortcut] makes the
    handler forget the shortcut added first. After
    [addShortcut(key1, ...)] and [addShortcut(key2, ...)], with no
    input focused, a [keydown] that is the second shortcut runs its
    handler, and any other [keydown], the first shortcut included, is
    handled by [handleKeyDown] alone; this for a second shortcut and
    a pressed key written in ASCII characters, on which lowering the
    case is lowering the letters A to Z. *)
Theorem a_new_shortcut_replaces_the_earlier_ones
    (key1 key2 : string) (handler1 handler2 : KeyboardEvent -> M num unit)
    (modifiers1 modifiers2 : Modifiers) (this : t)
    (activeElement : ActiveElement) (event : KeyboardEvent) (w : World num) :
  let once := addShortcut key2 handler2 modifiers2 this in
  let twice := addShortcut key2 handler2 modifiers2
                 (addShortcut key1 handler1 modifiers1 this) in
  let report := fun error : exn => console_error (num := num) "Uncaught" (Some error) in
  twice = once
  /\ length (eventListeners twice) = 1%nat
  /\ controllers twice = controllers this
  /\ (isInputFocused activeElement = true ->
      keydown twice activeElement event w = (Return tt, w))
  /\ (is_ascii key2 = true ->
      is_ascii (KeyboardEvent.key event) = true ->
      isInputFocused activeElement = false ->
      shortcut_matches key2 modifiers2 event = true ->
      keydown twice activeElement event w
      = (try_catch (handler2 event) report ;; ret tt) w)
  /\ (is_ascii key2 = true ->
      is_ascii (KeyboardEvent.key event) = true ->
      isInputFocused activeElement = false ->
      shortcut_matches key2 modifiers2 event = false ->
      keydown twice activeElement event w
      = (try_catch (handleKeyDown (controllers this) activeElement event) report ;;
         ret tt) w).
Proof.
  intros once twice report.
  split; [reflexivity|]. split; [reflexivity|]. split; [reflexivity|].
  unfold keydown, twice, addShortcut, removeEventListeners.
  cbn [eventListeners controllers Datatypes.app forEach].
  fold (shortcut_matches key2 modifiers2 event).
  split; [|split].
  - intros Hf. unfold bind, try_catch. rewrite Hf. reflexivity.
  - intros _ _ Hf Hm. unfold bind, try_catch. rewrite Hf, Hm. reflexivity.
  - intros _ _ Hf Hm. unfold bind, try_catch. rewrite Hf, Hm. reflexivity.
Qed.

End Listeners.

Section SetupTwice.
Local Open Scope Q_scope.
Import KeyboardHandler.

Lemma try_catch_runs {A} (m : M Q A) (handler : exn -> M Q A) (w w' : World Q) (a : A) :
  m w = (Return a, w') -> try_catch m handler w = (Return a, w').
Proof. unfold try_catch. by intros ->. Qed.

(** X29. Each [setup] adds a listener and removes none, and every
    listener works with the controllers given last. So after a second
    [setup] every [keydown] is handled twice in a row: an ArrowRight,
    which moves the offset by 10 to the right after one [setup], moves
    it by 20. Over exact arithmetic. *)
Theorem a_second_setup_doubles_the_handling (c1 c2 : Controllers (num := Q))
    (activeElement : ActiveElement) (event : KeyboardEvent)
    (w : World Q) (v : Viewport Q) :
  viewport c2 = true ->
  isInputFocused activeElement = false ->
  ViewportController.viewport_of w = Some v ->
  toLowerCase (KeyboardEvent.key event) = "arrowright" ->
  KeyboardEvent.shiftKey event = false ->
  exists w1 w2,
    length (eventListeners (setup c2 constructor)) = 1%nat
    /\ runs_to (keydown (setup c2 constructor) activeElement event) w w1
    /\ ViewportController.viewport_of w1
       = Some (Viewport.mk (Viewport.x v + 10) (Viewport.y v + 0) (Viewport.scale v))
    /\ length (eventListeners (setup c2 (setup c1 constructor))) = 2%nat
    /\ runs_to (keydown (setup c2 (setup c1 constructor)) activeElement event) w w2
    /\ ViewportController.viewport_of w2
       = Some (Viewport.mk (Viewport.x v + 10 + 10) (Viewport.y v + 0 + 0)
                           (Viewport.scale v)).
Proof.
  intros Hc Hf Hv Hk Hs.
  assert (forall w0 : World Q,
            handleKeyDown (Some c2) activeElement event w0
            = ViewportController.pan 10 0 w0) as D.
  { intros w0.
    destruct (arrow_dispatch c2 activeElement event w0 _ Hc Hf Hk) as (_ & _ & _ & E).
    rewrite Hs in E. by apply E. }
  destruct (pan_lands w v 10 0 Hv) as (w1 & R1 & V1 & _).
  destruct (pan_lands w1 _ 10 0 V1) as (w2 & R2 & V2 & _).
  exists w1, w2. split; [done|].
  unfold keydown, setup, constructor.
  cbn [eventListeners controllers Datatypes.app forEach].
  split; [|split; [exact V1|split; [done|split; [|exact V2]]]].
  - unfold runs_to, bind.
    rewrite (try_catch_runs _ _ w w1 tt) by (by rewrite D). reflexivity.
  - unfold runs_to, bind.
    rewrite (try_catch_runs _ _ w w1 tt) by (by rewrite D).
    rewrite (try_catch_runs _ _ w1 w2 tt) by (by rewrite D). reflexivity.
Qed.

End SetupTwice.

Lemma arrow_keys_pan_witness :
  let c : KeyboardHandler.Controllers (num := Q) :=
    {| KeyboardHandler.viewport := true; KeyboardHandler.animation := None;
       KeyboardHandler.ui := None |} in
  let body := {| KeyboardHandler.tagName := "BODY";
                 KeyboardHandler.contentEditable := "inherit" |} in
  exists w',
    runs_to (KeyboardHandler.handleKeyDown (Some c) body
               (KeyboardEvent.mk "ArrowLeft" false false true false))
            world0 w'
    /\ ViewportController.viewport_of w' = Some (Viewport.mk (0 + - 50) (0 + 0) 1).
Proof.
  intros c body.
  destruct (arrow_keys_pan c body world0 (Viewport.mk 0 0 1)
              (KeyboardEvent.mk "ArrowUp" false false false false)
              (KeyboardEvent.mk "ArrowDown" false false false false)
              (KeyboardEvent.mk "ArrowLeft" false false true false)
              (KeyboardEvent.mk "ArrowRight" false false true false))
    as (_ & _ & L & _); try reflexivity.
  exact L.
Defined.

Lemma a_second_setup_doubles_the_handling_witness :
  let c : KeyboardHandler.Controllers (num := Q) :=
    {| KeyboardHandler.viewport := true; KeyboardHandler.animation := None;
       KeyboardHandler.ui := None |} in
  let body := {| KeyboardHandler.tagName := "BODY";
                 KeyboardHandler.contentEditable := "inherit" |} in
  exists w2,
    runs_to (KeyboardHandler.keydown
               (KeyboardHandler.setup c
                  (KeyboardHandler.setup c KeyboardHandler.constructor))
               body (KeyboardEvent.mk "ArrowRight" false false false false))
            world0 w2
    /\ ViewportController.viewport_of w2 = Some (Viewport.mk (0 + 10 + 10) (0 + 0 + 0) 1).
Proof.
  intros c body.
  destruct (a_second_setup_doubles_the_handling c c body
              (KeyboardEvent.mk "ArrowRight" false false false false)
              world0 (Viewport.mk 0 0 1))
    as (w1 & w2 & _ & _ & _ & _ & R & V); try reflexivity.
  by exists w2.
Defined.

(* ================================================================== *)
(** * The rotation animation *)
(* ================================================================== *)

Section Rotation.
Context {num : Type} `{!JsNumber num}.
Import AnimationController.
Local Open Scope js_scope.

Lemma frames_without_graphic (n : nat) (centerDot geometricCenterDot : option (Sprite num)) :
  frames n None centerDot geometricCenterDot = (None, centerDot, geometricCenterDot).
Proof. induction n as [|n IH]; [done|]. cbn. exact IH. Qed.

Lemma frames_with_graphic (n : nat) (graphic : Graphics num)
    (centerDot geometricCenterDot : option (Sprite num)) :
  frames (S n) (Some graphic) centerDot geometricCenterDot
  = (Some (Graphics.set_rotation (turned (S n) (Graphics.rotation graphic)) graphic),
     option_map (set_sprite_rotation (turned (S n) (Graphics.rotation graphic))) centerDot,
     option_map (set_sprite_rotation (turned (S n) (Graphics.rotation graphic)))
                geometricCenterDot).
Proof.
  revert graphic centerDot geometricCenterDot.
  induction n as [|n IH]; intros graphic centerDot geometricCenterDot.
  - cbn. by destruct centerDot, geometricCenterDot.
  - change (frames (S (S n)) (Some graphic) centerDot geometricCenterDot)
      with (let '(g, c, d) := updateRotation (Some graphic) centerDot geometricCenterDot in
            frames (S n) g c d).
    cbn [updateRotation]. rewrite IH.
    destruct graphic, centerDot as [[]|], geometricCenterDot as [[]|]; reflexivity.
Qed.

End Rotation.

Lemma turned_Q (n : nat) (rotation : Q) :
  turned n rotation == rotation + inject_Z (Z.of_nat n) * (5 # 100).
Proof.
  revert rotation. induction n as [|n IH]; intros rotation.
  - cbn [turned]. change (inject_Z (Z.of_nat 0)) with 0. ring.
  - cbn [turned]. rewrite IH, Nat2Z.inj_succ. unfold Z.succ.
    rewrite inject_Z_plus. change (inject_Z 1) with 1.
    unfold AnimationController.DEFAULT_ROTATION_SPEED. cbn [lit add Q_JsNumber]. ring.
Qed.

(** X30. The rotation animation. Each frame adds the rotation speed
    (0.05) to the rotation of the graphic and copies the new rotation
    to the two centre markers that exist; so after any number of
    frames, at least one, each marker has exactly the rotation of the
    graphic, whatever the arithmetic, and nothing else of the three
    objects has changed; over exact arithmetic the rotation after [n]
    frames is the initial one plus [n] times 0.05. Without a graphic
    nothing changes. *)
Theorem rotation_advances_each_frame :
  (forall (num : Type) (NUM : JsNumber num) (n : nat) (graphic : Graphics num)
          (centerDot geometricCenterDot : Sprite num),
     exists graphic' centerDot' geometricCenterDot',
       AnimationController.frames (S n) (Some graphic)
         (Some centerDot) (Some geometricCenterDot)
       = (Some graphic', Some centerDot', Some geometricCenterDot')
       /\ Sprite.rotation centerDot' = Graphics.rotation graphic'
       /\ Sprite.rotation geometricCenterDot' = Graphics.rotation graphic'
       /\ graphic' = Graphics.set_rotation (Graphics.rotation graphic') graphic
       /\ centerDot'
          = AnimationController.set_sprite_rotation (Graphics.rotation graphic') centerDot
       /\ geometricCenterDot'
          = AnimationController.set_sprite_rotation (Graphics.rotation graphic')
              geometricCenterDot)
  /\ (forall (n : nat) (graphic : Graphics Q),
        exists graphic',
          AnimationController.frames n (Some graphic) None None
          = (Some graphic', None, None)
          /\ Graphics.rotation graphic'
             == Graphics.rotation graphic + inject_Z (Z.of_nat n) * (5 # 100))
  /\ (forall (num : Type) (NUM : JsNumber num) (n : nat)
             (centerDot geometricCenterDot : option (Sprite num)),
        AnimationController.frames n None centerDot geometricCenterDot
        = (None, centerDot, geometricCenterDot)).
Proof.
  split; [|split].
  - intros num NUM n graphic centerDot geometricCenterDot.
    rewrite frames_with_graphic. cbn [option_map].
    eexists _, _, _. split; [reflexivity|]. by repeat split.
  - intros [|n] graphic.
    + exists graphic. split; [done|]. change (inject_Z (Z.of_nat 0)) with 0. ring.
    + rewrite frames_with_graphic. cbn [option_map].
      eexists. split; [reflexivity|].
      cbn [Graphics.rotation Graphics.set_rotation]. apply turned_Q.
  - intros. apply frames_without_graphic.
Qed.
